(** * Outline tree, brainstorm hook and dashboard status of the research
      assistant backend

    A shallow embedding of
    - [research_assistant/outline/views.py]
      ([_recreate_sections], [save_outline], [delete_outline] and the
      owner-filtered lookup they share with [get_outline] and
      [update_outline]),
    - [research_assistant/brain/views.py] ([save_brainstorm_session]),
    - [research_assistant/dashboard/views.py] ([fetch_planning]),
    together with the part of the SQLAlchemy session they rely on: a
    committed store, a working copy that [flush] and the query API act on,
    [commit], and the rollback of whatever is uncommitted when a request
    ends; and the system clock, which a request may read more than once. *)

From stdpp Require Import gmap strings list sorting.
From Stdlib Require Import ZArith Lia.

Local Open Scope string_scope.
Local Open Scope list_scope.
Local Open Scope nat_scope.
Set Warnings "-register-all".

(** ** Rows *)

(** A row of the [section] table (class [Section]).  The class name is a
    reserved word here, hence [SectionRow]. *)
Record SectionRow := mkSection {
  sec_id         : nat;
  sec_title      : string;
  sec_summary    : option string;
  sec_parent_id  : option nat;
  sec_order      : nat;
  sec_created_at : Z;
  sec_user_id    : nat
}.

(** Calendar dates are day numbers, points in time are microseconds. *)
Record Phase := mkPhase {
  phase_id         : nat;
  phase_title      : string;
  phase_start_date : option Z;
  phase_end_date   : option Z;
  phase_deadline   : option Z;
  phase_user_id    : nat
}.

Record Task := mkTask {
  task_id          : nat;
  task_description : string;
  task_completed   : bool;
  task_phase_id    : option nat;
  task_user_id     : nat
}.

Record BrainEntry := mkBrainEntry {
  entry_id               : nat;
  entry_why              : option string;
  entry_what             : option string;
  entry_where            : option string;
  entry_when             : option string;
  entry_who              : option string;
  entry_messages         : string;
  entry_overall_feedback : string;
  entry_completed        : bool;
  entry_user_id          : nat
}.

#[global] Instance SectionRow_eq_dec : EqDecision SectionRow.
Proof. solve_decision. Defined.
#[global] Instance Phase_eq_dec : EqDecision Phase.
Proof. solve_decision. Defined.
#[global] Instance Task_eq_dec : EqDecision Task.
Proof. solve_decision. Defined.

(** ** The store and the session *)

Record Store := mkStore {
  sections      : list SectionRow;
  phases        : list Phase;
  tasks         : list Task;
  brain_entries : list BrainEntry
}.

Definition set_sections (f : list SectionRow → list SectionRow) (st : Store) : Store :=
  mkStore (f (sections st)) (phases st) (tasks st) (brain_entries st).

Definition set_tasks (f : list Task → list Task) (st : Store) : Store :=
  mkStore (sections st) (phases st) (f (tasks st)) (brain_entries st).

Definition set_brain_entries (f : list BrainEntry → list BrainEntry) (st : Store) : Store :=
  mkStore (sections st) (phases st) (tasks st) (f (brain_entries st)).

(** [committed] is what other requests see; [session] is the view of the
    running request (flushed but possibly uncommitted rows); [ticks] counts
    the readings of the system clock the request has taken so far. *)
Record Db := mkDb {
  committed : Store;
  session   : Store;
  ticks     : nat
}.

Inductive Exn :=
| KeyError (key : string)
| NotFound
| RecursionError.

Inductive Outcome (A : Type) :=
| Return (a : A)
| Raise (e : Exn).
Arguments Return {A} a.
Arguments Raise {A} e.

(** A piece of a request handler: it runs against the database and either
    returns or raises. *)
Definition Req (A : Type) : Type := Db → Db * Outcome A.

Definition req_ret {A} (a : A) : Req A := λ db, (db, Return a).

Definition req_bind {A B} (m : Req A) (k : A → Req B) : Req B :=
  λ db, match m db with
        | (db', Return a) => k a db'
        | (db', Raise e)  => (db', Raise e)
        end.

Definition raise {A} (e : Exn) : Req A := λ db, (db, Raise e).

Notation "x <- m ;; k" := (req_bind m (λ x, k))
  (at level 100, m at next level, right associativity).
Notation "m ;;; k" := (req_bind m (λ _, k))
  (at level 100, right associativity).

(** [db.session.commit()] *)
Definition commit : Req unit :=
  λ db, (mkDb (session db) (session db) (ticks db), Return tt).

Definition query {A} (f : Store → A) : Req A :=
  λ db, (db, Return (f (session db))).

Definition update (f : Store → Store) : Req unit :=
  λ db, (mkDb (committed db) (f (session db)) (ticks db), Return tt).

(** [datetime.utcnow()].  The readings of the clock are an input of the
    request: [clock k] is what the reading number [k] returns, counting from
    0.  Nothing is assumed of them. *)
Definition utcnow (clock : nat → Z) : Req Z :=
  λ db, (mkDb (committed db) (session db) (S (ticks db)), Return (clock (ticks db))).

(** The primary key handed out by a flush: one more than the largest key
    of the table (the row-id rule of the SQLite engine the tests run on). *)
Definition fresh_id (ids : list nat) : nat := S (foldr Nat.max 0 ids).

(** ** Responses *)

Record StatusRecord := mkStatus {
  st_id     : nat;
  st_title  : string;
  st_status : string
}.

Inductive Body :=
| Empty
| SuccessMessage (success : bool) (message : string)
| EntryId (id : nat)
| PhaseData (code : nat) (data : list StatusRecord)
| ErrorPage.

Definition Response : Type := Body * nat.

(** What happens around a view function: the session starts from the
    committed store, an exception becomes an error response, and the
    session is discarded at the end of the request, so only what was
    committed survives. *)
Definition handle (view : Req Response) (st : Store) : Response * Store :=
  match view (mkDb st st 0) with
  | (db, Return r)        => (r, committed db)
  | (db, Raise NotFound)  => ((ErrorPage, 404), committed db)
  | (db, Raise _)         => ((ErrorPage, 500), committed db)
  end.

(** ** [outline/views.py] *)

(** A node descriptor of the JSON payload.  [None] as title is the
    missing key; a missing ["subsections"] is the empty list. *)
Inductive Item :=
| mkItem (title : option string) (summary : option string) (subsections : list Item).

Definition item_title (it : Item) : option string :=
  match it with mkItem t _ _ => t end.

(** [item['title']] *)
Definition getitem_title (it : Item) : Req string :=
  match item_title it with
  | Some t => req_ret t
  | None   => raise (KeyError "title")
  end.

(** [db.session.add(sec); db.session.flush()], returning [sec.id]. *)
Definition add_flush_section (mk : nat → SectionRow) : Req nat :=
  λ db,
    let i := fresh_id (sec_id <$> sections (session db)) in
    (mkDb (committed db) (set_sections (λ l, l ++ [mk i]) (session db)) (ticks db),
     Return i).

(** [for idx, x in enumerate(l): body idx x], counting from [start]. *)
Fixpoint for_enumerate {A} (start : nat) (l : list A) (body : nat → A → Req unit) : Req unit :=
  match l with
  | []      => req_ret tt
  | x :: l' => body start x ;;; for_enumerate (S start) l' body
  end.

(** [for x in l: body x] *)
Fixpoint for_each {A} (l : list A) (body : A → Req unit) : Req unit :=
  match l with
  | []      => req_ret tt
  | x :: l' => body x ;;; for_each l' body
  end.

(** One turn of the loop of [_recreate_sections], at position [idx].  The
    arguments of [Section(...)] are evaluated in the order they are written:
    the title first, which may raise, and the clock after it, once for every
    row.  The call [_recreate_sections([child], ...)] of the source is a loop
    over a one-element list, that is one turn at position 0; it is written
    so here to make the recursion structural, and [_recreate_sections_body]
    below gives the equation in the source's own shape. *)
Fixpoint recreate_turn (clock : nat → Z) (user_id : nat) (parent_id : option nat)
    (idx : nat) (item : Item) {struct item} : Req unit :=
  match item with
  | mkItem title summary subs =>
      t <- getitem_title (mkItem title summary subs) ;;
      created_at <- utcnow clock ;;
      sid <- add_flush_section
               (λ i, mkSection i t summary parent_id idx created_at user_id) ;;
      (fix children (cs : list Item) : Req unit :=
         match cs with
         | []           => req_ret tt
         | child :: cs' =>
             (recreate_turn clock user_id (Some sid) 0 child ;;; req_ret tt) ;;; children cs'
         end) subs
  end.

Definition _recreate_sections (clock : nat → Z) (items : list Item) (user_id : nat)
    (parent_id : option nat) : Req unit :=
  for_enumerate 0 items (recreate_turn clock user_id parent_id).

(** [Section.query.filter_by(user_id=uid).delete()] *)
Definition delete_sections_of (uid : nat) : Req unit :=
  update (set_sections (filter (λ r, sec_user_id r ≠ uid))).

(** [save_outline] for a POST.  [outline] is [payload.get('outline', [])]
    with [None] for an absent key or body. *)
Definition save_outline (clock : nat → Z) (uid : nat) (payload : option (list Item))
    : Req Response :=
  let outline := default [] payload in
  if bool_decide (outline = [])
  then req_ret (SuccessMessage false "Cannot save empty outline!", 400)
  else
    delete_sections_of uid ;;;
    commit ;;;
    _recreate_sections clock outline uid None ;;;
    commit ;;;
    req_ret (SuccessMessage true "Outline saved", 201).

(** [query.first()] and [query.first_or_404()] on the rows a query selects. *)
Definition first_row {A} (rows : list A) : option A := head rows.

Definition first_or_404 {A} (rows : Store → list A) : Req A :=
  λ db, match first_row (rows (session db)) with
        | Some r => (db, Return r)
        | None   => (db, Raise NotFound)
        end.

(** [Section.query.filter_by(id=sec_id, user_id=uid)] *)
Definition sections_by_id_and_user (sec_id0 uid : nat) (st : Store) : list SectionRow :=
  filter (λ r, sec_id r = sec_id0 ∧ sec_user_id r = uid) (sections st).

Definition order_le (a b : SectionRow) : Prop := (sec_order a ≤ sec_order b)%nat.

#[global] Instance order_le_dec : RelDecision order_le.
Proof. intros a b. unfold order_le. apply _. Defined.

(** [.order_by(Section.order)]: the rows ascending by [order]; rows with
    the same [order] stay in the order of the table, which is how the engine
    returns them. *)
Fixpoint insert_by_order (r : SectionRow) (rows : list SectionRow) : list SectionRow :=
  match rows with
  | []         => [r]
  | r' :: rows' =>
      if decide (order_le r r') then r :: rows else r' :: insert_by_order r rows'
  end.

Definition order_by_order (rows : list SectionRow) : list SectionRow :=
  foldr insert_by_order [] rows.

(** Modelled from the spec: the relationship [Section.subsections] is
    declared in [outline/models.py], which the repository's sources do not
    include.  By the data model one parent owns zero or more children of the
    same table through the nullable parent link, siblings ordered ascending
    by [order]: the children of [node] are the rows whose [parent_id] is
    the key of [node], sorted by [order]. *)
Definition subsections_of (node : SectionRow) (rows : list SectionRow) : list SectionRow :=
  order_by_order
    (filter (λ r, sec_parent_id r = Some (sec_id node)) rows).

(** [db.session.delete(node)] *)
Definition session_delete (node : SectionRow) : Req unit :=
  update (set_sections (filter (λ r, sec_id r ≠ sec_id node))).

(** The inner function of [delete_outline].  [fuel] bounds the depth of
    the recursion, as the interpreter's recursion limit does. *)
Fixpoint _delete_subtree (fuel : nat) (node : SectionRow) : Req unit :=
  match fuel with
  | 0 => raise RecursionError
  | S fuel' =>
      children <- query (λ st, subsections_of node (sections st)) ;;
      for_each children (_delete_subtree fuel') ;;;
      session_delete node
  end.

Definition delete_outline (fuel : nat) (uid sec_id0 : nat) : Req Response :=
  sec <- first_or_404 (sections_by_id_and_user sec_id0 uid) ;;
  _delete_subtree fuel sec ;;;
  commit ;;;
  req_ret (Empty, 204).

(** ** [brain/views.py] *)

(** The JSON body of a brainstorm save, with the defaults of the
    [data.get] calls applied; [messages] is the serialised chat. *)
Record BrainPayload := mkBrainPayload {
  fiveW_why        : option string;
  fiveW_what       : option string;
  fiveW_where      : option string;
  fiveW_when       : option string;
  fiveW_who        : option string;
  bp_messages      : string;
  bp_overall       : string;
  bp_completed     : bool
}.

(** Truth value of a 5W field: a missing field and the empty text are false. *)
Definition truthy (o : option string) : bool :=
  match o with
  | Some s => negb (String.eqb s "")
  | None   => false
  end.

Definition all_five (d : BrainPayload) : bool :=
  forallb truthy [fiveW_why d; fiveW_what d; fiveW_where d; fiveW_when d; fiveW_who d].

(** Modelled from the spec: the relationship [Phase.tasks] is declared in
    [planning/models.py], which the repository's sources do not include.  A Phase
    owns zero or more Tasks, each Task belongs to exactly one Phase: the
    tasks of a phase are the task rows that carry its key. *)
Definition phase_tasks (p : Phase) (st : Store) : list Task :=
  filter (λ t, task_phase_id t = Some (phase_id p)) (tasks st).

(** [Phase.query.filter_by(title=...)] *)
Definition phases_by_title (title : string) (st : Store) : list Phase :=
  filter (λ p, phase_title p = title) (phases st).

(** [db.session.add(entry)]; the key is the one the flush assigns. *)
Definition add_entry (mk : nat → BrainEntry) : Req nat :=
  λ db,
    let i := fresh_id (entry_id <$> brain_entries (session db)) in
    (mkDb (committed db) (set_brain_entries (λ l, l ++ [mk i]) (session db)) (ticks db),
     Return i).

(** [phase.tasks.append(new_task); db.session.add(new_task)] *)
Definition append_task (p : Phase) (mk : nat → option nat → Task) : Req unit :=
  λ db,
    let i := fresh_id (task_id <$> tasks (session db)) in
    (mkDb (committed db)
          (set_tasks (λ l, l ++ [mk i (Some (phase_id p))]) (session db))
          (ticks db),
     Return tt).

Definition brainstorm_hook (user_id : nat) : Req unit :=
  phase <- query (λ st, first_row (phases_by_title "Define Topic & Question" st)) ;;
  match phase with
  | Some p =>
      ts <- query (phase_tasks p) ;;
      if negb (existsb (λ t, String.eqb (task_description t) "Brainstorm Complete") ts)
      then append_task p (λ i ph, mkTask i "Brainstorm Complete" true ph user_id)
      else req_ret tt
  | None => req_ret tt
  end.

Definition save_brainstorm_session (user_id : nat) (data : BrainPayload) : Req Response :=
  eid <- add_entry (λ i, mkBrainEntry i (fiveW_why data) (fiveW_what data)
                           (fiveW_where data) (fiveW_when data) (fiveW_who data)
                           (bp_messages data) (bp_overall data) (bp_completed data)
                           user_id) ;;
  (if all_five data then brainstorm_hook user_id else req_ret tt) ;;;
  commit ;;;
  req_ret (EntryId eid, 201).

(** ** [dashboard/views.py] *)

Definition desired_order : list string :=
  [ "Define Topic & Question";
    "Literature Review";
    "Identify Gaps";
    "Plan Methodology";
    "Write & Revise" ].

Definition microseconds_per_day : Z := 86400000000.

(** [timedelta(days=7)] *)
Definition warning_threshold : Z := 7 * microseconds_per_day.

(** [datetime.combine(d, datetime.max.time()).replace(tzinfo=local_tz)]:
    the last microsecond of day [d] on the wall clock of the reference
    zone.  [now] carries the same zone object, and two aware values with
    the same zone object are compared and subtracted by their wall-clock
    readings, so both are plain microsecond counts on that clock. *)
Definition end_of_day (d : Z) : Z := d * microseconds_per_day + (microseconds_per_day - 1).

(** [{p.title: p for p in user_phases}]: a later phase replaces an earlier
    one with the same title. *)
Definition user_phase_map (user_phases : list Phase) : gmap string Phase :=
  foldl (λ m p, <[phase_title p := p]> m) ∅ user_phases.

(** The status computed in the branch [if phase:]. *)
Definition phase_status (ts : list Task) (deadline : option Z) (now : Z) : string :=
  if negb (bool_decide (ts = [])) && forallb task_completed ts
  then "Completed"
  else
    match deadline with
    | Some d =>
        let deadline_dt := end_of_day d in
        if (deadline_dt <? now)%Z then "Not Completed (Overdue)"
        else if (deadline_dt - now <=? warning_threshold)%Z
             then "Not Completed (Deadline Approaching)"
             else "NotCompleted"
    | None => "NotCompleted"
    end.

(** The body of the loop over [enumerate(desired_order)]. *)
Definition status_record (st : Store) (m : gmap string Phase) (now : Z)
    (index : nat) (title : string) : StatusRecord :=
  match m !! title with
  | Some phase =>
      mkStatus (index + 1) (phase_title phase)
               (phase_status (phase_tasks phase st) (phase_deadline phase) now)
  | None =>
      mkStatus (index + 1) title "NotCompleted"
  end.

Definition dashboard_data (uid : nat) (now : Z) (st : Store) : list StatusRecord :=
  let user_phases := filter (λ p, phase_user_id p = uid) (phases st) in
  let m := user_phase_map user_phases in
  imap (status_record st m now) desired_order.

Definition fetch_planning (uid : nat) (now : Z) : Req Response :=
  data <- query (dashboard_data uid now) ;;
  req_ret (PhaseData 0 data, 200).

(** ** Vocabulary of the statements *)

(** All tasks of a list are completed ([all(t.completed for t in tasks)]). *)
Definition all_completed (ts : list Task) : Prop :=
  Forall (λ t, task_completed t = true) ts.

(** Every node of a descriptor carries a title. *)
Fixpoint titled (it : Item) : bool :=
  match it with
  | mkItem t _ subs => bool_decide (is_Some t) && forallb titled subs
  end.

(** [db'] differs from [db] by the section rows [new], appended to the
    session; nothing is committed and no other table is touched. *)
Definition appends (db db' : Db) (new : list SectionRow) : Prop :=
  committed db' = committed db
  ∧ session db' = set_sections (λ l, l ++ new) (session db).

(** The rows one turn of the loop creates when it returns: the node's own
    row first, with the given parent and position, then the rows of its
    descendants. *)
Definition turn_rows (parent_id : option nat) (idx : nat) (new : list SectionRow) : Prop :=
  ∃ first rest,
    new = first :: rest
    ∧ sec_parent_id first = parent_id
    ∧ sec_order first = idx
    ∧ Forall (λ r, sec_parent_id r ≠ None ∧ sec_order r = 0) rest.

(** Atomicity of a save as the specification words it: a save that does not
    answer 201 leaves the committed store as it was. *)
Definition save_outline_atomic_at (clock : nat → Z) (uid : nat) (outline : list Item)
    (st : Store) : Prop :=
  ∀ resp st',
    handle (save_outline clock uid (Some outline)) st = (resp, st') →
    resp.2 ≠ 201 →
    st' = st.

(** Sibling positions as the specification words them: the descriptor at
    0-based position [k] of a sibling sequence is stored with [order = k],
    roots and nested children alike.  The list gives the expected [order]
    values in creation order (a node, then its subtree, then its later
    siblings). *)
Fixpoint item_positions (idx : nat) (it : Item) : list nat :=
  match it with
  | mkItem _ _ subs =>
      idx :: (fix siblings (k : nat) (cs : list Item) : list nat :=
                match cs with
                | []       => []
                | c :: cs' => item_positions k c ++ siblings (S k) cs'
                end) 0 subs
  end.

Fixpoint sibling_positions (idx : nat) (items : list Item) : list nat :=
  match items with
  | []          => []
  | it :: items' => item_positions idx it ++ sibling_positions (S idx) items'
  end.

(** The tasks of a phase that are described as the brainstorm marker. *)
Definition brainstorm_tasks (p : Phase) (st : Store) : list Task :=
  filter (λ t, task_description t = "Brainstorm Complete") (phase_tasks p st).

(** The store after a brainstorm save, and after a series of them. *)
Definition after_save (st : Store) (r : nat * BrainPayload) : Store :=
  (handle (save_brainstorm_session r.1 r.2) st).2.

Definition after_saves (reqs : list (nat * BrainPayload)) (st : Store) : Store :=
  foldl after_save st reqs.

(** Implicit creation as the specification words it: after a save with all
    five fields by an owner without a "Define Topic & Question" phase, the
    owner has such a phase and the completion task hangs under it. *)
Definition hook_creates_phase_at (uid : nat) (data : BrainPayload) (st : Store) : Prop :=
  all_five data = true →
  filter (λ p, phase_user_id p = uid) (phases_by_title "Define Topic & Question" st) = [] →
  ∃ p t,
    p ∈ phases (after_save st (uid, data))
    ∧ phase_user_id p = uid
    ∧ phase_title p = "Define Topic & Question"
    ∧ t ∈ brainstorm_tasks p (after_save st (uid, data)).

(** The task table after the hook has run for [uid], in closed form. *)
Definition hook_tasks (uid : nat) (st : Store) : list Task :=
  match first_row (phases_by_title "Define Topic & Question" st) with
  | Some p =>
      match brainstorm_tasks p st with
      | [] => tasks st ++ [mkTask (fresh_id (task_id <$> tasks st))
                                  "Brainstorm Complete" true (Some (phase_id p)) uid]
      | _ :: _ => tasks st
      end
  | None => tasks st
  end.

(** What [item['title']] raises on a descriptor without a title. *)
Definition key_error : Outcome unit := Raise (KeyError "title").

(** Row [r] lies in the subtree below the key [root]: it carries that key,
    or its parent link points to a row of the subtree. *)
Inductive in_subtree (rows : list SectionRow) (root : nat) : SectionRow → Prop :=
| subtree_root r :
    r ∈ rows → sec_id r = root → in_subtree rows root r
| subtree_child r p :
    r ∈ rows → sec_parent_id r = Some (sec_id p) → in_subtree rows root p →
    in_subtree rows root r.

(** Invariants of the section table: keys are unique (primary key), a
    parent is created before its children and so has the smaller key, and a
    child belongs to the owner of its parent. *)
Definition keys_unique (rows : list SectionRow) : Prop :=
  NoDup (sec_id <$> rows).

Definition parents_first (rows : list SectionRow) : Prop :=
  ∀ r p, r ∈ rows → sec_parent_id r = Some p → p < sec_id r.

Definition same_owner (rows : list SectionRow) : Prop :=
  ∀ r p, r ∈ rows → p ∈ rows → sec_parent_id r = Some (sec_id p) →
         sec_user_id r = sec_user_id p.

(** The session of [db'] is the one of [db] with [rows'] as section table. *)
Definition with_sections (db : Db) (rows' : list SectionRow) : Db :=
  mkDb (committed db) (set_sections (λ _, rows') (session db)) (ticks db).

(** What deleting the subtree of [node] from [rows] leaves, with
    [all] the table the request started from: an order-preserving part of
    [rows] without the key of [node], keeping every row outside the subtree
    and never a row whose parent it dropped. *)
Definition subtree_removed (all rows : list SectionRow) (node : SectionRow)
    (rows' : list SectionRow) : Prop :=
  rows' `sublist_of` rows
  ∧ (∀ r, r ∈ rows' → sec_id r ≠ sec_id node)
  ∧ (∀ r, r ∈ rows → ¬ in_subtree all (sec_id node) r → r ∈ rows')
  ∧ (∀ r p, r ∈ rows' → p ∈ rows → sec_parent_id r = Some (sec_id p) → p ∈ rows').

(** A small table for examples: user 7 has the tree A(B, C) and the root
    D, user 8 has the root E. *)
Definition example_sections : list SectionRow :=
  [ mkSection 1 "A" None None 0 0 7;
    mkSection 2 "B" None (Some 1) 0 0 7;
    mkSection 3 "C" None (Some 1) 0 0 7;
    mkSection 4 "D" None None 1 0 7;
    mkSection 5 "E" None None 0 0 8 ].

Definition example_store : Store := mkStore example_sections [] [] [].

Definition well_formed (rows : list SectionRow) : Prop :=
  keys_unique rows ∧ parents_first rows ∧ same_owner rows.

(** The parent a new row of [uid] may be hung under: none, or a row of the
    table that belongs to [uid]. *)
Definition parent_ok (uid : nat) (parent_id : option nat) (rows : list SectionRow) : Prop :=
  match parent_id with
  | None     => True
  | Some pid => ∃ p, p ∈ rows ∧ sec_id p = pid ∧ sec_user_id p = uid
  end.

(** ** More of [outline/views.py]: reading and editing *)

(** What surrounds a view whose answer carries data of type [R]: as
    [handle], with [None] standing for the body of an error page. *)
Definition respond {R} (view : Req (R * nat)) (st : Store) : (option R * nat) * Store :=
  match view (mkDb st st 0) with
  | (db, Return (r, code)) => ((Some r, code), committed db)
  | (db, Raise NotFound)   => ((None, 404), committed db)
  | (db, Raise _)          => ((None, 500), committed db)
  end.

(** The ["outline"] object of an update: a field is [None] when its key is
    absent; a present ["summary"] may be null.  Titles are texts and
    positions natural numbers, as the columns hold them. *)
Record OutlinePatch := mkPatch {
  patch_title   : option string;
  patch_summary : option (option string);
  patch_order   : option nat
}.

(** [(request.get_json() or {}).get('outline', {})] when nothing is sent. *)
Definition empty_patch : OutlinePatch := mkPatch None None None.

(** [for field in ('title', 'summary', 'order'): if field in data:
    setattr(sec, field, data[field])] *)
Definition apply_patch (data : OutlinePatch) (sec : SectionRow) : SectionRow :=
  mkSection (sec_id sec)
            (default (sec_title sec) (patch_title data))
            (default (sec_summary sec) (patch_summary data))
            (sec_parent_id sec)
            (default (sec_order sec) (patch_order data))
            (sec_created_at sec)
            (sec_user_id sec).

(** The row update the session sends for the changed object: the row that
    carries its key takes the new field values. *)
Definition session_update (data : OutlinePatch) (sec : SectionRow) : Req unit :=
  update (set_sections
            (fmap (λ r, if decide (sec_id r = sec_id sec) then apply_patch data r else r))).

(** [Section.query.filter_by(parent_id=None, user_id=uid)
      .order_by(Section.order).all()] *)
Definition root_sections (uid : nat) (st : Store) : list SectionRow :=
  order_by_order
    (filter (λ r, sec_parent_id r = None ∧ sec_user_id r = uid) (sections st)).

Section OutlineViews.

(** [Section.to_dict] is declared in [outline/models.py], which the
    repository's sources do not include; it is a parameter here.  It may
    read the session, as it nests the subsections of a row. *)
Variable D : Type.
Variable to_dict : Store → SectionRow → D.

Inductive OutlineData :=
| AllSections (data : list D)
| OneSection (data : D).

(** [get_outline]: the body is [{'success': True, 'data': data}]. *)
Definition get_outline (uid : nat) (sec_id0 : option nat) : Req ((bool * OutlineData) * nat) :=
  match sec_id0 with
  | None =>
      roots <- query (root_sections uid) ;;
      data <- query (λ st, to_dict st <$> roots) ;;
      req_ret ((true, AllSections data), 200)
  | Some i =>
      sec <- first_or_404 (sections_by_id_and_user i uid) ;;
      data <- query (λ st, to_dict st sec) ;;
      req_ret ((true, OneSection data), 200)
  end.

(** [update_outline]: the body is
    [{'success': True, 'message': 'Updated', 'data': sec.to_dict()}]. *)
Definition update_outline (uid sec_id0 : nat) (payload : option OutlinePatch)
    : Req ((bool * string * D) * nat) :=
  sec <- first_or_404 (sections_by_id_and_user sec_id0 uid) ;;
  let data := default empty_patch payload in
  session_update data sec ;;;
  commit ;;;
  d <- query (λ st, to_dict st (apply_patch data sec)) ;;
  req_ret ((true, "Updated", d), 200).

End OutlineViews.

Arguments AllSections {D} data.
Arguments OneSection {D} data.

(** The rows [_recreate_sections] writes for a forest of descriptors, in
    the order it writes them: the row of a node, then the rows of its
    children, each child at position 0, then the later siblings.  A row
    carries the title and summary of its node, the key of its parent's row,
    its position and the owner; its key [i] and its creation time
    [created_at] are left open here. *)
Inductive rows_of_item (uid : nat) :
    option nat → nat → Item → list SectionRow → Prop :=
| rows_item parent_id idx t s subs i created_at below :
    rows_of_children uid i subs below →
    rows_of_item uid parent_id idx (mkItem (Some t) s subs)
                 (mkSection i t s parent_id idx created_at uid :: below)
with rows_of_children (uid : nat) :
    nat → list Item → list SectionRow → Prop :=
| rows_children_nil pid : rows_of_children uid pid [] []
| rows_children_cons pid c cs rows1 rows2 :
    rows_of_item uid (Some pid) 0 c rows1 →
    rows_of_children uid pid cs rows2 →
    rows_of_children uid pid (c :: cs) (rows1 ++ rows2).

Inductive rows_of_roots (uid : nat) :
    nat → list Item → list SectionRow → Prop :=
| rows_roots_nil idx : rows_of_roots uid idx [] []
| rows_roots_cons idx it items rows1 rows2 :
    rows_of_item uid None idx it rows1 →
    rows_of_roots uid (S idx) items rows2 →
    rows_of_roots uid idx (it :: items) (rows1 ++ rows2).

(** The session of [db] with the section rows [new] appended, the clock
    having been read once for each of them. *)
Definition appended (db : Db) (new : list SectionRow) : Db :=
  mkDb (committed db) (set_sections (λ l, l ++ new) (session db))
       (length new + ticks db).

Definition item_summary (it : Item) : option string :=
  match it with mkItem _ s _ => s end.

Scheme rows_of_item_mut := Minimality for rows_of_item Sort Prop
  with rows_of_children_mut := Minimality for rows_of_children Sort Prop.

(** The section table after an update of the rows with key [sid]. *)
Definition patched (data : OutlinePatch) (sid : nat) (rows : list SectionRow) : list SectionRow :=
  (λ r, if decide (sec_id r = sid) then apply_patch data r else r) <$> rows.

(** The requests that write to the outline, and the store each leaves. *)
Inductive OutlineRequest :=
| SaveOutline (clock : nat → Z) (uid : nat) (payload : option (list Item))
| UpdateOutline (uid sec_id0 : nat) (payload : option OutlinePatch)
| DeleteOutline (fuel uid sec_id0 : nat).

Definition outline_step (st : Store) (req : OutlineRequest) : Store :=
  match req with
  | SaveOutline clock uid payload => (handle (save_outline clock uid payload) st).2
  | UpdateOutline uid i payload =>
      (respond (update_outline unit (λ _ _, tt) uid i payload) st).2
  | DeleteOutline fuel uid i => (handle (delete_outline fuel uid i) st).2
  end.

(** ** More of [brain/views.py]: loading and the progress flag *)

(** [entry.completed = completed_flag] *)
Definition set_entry_completed (flag : bool) (e : BrainEntry) : BrainEntry :=
  mkBrainEntry (entry_id e) (entry_why e) (entry_what e) (entry_where e)
               (entry_when e) (entry_who e) (entry_messages e)
               (entry_overall_feedback e) flag (entry_user_id e).

Section BrainReads.

(** [.order_by(BrainEntry.updated_at.desc()).first()]: which of the rows a
    query selects is the most recently updated one.  [BrainEntry] and its
    [updated_at] column are declared in [brain/models.py], which the
    repository's sources do not include, and no view sets that column; the
    choice is a parameter here. *)
Variable latest : list BrainEntry → option BrainEntry.

Definition latest_entry (uid : nat) (st : Store) : option BrainEntry :=
  latest (filter (λ e, entry_user_id e = uid) (brain_entries st)).

(** [load_brainstorm_session]: the body is the entry, or [{}] for [None]. *)
Definition load_brainstorm_session (user_id : nat) : Req (option BrainEntry * nat) :=
  entry <- query (latest_entry user_id) ;;
  req_ret (entry, 200).

(** [complete_brainstorm_step]: the body is
    [{"status": "ok", "completed": c}] for [Some c] and the error text for
    [None]. *)
Definition complete_brainstorm_step (user_id : nat) (completed_flag : bool)
    : Req (option bool * nat) :=
  entry <- query (latest_entry user_id) ;;
  match entry with
  | None => req_ret (None, 404)
  | Some e =>
      update (set_brain_entries
                (fmap (λ x, if decide (entry_id x = entry_id e)
                            then set_entry_completed completed_flag x else x))) ;;;
      commit ;;;
      req_ret (Some completed_flag, 200)
  end.

End BrainReads.

(** ** [tag/models.py] and [tag/views.py] *)

(** A row of [tags]; [name] is declared unique over the whole table. *)
Record Tag := mkTag {
  tag_id      : nat;
  tag_name    : string;
  tag_user_id : nat
}.

(** A row of the association table [document_tags]. *)
Record DocumentTag := mkDocumentTag {
  dt_id          : nat;
  dt_document_id : nat;
  dt_tag_id      : nat
}.

(** [Reference] (imported by the views as [Document]) is declared in
    [reference/models.py], which the repository's sources do not include.
    The tag views use its key, its owner, its title, its completed flag and
    its [tags] relationship through [document_tags]; the row has these
    columns. *)
Record Document := mkDocument {
  doc_id        : nat;
  doc_user_id   : nat;
  doc_title     : string;
  doc_completed : bool
}.

#[global] Instance Tag_eq_dec : EqDecision Tag.
Proof. solve_decision. Defined.
#[global] Instance DocumentTag_eq_dec : EqDecision DocumentTag.
Proof. solve_decision. Defined.
#[global] Instance Document_eq_dec : EqDecision Document.
Proof. solve_decision. Defined.

Record TagStore := mkTagStore {
  tags          : list Tag;
  document_tags : list DocumentTag;
  documents     : list Document
}.

Inductive TagBody :=
| TagError (error : string)
| TagMsg (msg : string)
| TagInfo (id : nat) (name : string)
| TagList (items : list (nat * string))
| TagStats (items : list (string * nat))
| DocsWithTags (items : list (nat * string * bool * list (nat * string)))
| TagServerError.

Definition TagResponse : Type := TagBody * nat.

(** A value read with [data.get(key)] that is tested with [not]: absent
    and 0 count as missing. *)
Definition present (n : option nat) : bool :=
  match n with
  | Some (S _) => true
  | _ => false
  end.

(** [Tag.query.filter_by(name=name, user_id=user_id)] and
    [Tag.query.filter_by(id=tag_id, user_id=user_id)] *)
Definition tags_by_name_and_user (name : string) (uid : nat) (st : TagStore) : list Tag :=
  filter (λ t, tag_name t = name ∧ tag_user_id t = uid) (tags st).

Definition tags_by_id_and_user (i : option nat) (uid : nat) (st : TagStore) : list Tag :=
  filter (λ t, Some (tag_id t) = i ∧ tag_user_id t = uid) (tags st).

(** [Document.query.filter_by(id=doc_id, user_id=user_id)] *)
Definition documents_by_id_and_user (i : option nat) (uid : nat) (st : TagStore)
    : list Document :=
  filter (λ d, Some (doc_id d) = i ∧ doc_user_id d = uid) (documents st).

(** The insert of a new tag row, as the flush or commit sends it: it is
    refused when the name is taken, by whichever user ([unique=True]). *)
Definition insert_tag (name : string) (uid : nat) (st : TagStore) : option (Tag * TagStore) :=
  if bool_decide (name ∈ tag_name <$> tags st) then None
  else
    let t := mkTag (fresh_id (tag_id <$> tags st)) name uid in
    Some (t, mkTagStore (tags st ++ [t]) (document_tags st) (documents st)).

(** [tag in document.tags]: the association table links the two rows. *)
Definition assigned (d : Document) (t : Tag) (st : TagStore) : bool :=
  bool_decide (Exists (λ dt, dt_document_id dt = doc_id d ∧ dt_tag_id dt = tag_id t)
                      (document_tags st)).

(** [document.tags]: the tags linked to the document. *)
Definition document_tags_of (d : Document) (st : TagStore) : list Tag :=
  dt ← filter (λ dt, dt_document_id dt = doc_id d) (document_tags st);
  filter (λ t, tag_id t = dt_tag_id dt) (tags st).

(** [document.tags.append(tag)] *)
Definition link (d : Document) (t : Tag) (st : TagStore) : TagStore :=
  mkTagStore (tags st)
             (document_tags st
                ++ [mkDocumentTag (fresh_id (dt_id <$> document_tags st)) (doc_id d) (tag_id t)])
             (documents st).

(** [document.tags.remove(tag)] *)
Definition unlink (d : Document) (t : Tag) (st : TagStore) : TagStore :=
  mkTagStore (tags st)
             (filter (λ dt, ¬ (dt_document_id dt = doc_id d ∧ dt_tag_id dt = tag_id t))
                     (document_tags st))
             (documents st).

Section TagViews.

(** [str.strip] of the interpreter. *)
Variable strip : string → string.

Definition add_tag (user_id : nat) (name0 : option string) (st : TagStore)
    : TagResponse * TagStore :=
  let name := strip (default "" name0) in
  if bool_decide (name = "") then ((TagError "Tag name required", 400), st)
  else
    match first_row (tags_by_name_and_user name user_id st) with
    | Some tag => ((TagInfo (tag_id tag) (tag_name tag), 200), st)
    | None =>
        match insert_tag name user_id st with
        | Some (tag, st') => ((TagInfo (tag_id tag) (tag_name tag), 200), st')
        | None => ((TagServerError, 500), st)
        end
    end.

Definition list_tags (user_id : nat) (st : TagStore) : TagResponse * TagStore :=
  ((TagList ((λ t, (tag_id t, tag_name t)) <$> filter (λ t, tag_user_id t = user_id) (tags st)),
    200), st).

(** The rows of [Tag] joined with [DocumentTag] on the tag key, for the
    tags of one user. *)
Definition joined_tags (user_id : nat) (st : TagStore) : list (Tag * DocumentTag) :=
  t ← filter (λ t, tag_user_id t = user_id) (tags st);
  dt ← filter (λ dt, tag_id t = dt_tag_id dt) (document_tags st);
  [(t, dt)].

(** [tag_stats]: one item per tag name that occurs in the join, with the
    number of joined rows of that name. *)
Definition tag_stats (user_id : nat) (st : TagStore) : TagResponse * TagStore :=
  let rows := joined_tags user_id st in
  ((TagStats ((λ n, (n, length (filter (λ r, tag_name r.1 = n) rows)))
                <$> remove_dups ((λ r, tag_name r.1) <$> rows)),
    200), st).

Definition assign_tag (user_id : nat) (doc_id0 : option nat) (tag0 : option string)
    (st : TagStore) : TagResponse * TagStore :=
  let tag_name0 := strip (default "" tag0) in
  if negb (present doc_id0) || bool_decide (tag_name0 = "")
  then ((TagError "Missing document_id or tag", 400), st)
  else
    match first_row (documents_by_id_and_user doc_id0 user_id st) with
    | None => ((TagError "Document not found or no permission", 404), st)
    | Some document =>
        let found :=
          match first_row (tags_by_name_and_user tag_name0 user_id st) with
          | Some tag => Some (tag, st)
          | None => insert_tag tag_name0 user_id st
          end in
        match found with
        | None => ((TagServerError, 500), st)
        | Some (tag, st1) =>
            let st2 := if assigned document tag st1 then st1 else link document tag st1 in
            ((TagMsg ("Tag '" +:+ tag_name tag +:+ "' assigned to Document '"
                        +:+ doc_title document +:+ "'"), 200), st2)
        end
    end.

Definition get_all_docs_with_tags (user_id : nat) (st : TagStore) : TagResponse * TagStore :=
  ((DocsWithTags
      ((λ d, (doc_id d, doc_title d, doc_completed d,
              (λ t, (tag_id t, tag_name t)) <$> document_tags_of d st))
         <$> filter (λ d, doc_user_id d = user_id) (documents st)),
    200), st).

Definition remove_tag_from_document (user_id : nat) (doc_id0 tag_id0 : option nat)
    (st : TagStore) : TagResponse * TagStore :=
  match first_row (documents_by_id_and_user doc_id0 user_id st),
        first_row (tags_by_id_and_user tag_id0 user_id st) with
  | Some document, Some tag =>
      if assigned document tag st
      then ((TagMsg ("Tag '" +:+ tag_name tag +:+ "' removed from document '"
                       +:+ doc_title document +:+ "'"), 200),
            unlink document tag st)
      else ((TagError "Tag was not assigned to the document", 400), st)
  | _, _ => ((TagError "Unauthorized or not found", 404), st)
  end.

(** [mark_document_complete], for a payload whose ["completed"] is a
    boolean. *)
Definition mark_document_complete (user_id : nat) (doc_id0 : option nat)
    (completed : bool) (st : TagStore) : TagResponse * TagStore :=
  match first_row (documents_by_id_and_user doc_id0 user_id st) with
  | None => ((TagError "Document not found or no permission", 404), st)
  | Some document =>
      ((TagMsg ("Document marked as " +:+ (if completed then "completed" else "incomplete")),
        200),
       mkTagStore (tags st) (document_tags st)
                  ((λ d, if decide (doc_id d = doc_id document)
                         then mkDocument (doc_id d) (doc_user_id d) (doc_title d) completed
                         else d) <$> documents st))
  end.

Definition update_tag_name (user_id : nat) (tag_id0 : option nat)
    (new_name0 : option string) (st : TagStore) : TagResponse * TagStore :=
  let new_name := strip (default "" new_name0) in
  if negb (present tag_id0) || bool_decide (new_name = "")
  then ((TagError "Tag ID and new name required", 400), st)
  else
    match first_row (tags_by_id_and_user tag_id0 user_id st) with
    | None => ((TagError "Tag not found or no permission", 404), st)
    | Some tag =>
        if bool_decide (Exists (λ t, tag_id t ≠ tag_id tag ∧ tag_name t = new_name) (tags st))
        then ((TagServerError, 500), st)
        else
          ((TagMsg ("Tag renamed to '" +:+ new_name +:+ "'"), 200),
           mkTagStore ((λ t, if decide (tag_id t = tag_id tag)
                             then mkTag (tag_id t) new_name (tag_user_id t) else t)
                         <$> tags st)
                      (document_tags st) (documents st))
    end.

(** [delete_tag]: the loop unlinks the tag, and deleting the tag row drops
    whatever rows of the association table still carry its key. *)
Definition delete_tag (user_id : nat) (tag_id0 : option nat) (st : TagStore)
    : TagResponse * TagStore :=
  match first_row (tags_by_id_and_user tag_id0 user_id st) with
  | None => ((TagError "Tag not found or no permission", 404), st)
  | Some tag =>
      ((TagMsg ("Tag '" +:+ tag_name tag +:+ "' deleted"), 200),
       mkTagStore (filter (λ t, tag_id t ≠ tag_id tag) (tags st))
                  (filter (λ dt, dt_tag_id dt ≠ tag_id tag) (document_tags st))
                  (documents st))
  end.

End TagViews.

(** Invariants of the tag tables: tag keys and tag names are unique, a
    document carries a tag at most once, and an association links a tag and
    a document that exist and have the same owner. *)
Definition tag_wf (st : TagStore) : Prop :=
  NoDup (tag_id <$> tags st)
  ∧ NoDup (tag_name <$> tags st)
  ∧ NoDup ((λ dt, (dt_document_id dt, dt_tag_id dt)) <$> document_tags st)
  ∧ (∀ dt, dt ∈ document_tags st →
       ∃ t d, t ∈ tags st ∧ d ∈ documents st
              ∧ tag_id t = dt_tag_id dt ∧ doc_id d = dt_document_id dt
              ∧ tag_user_id t = doc_user_id d).

(** The requests that write to the tag tables, each with its caller. *)
Inductive TagRequest :=
| AddTag (uid : nat) (name : option string)
| AssignTag (uid : nat) (document_id : option nat) (tag : option string)
| RemoveTag (uid : nat) (document_id tag_id0 : option nat)
| MarkComplete (uid : nat) (document_id : option nat) (completed : bool)
| UpdateTagName (uid : nat) (tag_id0 : option nat) (new_name : option string)
| DeleteTag (uid : nat) (tag_id0 : option nat).

Definition request_user (req : TagRequest) : nat :=
  match req with
  | AddTag uid _ | AssignTag uid _ _ | RemoveTag uid _ _
  | MarkComplete uid _ _ | UpdateTagName uid _ _ | DeleteTag uid _ => uid
  end.

Definition tag_view (strip : string → string) (req : TagRequest) (st : TagStore)
    : TagResponse * TagStore :=
  match req with
  | AddTag uid name => add_tag strip uid name st
  | AssignTag uid d t => assign_tag strip uid d t st
  | RemoveTag uid d t => remove_tag_from_document uid d t st
  | MarkComplete uid d c => mark_document_complete uid d c st
  | UpdateTagName uid t n => update_tag_name strip uid t n st
  | DeleteTag uid t => delete_tag uid t st
  end.

Definition tag_step (strip : string → string) (st : TagStore) (req : TagRequest) : TagStore :=
  (tag_view strip req st).2.

(** The joined rows of one tag. *)
Definition tag_rows (dts : list DocumentTag) (t : Tag) : list (Tag * DocumentTag) :=
  dt ← filter (λ dt, tag_id t = dt_tag_id dt) dts; [(t, dt)].

(** * Properties *)

(** ** Running requests *)

Lemma req_bind_return {A B} (m : Req A) (k : A → Req B) db db' a :
  m db = (db', Return a) → req_bind m k db = k a db'.
Proof. intros H. unfold req_bind. by rewrite H. Qed.

Lemma req_bind_raise {A B} (m : Req A) (k : A → Req B) db db' e :
  m db = (db', Raise e) → req_bind m k db = (db', Raise e).
Proof. intros H. unfold req_bind. by rewrite H. Qed.

Lemma req_bind_ext {A B} (m : Req A) (k1 k2 : A → Req B) db :
  (∀ a db', k1 a db' = k2 a db') → req_bind m k1 db = req_bind m k2 db.
Proof. intros H. unfold req_bind. destruct (m db) as [db' [a|e]]; [apply H | done]. Qed.

(** ** The dashboard *)

Section Dashboard.

Implicit Types (ts : list Task) (deadline : option Z) (now : Z).

Lemma forallb_completed ts : forallb task_completed ts = true ↔ all_completed ts.
Proof.
  unfold all_completed. rewrite forallb_forall, Forall_forall.
  split; intros H t Ht; apply H; by apply list_elem_of_In.
Qed.

Lemma completed_test ts :
  negb (bool_decide (ts = [])) && forallb task_completed ts = true
  ↔ ts ≠ [] ∧ all_completed ts.
Proof.
  rewrite andb_true_iff, negb_true_iff, bool_decide_eq_false, forallb_completed.
  done.
Qed.

Lemma phase_status_completed ts deadline now :
  phase_status ts deadline now = "Completed" ↔ ts ≠ [] ∧ all_completed ts.
Proof.
  rewrite <- completed_test. unfold phase_status.
  destruct (negb (bool_decide (ts = [])) && forallb task_completed ts).
  - done.
  - split; [|done].
    destruct deadline as [d|]; [|done].
    destruct (end_of_day d <? now)%Z; [done|].
    by destruct (end_of_day d - now <=? warning_threshold)%Z.
Qed.

Lemma phase_status_not_completed ts deadline now :
  ¬ (ts ≠ [] ∧ all_completed ts) →
  phase_status ts deadline now =
    match deadline with
    | Some d =>
        if (end_of_day d <? now)%Z then "Not Completed (Overdue)"
        else if (end_of_day d - now <=? warning_threshold)%Z
             then "Not Completed (Deadline Approaching)"
             else "NotCompleted"
    | None => "NotCompleted"
    end.
Proof.
  rewrite <- completed_test. unfold phase_status.
  by destruct (negb (bool_decide (ts = [])) && forallb task_completed ts).
Qed.

(** Every phase stored in the map sits under its own title. *)
Lemma user_phase_map_title (l : list Phase) (t : string) (p : Phase) :
  user_phase_map l !! t = Some p → phase_title p = t.
Proof.
  unfold user_phase_map.
  cut (∀ m : gmap string Phase,
         (∀ t p, m !! t = Some p → phase_title p = t) →
         ∀ t p, foldl (λ m p, <[phase_title p := p]> m) m l !! t = Some p →
                phase_title p = t).
  { intros H. apply H. intros t' p'. by rewrite lookup_empty. }
  induction l as [|q l IH]; intros m Hm t' p'; simpl; [by apply Hm|].
  apply IH. intros t1 p1. rewrite lookup_insert.
  case_decide; [congruence | by apply Hm].
Qed.

(** The phases in the map are phases of the caller. *)
Lemma user_phase_map_elem (l : list Phase) (t : string) (p : Phase) :
  user_phase_map l !! t = Some p → p ∈ l.
Proof.
  unfold user_phase_map.
  cut (∀ m : gmap string Phase,
         ∀ t p, foldl (λ m p, <[phase_title p := p]> m) m l !! t = Some p →
                p ∈ l ∨ m !! t = Some p).
  { intros H Hl. destruct (H ∅ t p Hl) as [|Hm]; [done|].
    by rewrite lookup_empty in Hm. }
  induction l as [|q l IH]; intros m t' p'; simpl; [by right|].
  intros H. destruct (IH _ _ _ H) as [Hin|Hm]; [left; by right|].
  rewrite lookup_insert in Hm. case_decide.
  - left. injection Hm as ->. by left.
  - by right.
Qed.

(** The dashboard reads phases of the caller only. *)
Lemma dashboard_phase_owner (uid : nat) (st : Store) (t : string) (p : Phase) :
  user_phase_map (filter (λ p, phase_user_id p = uid) (phases st)) !! t = Some p →
  p ∈ phases st ∧ phase_user_id p = uid.
Proof.
  intros H. apply user_phase_map_elem, list_elem_of_filter in H. tauto.
Qed.

Lemma status_record_id st m now index title :
  st_id (status_record st m now index title) = index + 1.
Proof. unfold status_record. by destruct (m !! title). Qed.

Lemma status_record_title st l now index title :
  st_title (status_record st (user_phase_map l) now index title) = title.
Proof.
  unfold status_record.
  destruct (user_phase_map l !! title) as [p|] eqn:Hp; [|done].
  simpl. by apply user_phase_map_title in Hp.
Qed.

End Dashboard.

(** C4.  In the dashboard's status derivation the status of a record is
    "Completed" exactly when the caller has a phase under that title with
    at least one task and all of its tasks completed; a phase without tasks
    is never "Completed". *)
Theorem completed_iff_nonempty_and_all_done :
  ∀ (st : Store) (m : gmap string Phase) (now : Z) (index : nat) (title : string),
    (st_status (status_record st m now index title) = "Completed"
     ↔ ∃ p, m !! title = Some p
            ∧ phase_tasks p st ≠ []
            ∧ all_completed (phase_tasks p st))
    ∧ (∀ deadline, phase_status [] deadline now ≠ "Completed").
Proof.
  intros st m now index title. split.
  - unfold status_record. destruct (m !! title) as [p|]; simpl.
    + rewrite phase_status_completed. split.
      * intros [H1 H2]. by exists p.
      * by intros (p' & [= <-] & H1 & H2).
    + split; [done|]. by intros (p' & [=] & _).
  - intros deadline H. apply phase_status_completed in H. by destruct H.
Qed.

(** C5.  For a phase that is not fully completed the status follows from
    the deadline alone: none gives "NotCompleted"; an end of day before now
    gives overdue; otherwise an end of day at most seven days ahead gives
    deadline approaching; anything later gives "NotCompleted". *)
Theorem status_by_deadline :
  ∀ (st : Store) (m : gmap string Phase) (now : Z) (index : nat)
    (title : string) (p : Phase),
    m !! title = Some p →
    ¬ (phase_tasks p st ≠ [] ∧ all_completed (phase_tasks p st)) →
    let status := st_status (status_record st m now index title) in
    (phase_deadline p = None → status = "NotCompleted")
    ∧ (∀ d, phase_deadline p = Some d →
         ((end_of_day d < now)%Z → status = "Not Completed (Overdue)")
         ∧ ((now ≤ end_of_day d)%Z →
            (end_of_day d - now ≤ 7 * microseconds_per_day)%Z →
            status = "Not Completed (Deadline Approaching)")
         ∧ ((7 * microseconds_per_day < end_of_day d - now)%Z →
            status = "NotCompleted")).
Proof.
  intros st m now index title p Hp Hnot. unfold status_record. rewrite Hp. simpl.
  rewrite (phase_status_not_completed _ _ _ Hnot).
  split.
  - by intros ->.
  - intros d ->. fold warning_threshold. repeat split.
    + intros H. apply Z.ltb_lt in H. by rewrite H.
    + intros H1 H2. apply Z.ltb_ge in H1. apply Z.leb_le in H2. by rewrite H1, H2.
    + intros H.
      assert (0 < warning_threshold)%Z by (by vm_compute).
      assert ((end_of_day d <? now)%Z = false) as -> by (apply Z.ltb_ge; lia).
      assert ((end_of_day d - now <=? warning_threshold)%Z = false) as ->
        by (apply Z.leb_gt; lia).
      done.
Qed.

Lemma status_by_deadline_witness :
  st_status
    (status_record
       (mkStore [] [] [mkTask 1 "Read papers" false (Some 4) 1] [])
       {[ "Literature Review" := mkPhase 4 "Literature Review" None None (Some 10%Z) 1 ]}
       (9 * microseconds_per_day) 1 "Literature Review")
  = "Not Completed (Deadline Approaching)".
Proof.
  refine (proj1 (proj2 (proj2 (status_by_deadline
            (mkStore [] [] [mkTask 1 "Read papers" false (Some 4) 1] [])
            {[ "Literature Review" := mkPhase 4 "Literature Review" None None (Some 10%Z) 1 ]}
            (9 * microseconds_per_day) 1 "Literature Review"
            (mkPhase 4 "Literature Review" None None (Some 10%Z) 1) _ _) 10%Z eq_refl)) _ _).
  - reflexivity.
  - intros [_ H]. vm_compute in H. inversion H as [|? ? Hc _]. discriminate Hc.
  - vm_compute. discriminate.
  - vm_compute. discriminate.
Defined.

(** The three dated examples: at any moment of day [today], a deadline
    three days ahead is approaching, yesterday's is overdue, and one thirty
    days ahead leaves the status at "NotCompleted". *)
Lemma phase_status_dated_examples (t : Task) (today tod : Z) :
  task_completed t = false →
  (0 ≤ tod < microseconds_per_day)%Z →
  let now := (today * microseconds_per_day + tod)%Z in
  phase_status [t] (Some (today + 3)%Z) now = "Not Completed (Deadline Approaching)"
  ∧ phase_status [t] (Some (today - 1)%Z) now = "Not Completed (Overdue)"
  ∧ phase_status [t] (Some (today + 30)%Z) now = "NotCompleted".
Proof.
  intros Ht Htod now.
  assert (Hnot : ¬ ([t] ≠ [] ∧ all_completed [t])).
  { intros [_ H]. inversion H as [|? ? Hc _]. congruence. }
  rewrite !(phase_status_not_completed _ _ _ Hnot).
  unfold end_of_day, warning_threshold, microseconds_per_day in *. subst now.
  repeat split.
  - replace (_ <? _)%Z with false by (symmetry; apply Z.ltb_ge; lia).
    by replace (_ <=? _)%Z with true by (symmetry; apply Z.leb_le; lia).
  - by replace (_ <? _)%Z with true by (symmetry; apply Z.ltb_lt; lia).
  - replace (_ <? _)%Z with false by (symmetry; apply Z.ltb_ge; lia).
    by replace (_ <=? _)%Z with false by (symmetry; apply Z.leb_gt; lia).
Qed.

(** C6.  Whatever the store holds, the dashboard read answers with five
    records, titled by the five canonical titles in their fixed order and
    numbered 1 to 5 by position; the read changes nothing. *)
Theorem dashboard_five_records_in_fixed_order :
  ∀ (uid : nat) (now : Z) (st : Store),
    ∃ data,
      handle (fetch_planning uid now) st = ((PhaseData 0 data, 200), st)
      ∧ length data = 5
      ∧ st_title <$> data = desired_order
      ∧ st_id <$> data = [1; 2; 3; 4; 5].
Proof.
  intros uid now st. exists (dashboard_data uid now st).
  split; [reflexivity|].
  unfold dashboard_data, desired_order. simpl.
  rewrite !status_record_title, !status_record_id. done.
Qed.

(** ** Saving an outline *)

(** C8.  A save whose outline is empty or absent is answered with the
    "Cannot save empty outline!" error and leaves the store as it was. *)
Theorem save_empty_outline_rejected :
  ∀ (clock : nat → Z) (uid : nat) (st : Store),
    handle (save_outline clock uid (Some [])) st
      = ((SuccessMessage false "Cannot save empty outline!", 400), st)
    ∧ handle (save_outline clock uid None) st
      = ((SuccessMessage false "Cannot save empty outline!", 400), st).
Proof. intros clock uid st. split; reflexivity. Qed.

Section Recreate.

Variables (clock : nat → Z) (user_id : nat).

Lemma Item_nested_ind (P : Item → Prop) :
  (∀ t s subs, Forall P subs → P (mkItem t s subs)) → ∀ it, P it.
Proof.
  intros H. fix IH 1. intros [t s subs]. apply H.
  induction subs as [|c subs IHsubs]; constructor; [apply IH | apply IHsubs].
Qed.

(** The loop body in the shape of the source: create the row, flush, then
    call [_recreate_sections] on each child wrapped in a one-element list. *)
Lemma _recreate_sections_body parent_id idx title summary subs db :
  recreate_turn clock user_id parent_id idx (mkItem title summary subs) db
  = (t <- getitem_title (mkItem title summary subs) ;;
     created_at <- utcnow clock ;;
     sid <- add_flush_section
              (λ i, mkSection i t summary parent_id idx created_at user_id) ;;
     for_each subs (λ child, _recreate_sections clock [child] user_id (Some sid))) db.
Proof.
  assert (∀ sid cs,
    (fix children (cs : list Item) : Req unit :=
       match cs with
       | [] => req_ret tt
       | child :: cs' =>
           (recreate_turn clock user_id (Some sid) 0 child ;;; req_ret tt) ;;; children cs'
       end) cs
    = for_each cs (λ child, _recreate_sections clock [child] user_id (Some sid))) as Hloop.
  { intros sid cs. induction cs as [|c cs IHcs]; [done|]. simpl. by rewrite IHcs. }
  cbn [recreate_turn].
  apply req_bind_ext; intros t db1. apply req_bind_ext; intros created_at db2.
  apply req_bind_ext; intros sid db3.
  by rewrite Hloop.
Qed.

Lemma appends_refl db : appends db db [].
Proof.
  split; [done|]. destruct db as [c [s p t b] k]. unfold set_sections. simpl.
  by rewrite app_nil_r.
Qed.

Lemma appends_trans db db1 db2 n1 n2 :
  appends db db1 n1 → appends db1 db2 n2 → appends db db2 (n1 ++ n2).
Proof.
  intros [Hc1 Hs1] [Hc2 Hs2]. split; [congruence|].
  rewrite Hs2, Hs1. unfold set_sections. simpl. by rewrite app_assoc.
Qed.

Lemma recreate_singleton parent_id child db :
  _recreate_sections clock [child] user_id parent_id db
  = (recreate_turn clock user_id parent_id 0 child ;;; req_ret tt) db.
Proof. reflexivity. Qed.

(** What one turn does: it returns exactly when every node of the
    descriptor has a title and raises the key error otherwise; either way
    it only appends rows of the caller to the session. *)
Lemma recreate_turn_spec item :
  ∀ parent_id idx db, ∃ db' new,
    recreate_turn clock user_id parent_id idx item db
      = (db', if titled item then Return tt else key_error)
    ∧ appends db db' new
    ∧ Forall (λ r, sec_user_id r = user_id) new
    ∧ (titled item = true → turn_rows parent_id idx new).
Proof.
  induction item as [t s subs IH] using Item_nested_ind.
  intros parent_id idx db. rewrite _recreate_sections_body.
  destruct t as [t|].
  2: { exists db, []. repeat split; [apply appends_refl | constructor | discriminate]. }
  unfold getitem_title. cbn [item_title titled].
  erewrite req_bind_return by reflexivity.
  erewrite req_bind_return by reflexivity.
  erewrite req_bind_return by reflexivity.
  cbn [session committed ticks].
  set (row := mkSection (fresh_id (sec_id <$> sections (session db))) t s
                        parent_id idx (clock (ticks db)) user_id).
  set (db1 := mkDb (committed db) (set_sections (λ l, l ++ [row]) (session db))
                   (S (ticks db))).
  assert (appends db db1 [row]) as Hrow by done.
  assert (bool_decide (is_Some (Some t)) = true) as -> by done.
  cbn [andb].
  assert (∀ sid dbc, ∃ db' new,
            for_each subs (λ child, _recreate_sections clock [child] user_id (Some sid)) dbc
              = (db', if forallb titled subs then Return tt else key_error)
            ∧ appends dbc db' new
            ∧ Forall (λ r, sec_user_id r = user_id) new
            ∧ (forallb titled subs = true →
               Forall (λ r, sec_parent_id r ≠ None ∧ sec_order r = 0) new)) as Hloop.
  { intros sid. clear Hrow. induction IH as [|c cs Hc _ IHcs]; intros dbc.
    - exists dbc, []. repeat split; [apply appends_refl | constructor | constructor].
    - destruct (Hc (Some sid) 0 dbc) as (db2 & n1 & Hrun & Happ1 & Hu1 & Hrows1).
      cbn [for_each forallb].
      destruct (titled c) eqn:Htc.
      + destruct (IHcs db2) as (db3 & n2 & Hrun2 & Happ2 & Hu2 & Hrows2).
        exists db3, (n1 ++ n2).
        split.
        { erewrite req_bind_return; [exact Hrun2|].
          rewrite recreate_singleton. by erewrite req_bind_return by exact Hrun. }
        split; [by eapply appends_trans|].
        split; [by apply Forall_app|].
        cbn [andb]. intros Hcs. apply Forall_app. split; [|by apply Hrows2].
        destruct (Hrows1 eq_refl) as (first & rest & -> & Hp & Ho & Hrest).
        constructor; [|done]. split; [by rewrite Hp | done].
      + exists db2, n1.
        split.
        { erewrite req_bind_raise; [reflexivity|].
          rewrite recreate_singleton. by erewrite req_bind_raise by exact Hrun. }
        split; [done|]. split; [done|]. discriminate. }
  destruct (Hloop (fresh_id (sec_id <$> sections (session db))) db1)
    as (db2 & n & Hrun & Happ & Hu & Hrows).
  exists db2, ([row] ++ n).
  split; [exact Hrun|].
  split; [by eapply appends_trans|].
  split; [by constructor|].
  intros Ht. exists row, n. repeat split. by apply Hrows.
Qed.

(** The loop over the roots. *)
Lemma recreate_roots_spec items :
  ∀ start db, ∃ db' new,
    for_enumerate start items (recreate_turn clock user_id None) db
      = (db', if forallb titled items then Return tt else key_error)
    ∧ appends db db' new
    ∧ Forall (λ r, sec_user_id r = user_id) new
    ∧ (forallb titled items = true →
       Forall (λ r, sec_parent_id r ≠ None → sec_order r = 0) new
       ∧ sec_order <$> filter (λ r, sec_parent_id r = None) new
         = seq start (length items)).
Proof.
  induction items as [|it items IH]; intros start db.
  - exists db, []. repeat split; [apply appends_refl | constructor | constructor].
  - destruct (recreate_turn_spec it None start db) as (db1 & n1 & Hrun & Happ1 & Hu1 & Hrows1).
    cbn [for_enumerate forallb].
    destruct (titled it) eqn:Hti.
    + destruct (IH (S start) db1) as (db2 & n2 & Hrun2 & Happ2 & Hu2 & Hrows2).
      exists db2, (n1 ++ n2).
      split; [by erewrite req_bind_return by exact Hrun|].
      split; [by eapply appends_trans|].
      split; [by apply Forall_app|].
      cbn [andb]. intros Hits. destruct (Hrows2 Hits) as [Hz2 Hroots2].
      destruct (Hrows1 eq_refl) as (first & rest & -> & Hp & Ho & Hrest).
      split.
      * apply Forall_app. split; [|done].
        constructor; [by rewrite Hp|].
        eapply Forall_impl; [exact Hrest|]. by intros r [_ ->].
      * rewrite filter_app, fmap_app, Hroots2.
        rewrite filter_cons_True by done.
        assert (filter (λ r, sec_parent_id r = None) rest = []) as ->.
        { clear -Hrest. induction Hrest as [|r rest [Hr _] _ IHr]; [done|].
          by rewrite filter_cons_False. }
        simpl. by rewrite Ho.
    + exists db1, n1.
      split; [by erewrite req_bind_raise by exact Hrun|].
      split; [done|]. split; [done|]. discriminate.
Qed.

End Recreate.

(** A save of a non-empty outline, start to end.  The caller's rows are
    deleted and that deletion is committed; then the tree is recreated and,
    if every node has a title, committed as well.  If a title is missing the
    request fails and the rows flushed so far are discarded with the
    session. *)
Lemma save_outline_run clock uid st outline :
  outline ≠ [] →
  let others := filter (λ r, sec_user_id r ≠ uid) (sections st) in
  ∃ new,
    Forall (λ r, sec_user_id r = uid) new
    ∧ handle (save_outline clock uid (Some outline)) st
      = (if forallb titled outline
         then ((SuccessMessage true "Outline saved", 201),
               set_sections (λ _, others ++ new) st)
         else ((ErrorPage, 500), set_sections (λ _, others) st))
    ∧ (forallb titled outline = true →
       Forall (λ r, sec_parent_id r ≠ None → sec_order r = 0) new
       ∧ sec_order <$> filter (λ r, sec_parent_id r = None) new
         = seq 0 (length outline)).
Proof.
  intros Hne others.
  set (st1 := set_sections (filter (λ r, sec_user_id r ≠ uid)) st).
  destruct (recreate_roots_spec clock uid outline 0 (mkDb st1 st1 0))
    as (db2 & new & Hrun & [Hc Hs] & Hu & Hrows).
  exists new. split; [done|]. split; [|done].
  unfold handle, save_outline. cbn [default].
  rewrite bool_decide_eq_false_2 by done.
  erewrite req_bind_return by reflexivity.
  erewrite req_bind_return by reflexivity.
  cbn [session committed]. fold st1. unfold _recreate_sections.
  destruct (forallb titled outline).
  - erewrite req_bind_return by exact Hrun.
    erewrite req_bind_return by reflexivity.
    unfold req_ret. cbn [committed session]. by rewrite Hs.
  - erewrite req_bind_raise by exact Hrun. by rewrite Hc.
Qed.

(** Stored positions after a successful save: the roots are numbered by
    their place in the payload, and every row below a root has position 0. *)
Lemma save_outline_stored_orders clock uid st outline :
  outline ≠ [] →
  forallb titled outline = true →
  ∃ new,
    sections (handle (save_outline clock uid (Some outline)) st).2
      = filter (λ r, sec_user_id r ≠ uid) (sections st) ++ new
    ∧ Forall (λ r, sec_parent_id r ≠ None → sec_order r = 0) new
    ∧ sec_order <$> filter (λ r, sec_parent_id r = None) new
      = seq 0 (length outline).
Proof.
  intros Hne Ht.
  destruct (save_outline_run clock uid st outline Hne) as (new & _ & Hrun & Hrows).
  rewrite Ht in Hrun. exists new. rewrite Hrun. split; [done|]. by apply Hrows.
Qed.

(** C2 at a failing input: one root with two children.  The second child
    is stored with position 0, where its place among its siblings is 1. *)
Theorem second_child_stored_with_order_zero :
  let outline := [mkItem (Some "A") None
                    [mkItem (Some "B") None []; mkItem (Some "C") None []]] in
  let st' := (handle (save_outline (λ _, 0%Z) 7 (Some outline)) (mkStore [] [] [] [])).2 in
  sec_title <$> sections st' = ["A"; "B"; "C"]
  ∧ sec_order <$> sections st' = [0; 0; 0]
  ∧ sibling_positions 0 outline = [0; 0; 1].
Proof. repeat split. Qed.

(** ** The brainstorm hook *)

Section Brainstorm.

Implicit Types (st : Store) (p : Phase) (data : BrainPayload).

Lemma marker_test_false (ts : list Task) :
  existsb (λ t, String.eqb (task_description t) "Brainstorm Complete") ts = false
  ↔ filter (λ t, task_description t = "Brainstorm Complete") ts = [].
Proof.
  induction ts as [|t ts IH]; [done|]. simpl.
  destruct (String.eqb_spec (task_description t) "Brainstorm Complete") as [Heq|Hne].
  - rewrite filter_cons_True by done. done.
  - rewrite filter_cons_False by done. done.
Qed.

Lemma brainstorm_hook_run uid db :
  brainstorm_hook uid db
  = (mkDb (committed db) (set_tasks (λ _, hook_tasks uid (session db)) (session db))
          (ticks db),
     Return tt).
Proof.
  unfold brainstorm_hook, hook_tasks.
  erewrite req_bind_return by reflexivity.
  destruct db as [c st k]. cbn [session committed ticks].
  destruct (first_row (phases_by_title "Define Topic & Question" st)) as [p|].
  2: { by destruct st. }
  erewrite req_bind_return by reflexivity.
  cbn [session]. unfold brainstorm_tasks.
  destruct (existsb _ (phase_tasks p st)) eqn:Hex.
  - destruct (filter _ (phase_tasks p st)) eqn:Hf.
    + apply marker_test_false in Hf. congruence.
    + by destruct st.
  - apply marker_test_false in Hex. rewrite Hex. reflexivity.
Qed.

Lemma save_brainstorm_session_run uid data st :
  ∃ entry,
    handle (save_brainstorm_session uid data) st
    = ((EntryId (entry_id entry), 201),
       mkStore (sections st) (phases st)
               (if all_five data then hook_tasks uid st else tasks st)
               (brain_entries st ++ [entry]))
    ∧ entry_user_id entry = uid.
Proof.
  exists (mkBrainEntry (fresh_id (entry_id <$> brain_entries st))
            (fiveW_why data) (fiveW_what data) (fiveW_where data)
            (fiveW_when data) (fiveW_who data) (bp_messages data)
            (bp_overall data) (bp_completed data) uid).
  split; [|reflexivity].
  unfold handle, save_brainstorm_session.
  erewrite req_bind_return by reflexivity.
  destruct (all_five data); [|reflexivity].
  erewrite req_bind_return by apply brainstorm_hook_run.
  reflexivity.
Qed.

Lemma after_save_tasks st uid data :
  tasks (after_save st (uid, data))
  = if all_five data then hook_tasks uid st else tasks st.
Proof.
  unfold after_save. cbn [fst snd].
  destruct (save_brainstorm_session_run uid data st) as (e & -> & _). done.
Qed.

Lemma after_save_phases st r : phases (after_save st r) = phases st.
Proof.
  unfold after_save.
  destruct (save_brainstorm_session_run r.1 r.2 st) as (e & -> & _). done.
Qed.

Lemma after_save_sections st r : sections (after_save st r) = sections st.
Proof.
  unfold after_save.
  destruct (save_brainstorm_session_run r.1 r.2 st) as (e & -> & _). done.
Qed.

Lemma target_unchanged st st' :
  phases st' = phases st →
  first_row (phases_by_title "Define Topic & Question" st')
  = first_row (phases_by_title "Define Topic & Question" st).
Proof. unfold phases_by_title. by intros ->. Qed.

Lemma brainstorm_tasks_app p st st' (t : Task) :
  tasks st' = tasks st ++ [t] →
  brainstorm_tasks p st'
  = brainstorm_tasks p st
    ++ (if decide (task_phase_id t = Some (phase_id p)
                   ∧ task_description t = "Brainstorm Complete")
        then [t] else []).
Proof.
  intros Ht. unfold brainstorm_tasks, phase_tasks. rewrite Ht, !filter_app.
  f_equal. case_decide as Hd.
  - destruct Hd. rewrite filter_cons_True by done. simpl.
    by rewrite filter_cons_True.
  - destruct (decide (task_phase_id t = Some (phase_id p))).
    + rewrite filter_cons_True by done. simpl.
      rewrite filter_cons_False; [done|]. naive_solver.
    + by rewrite filter_cons_False.
Qed.

(** One run of the hook with a target phase: the marker task is there
    afterwards, once if it was missing before. *)
Lemma hook_step st st' uid p :
  first_row (phases_by_title "Define Topic & Question" st) = Some p →
  tasks st' = hook_tasks uid st →
  (brainstorm_tasks p st = [] ∧
     ∃ t, tasks st' = tasks st ++ [t]
          ∧ brainstorm_tasks p st' = [t]
          ∧ task_description t = "Brainstorm Complete"
          ∧ task_completed t = true
          ∧ task_phase_id t = Some (phase_id p)
          ∧ task_user_id t = uid)
  ∨ (brainstorm_tasks p st ≠ [] ∧ tasks st' = tasks st).
Proof.
  intros Hp Ht. unfold hook_tasks in Ht. rewrite Hp in Ht.
  destruct (brainstorm_tasks p st) as [|t0 ts0] eqn:Hb.
  - left. split; [done|]. eexists. split; [exact Ht|].
    rewrite (brainstorm_tasks_app p st st' _ Ht), Hb.
    rewrite decide_True by done. done.
  - right. done.
Qed.

End Brainstorm.

(** C3 at a failing input.  User 1 owns the "Define Topic & Question"
    phase; user 2 saves a brainstorm with all five fields.  The phase lookup
    of the hook carries no owner filter, so it finds user 1's phase and the
    task of user 2 is appended to it. *)
Theorem brainstorm_hook_writes_into_foreign_phase :
  let p1 := mkPhase 1 "Define Topic & Question" None None None 1 in
  let st := mkStore [] [p1] [] [] in
  let data := mkBrainPayload (Some "why") (Some "what") (Some "where")
                             (Some "when") (Some "who") "[]" "" false in
  let st' := after_save st (2, data) in
  phase_user_id p1 = 1
  ∧ filter (λ p, phase_user_id p = 2) (phases st) = []
  ∧ phase_tasks p1 st = []
  ∧ phase_tasks p1 st' = [mkTask 1 "Brainstorm Complete" true (Some 1) 2].
Proof. repeat split. Qed.

(** C9 as stated fails: an owner without any phase saves a brainstorm with
    all five fields, and no phase exists afterwards. *)
Lemma brainstorm_hook_creates_no_phase :
  ¬ hook_creates_phase_at 1
      (mkBrainPayload (Some "why") (Some "what") (Some "where")
                      (Some "when") (Some "who") "[]" "" false)
      (mkStore [] [] [] []).
Proof.
  intros H. destruct (H eq_refl eq_refl) as (p & t & Hp & _).
  vm_compute in Hp. by apply elem_of_nil in Hp.
Qed.

(** C9, as the code has it.  A brainstorm save with all five fields never
    creates a phase.  Without a "Define Topic & Question" phase in the store
    no task is appended; when the phase the lookup finds is the caller's and
    has no completion task yet, exactly that task is appended to it. *)
Theorem brainstorm_hook_appends_to_existing_phase_only :
  ∀ (uid : nat) (data : BrainPayload) (st : Store),
    all_five data = true →
    let st' := after_save st (uid, data) in
    phases st' = phases st
    ∧ (phases_by_title "Define Topic & Question" st = [] → tasks st' = tasks st)
    ∧ (∀ p, first_row (phases_by_title "Define Topic & Question" st) = Some p →
            phase_user_id p = uid →
            brainstorm_tasks p st = [] →
            ∃ t, tasks st' = tasks st ++ [t]
                 ∧ phase_tasks p st' = phase_tasks p st ++ [t]
                 ∧ task_description t = "Brainstorm Complete"
                 ∧ task_completed t = true
                 ∧ task_user_id t = uid).
Proof.
  intros uid data st Hall st'.
  split; [apply after_save_phases|].
  assert (tasks st' = hook_tasks uid st) as Ht.
  { unfold st'. by rewrite after_save_tasks, Hall. }
  split.
  - intros Hnone. rewrite Ht. unfold hook_tasks. by rewrite Hnone.
  - intros p Hp _ Hb.
    destruct (hook_step st st' uid p Hp Ht)
      as [(_ & t & Htasks & _ & Hd & Hc & Hph & Hu) | [Hne _]]; [|done].
    exists t. split; [done|]. split; [|done].
    unfold phase_tasks. rewrite Htasks, filter_app.
    by rewrite (filter_cons_True _ t []).
Qed.

Lemma brainstorm_hook_appends_to_existing_phase_only_witness :
  tasks (after_save (mkStore [] [] [mkTask 1 "Old" false None 3] [])
           (3, mkBrainPayload (Some "why") (Some "what") (Some "where")
                              (Some "when") (Some "who") "[]" "" false))
  = [mkTask 1 "Old" false None 3].
Proof.
  refine (proj1 (proj2 (brainstorm_hook_appends_to_existing_phase_only 3
            (mkBrainPayload (Some "why") (Some "what") (Some "where")
                            (Some "when") (Some "who") "[]" "" false)
            (mkStore [] [] [mkTask 1 "Old" false None 3] []) _)) _).
  - reflexivity.
  - reflexivity.
Defined.

Section BrainstormRepeated.

Implicit Types (st : Store) (p : Phase) (r : nat * BrainPayload)
               (reqs : list (nat * BrainPayload)).

Lemma brainstorm_tasks_ext p st st' :
  tasks st' = tasks st → brainstorm_tasks p st' = brainstorm_tasks p st.
Proof. unfold brainstorm_tasks, phase_tasks. by intros ->. Qed.

Lemma after_save_target st r :
  first_row (phases_by_title "Define Topic & Question" (after_save st r))
  = first_row (phases_by_title "Define Topic & Question" st).
Proof. apply target_unchanged, after_save_phases. Qed.

Lemma after_save_hook st r :
  all_five r.2 = true → tasks (after_save st r) = hook_tasks r.1 st.
Proof. destruct r as [uid data]. cbn [fst snd]. intros H. by rewrite after_save_tasks, H. Qed.

(** With the marker in place a save adds nothing. *)
Lemma after_save_marker_present st r p :
  first_row (phases_by_title "Define Topic & Question" st) = Some p →
  brainstorm_tasks p st ≠ [] →
  all_five r.2 = true →
  tasks (after_save st r) = tasks st.
Proof.
  intros Hp Hb Hall.
  destruct (hook_step st (after_save st r) r.1 p Hp (after_save_hook st r Hall))
    as [[Hnil _] | [_ Ht]]; [done | exact Ht].
Qed.

Lemma after_saves_marker_present reqs :
  ∀ st p,
    first_row (phases_by_title "Define Topic & Question" st) = Some p →
    brainstorm_tasks p st ≠ [] →
    Forall (λ r, all_five r.2 = true) reqs →
    tasks (after_saves reqs st) = tasks st.
Proof.
  induction reqs as [|r reqs IH]; intros st p Hp Hb Hall; [done|].
  inversion Hall as [|? ? Hr Hrest]; subst.
  pose proof (after_save_marker_present st r p Hp Hb Hr) as Hsame.
  cbn [after_saves foldl]. fold (after_saves reqs (after_save st r)).
  rewrite (IH (after_save st r) p); [done | | | done].
  - by rewrite after_save_target.
  - by rewrite (brainstorm_tasks_ext p st (after_save st r) Hsame).
Qed.

(** After one save with all five fields the marker is in place. *)
Lemma after_save_marker st r p :
  first_row (phases_by_title "Define Topic & Question" st) = Some p →
  all_five r.2 = true →
  brainstorm_tasks p (after_save st r) ≠ [].
Proof.
  intros Hp Hall.
  destruct (hook_step st (after_save st r) r.1 p Hp (after_save_hook st r Hall))
    as [(_ & t & _ & -> & _) | [Hne Ht]]; [done|].
  by rewrite (brainstorm_tasks_ext p st (after_save st r) Ht).
Qed.

Lemma after_saves_target reqs :
  ∀ st,
    first_row (phases_by_title "Define Topic & Question" (after_saves reqs st))
    = first_row (phases_by_title "Define Topic & Question" st).
Proof.
  induction reqs as [|r reqs IH]; intros st; [done|].
  cbn [after_saves foldl]. fold (after_saves reqs (after_save st r)).
  by rewrite IH, after_save_target.
Qed.

(** The task the hook appends for the user of [r] under phase [p]. *)
Lemma after_save_creates_marker st r p :
  first_row (phases_by_title "Define Topic & Question" st) = Some p →
  all_five r.2 = true →
  brainstorm_tasks p st = [] →
  let marker := mkTask (fresh_id (task_id <$> tasks st)) "Brainstorm Complete" true
                       (Some (phase_id p)) r.1 in
  tasks (after_save st r) = tasks st ++ [marker]
  ∧ brainstorm_tasks p (after_save st r) = [marker].
Proof.
  intros Hp Hall Hb marker.
  assert (tasks (after_save st r) = tasks st ++ [marker]) as Ht.
  { rewrite (after_save_hook st r Hall). unfold hook_tasks. by rewrite Hp, Hb. }
  split; [exact Ht|].
  rewrite (brainstorm_tasks_app p st _ marker Ht), Hb.
  by rewrite decide_True.
Qed.

End BrainstormRepeated.

(** C10.  However many brainstorm saves with all five fields are run, one
    or more and by whichever users, the target phase ends with exactly one
    "Brainstorm Complete" task, given it had at most one to begin with.  If
    it had none, the first save creates it, with [completed = true], under
    the target phase, for the user of that save and under a fresh key, and
    that is the only task the saves add; if it had one, no task is added.
    Any further such saves leave the task table as it is. *)
Theorem brainstorm_marker_is_idempotent :
  ∀ (st : Store) (r : nat * BrainPayload) (reqs : list (nat * BrainPayload))
    (target : Phase),
    Forall (λ r, all_five r.2 = true) (r :: reqs) →
    first_row (phases_by_title "Define Topic & Question" st) = Some target →
    (length (brainstorm_tasks target st) ≤ 1)%nat →
    let st' := after_saves (r :: reqs) st in
    let marker := mkTask (fresh_id (task_id <$> tasks st)) "Brainstorm Complete" true
                         (Some (phase_id target)) r.1 in
    length (brainstorm_tasks target st') = 1
    ∧ (brainstorm_tasks target st = [] →
         tasks st' = tasks st ++ [marker]
         ∧ brainstorm_tasks target st' = [marker])
    ∧ (brainstorm_tasks target st ≠ [] → tasks st' = tasks st)
    ∧ (∀ more, Forall (λ r, all_five r.2 = true) more →
         tasks (after_saves more st') = tasks st').
Proof.
  intros st r reqs target Hall Hp Hlen st' marker.
  inversion Hall as [|? ? Hr Hrest]; subst.
  assert (brainstorm_tasks target (after_save st r) ≠ []) as Hmarked
    by by apply after_save_marker.
  assert (tasks st' = tasks (after_save st r)) as Htail.
  { unfold st'. cbn [after_saves foldl]. fold (after_saves reqs (after_save st r)).
    apply (after_saves_marker_present reqs _ target); [|done..].
    by rewrite after_save_target. }
  pose proof (brainstorm_tasks_ext target _ _ Htail) as Hb'.
  split; [|split; [|split]].
  - rewrite Hb'. destruct (brainstorm_tasks target st) as [|t0 ts0] eqn:Hb.
    + by destruct (after_save_creates_marker st r target Hp Hr Hb) as [_ ->].
    + rewrite (brainstorm_tasks_ext target st (after_save st r)), Hb.
      * destruct ts0; [done | cbn in Hlen; lia].
      * apply (after_save_marker_present st r target); [done| |done].
        by rewrite Hb.
  - intros Hb. rewrite Hb', Htail. by apply after_save_creates_marker.
  - intros Hb. rewrite Htail. by apply (after_save_marker_present st r target).
  - intros more Hmore. apply (after_saves_marker_present more _ target); [| |done].
    + unfold st'. by rewrite after_saves_target.
    + by rewrite Hb'.
Qed.

Lemma brainstorm_marker_is_idempotent_witness :
  let data := mkBrainPayload (Some "why") (Some "what") (Some "where")
                             (Some "when") (Some "who") "[]" "" false in
  let target := mkPhase 1 "Define Topic & Question" None None None 5 in
  let st := mkStore [] [target] [mkTask 4 "Read" false (Some 1) 5] [] in
  let st' := after_saves [(5, data); (6, data); (5, data)] st in
  let marker := mkTask 5 "Brainstorm Complete" true (Some 1) 5 in
  length (brainstorm_tasks target st') = 1
  ∧ (brainstorm_tasks target st = [] →
       tasks st' = tasks st ++ [marker]
       ∧ brainstorm_tasks target st' = [marker])
  ∧ (brainstorm_tasks target st ≠ [] → tasks st' = tasks st)
  ∧ (∀ more, Forall (λ r, all_five r.2 = true) more →
       tasks (after_saves more st') = tasks st').
Proof.
  intros data target st.
  refine (brainstorm_marker_is_idempotent st (5, data) [(6, data); (5, data)] target _ _ _).
  - repeat constructor.
  - reflexivity.
  - vm_compute. lia.
Defined.

(** ** Deleting a subtree *)

Lemma in_subtree_elem rows root r : in_subtree rows root r → r ∈ rows.
Proof. by destruct 1. Qed.

(** The ordered query returns the rows it is given, each as often as it
    is there, ascending by position, and leaves rows that are in ascending
    order as they stand; so rows of equal position keep their table order. *)
Lemma insert_by_order_Permutation r rows : insert_by_order r rows ≡ₚ r :: rows.
Proof.
  induction rows as [|r' rows IH]; [done|]. cbn [insert_by_order].
  case_decide; [done|]. rewrite IH. apply Permutation_swap.
Qed.

Lemma order_by_order_Permutation rows : order_by_order rows ≡ₚ rows.
Proof.
  induction rows as [|r rows IH]; [done|]. cbn [order_by_order foldr].
  fold (order_by_order rows). by rewrite insert_by_order_Permutation, IH.
Qed.

Lemma insert_by_order_sorted r rows :
  Sorted order_le rows → Sorted order_le (insert_by_order r rows).
Proof.
  induction 1 as [|r' rows Hs IH Hhd]; [by repeat constructor|].
  cbn [insert_by_order]. case_decide as Hle.
  - constructor; [by constructor|]. by constructor.
  - constructor; [exact IH|].
    destruct Hhd as [|r'' rows' Hle']; cbn [insert_by_order].
    + constructor. unfold order_le in *. lia.
    + case_decide; constructor; [unfold order_le in *; lia | done].
Qed.

Lemma order_by_order_sorted rows : Sorted order_le (order_by_order rows).
Proof.
  induction rows as [|r rows IH]; [constructor|].
  cbn [order_by_order foldr]. by apply insert_by_order_sorted.
Qed.

Lemma order_by_order_of_sorted rows :
  Sorted order_le rows → order_by_order rows = rows.
Proof.
  induction 1 as [|r rows Hs IH Hhd]; [done|].
  cbn [order_by_order foldr]. fold (order_by_order rows). rewrite IH.
  destruct Hhd as [|r' rows' Hle]; [done|]. cbn [insert_by_order].
  by rewrite decide_True.
Qed.

Lemma subsections_of_elem node rows c :
  c ∈ subsections_of node rows
  ↔ c ∈ rows ∧ sec_parent_id c = Some (sec_id node).
Proof.
  unfold subsections_of. rewrite order_by_order_Permutation, list_elem_of_filter.
  tauto.
Qed.

Lemma for_each_nil {A} (body : A → Req unit) db : for_each [] body db = (db, Return tt).
Proof. done. Qed.

Section DeleteSubtree.

(** [all] is the section table the request starts from, [bound] a strict
    bound on its keys. *)
Variables (all : list SectionRow) (bound : nat).
Hypothesis keys : keys_unique all.
Hypothesis parents : parents_first all.
Hypothesis bounded : ∀ r, r ∈ all → sec_id r < bound.

Lemma key_determines_row r c :
  r ∈ all → c ∈ all → sec_id r = sec_id c → r = c.
Proof.
  unfold keys_unique in keys. clear parents bounded.
  induction all as [|x l IH]; intros Hr Hc Heq; [by apply elem_of_nil in Hr|].
  apply NoDup_cons in keys as [Hx Hl].
  apply elem_of_cons in Hr as [->|Hr]; apply elem_of_cons in Hc as [->|Hc].
  - done.
  - exfalso. apply Hx. rewrite Heq. by apply list_elem_of_fmap_2.
  - exfalso. apply Hx. rewrite <- Heq. by apply list_elem_of_fmap_2.
  - by apply IH.
Qed.

(** The subtree of a child lies within the subtree of its parent. *)
Lemma subtree_of_child node c r :
  node ∈ all → c ∈ all → sec_parent_id c = Some (sec_id node) →
  in_subtree all (sec_id c) r → in_subtree all (sec_id node) r.
Proof.
  intros Hnode Hc Hpar. induction 1 as [r Hr Hid | r p Hr Hp _ IH].
  - assert (r = c) as -> by by apply key_determines_row.
    eapply subtree_child; [done | exact Hpar | by apply subtree_root].
  - by eapply subtree_child.
Qed.

Lemma with_sections_twice db rows1 rows2 :
  with_sections (with_sections db rows1) rows2 = with_sections db rows2.
Proof. done. Qed.

Lemma with_sections_sections db rows' :
  sections (session (with_sections db rows')) = rows'.
Proof. done. Qed.

Lemma with_sections_self db : with_sections db (sections (session db)) = db.
Proof. by destruct db as [c [s p t b]]. Qed.

Lemma _delete_subtree_spec fuel :
  ∀ node db,
    sections (session db) `sublist_of` all →
    node ∈ all →
    bound ≤ fuel + sec_id node →
    ∃ rows',
      _delete_subtree fuel node db = (with_sections db rows', Return tt)
      ∧ subtree_removed all (sections (session db)) node rows'.
Proof.
  induction fuel as [|fuel IH]; intros node db Hsub Hnode Hfuel.
  { apply bounded in Hnode. lia. }
  cbn [_delete_subtree]. erewrite req_bind_return by reflexivity.
  set (rows := sections (session db)) in *.
  (* the loop over the children *)
  assert (∀ cs dbi,
            (∀ c, c ∈ cs → c ∈ all ∧ sec_parent_id c = Some (sec_id node)) →
            sections (session dbi) `sublist_of` all →
            ∃ rows',
              for_each cs (_delete_subtree fuel) dbi = (with_sections dbi rows', Return tt)
              ∧ rows' `sublist_of` sections (session dbi)
              ∧ (∀ r c, r ∈ rows' → c ∈ cs → sec_id r ≠ sec_id c)
              ∧ (∀ r, r ∈ sections (session dbi) →
                      ¬ in_subtree all (sec_id node) r → r ∈ rows')
              ∧ (∀ r p, r ∈ rows' → p ∈ sections (session dbi) →
                        sec_parent_id r = Some (sec_id p) → p ∈ rows')) as Hloop.
  { induction cs as [|c cs IHcs]; intros dbi Hcs Hsubi.
    - exists (sections (session dbi)).
      rewrite for_each_nil, with_sections_self.
      split; [done|]. split; [done|].
      split; [intros r c _ Hc; by apply elem_of_nil in Hc|]. done.
    - destruct (Hcs c ltac:(by left)) as [Hc Hcpar].
      destruct (IH c dbi Hsubi Hc) as (rows1 & Hrun1 & Hs1 & Hid1 & Hkeep1 & Horph1).
      { pose proof (parents c _ Hc Hcpar). lia. }
      destruct (IHcs (with_sections dbi rows1)) as (rows2 & Hrun2 & Hs2 & Hid2 & Hkeep2 & Horph2).
      { intros c' Hc'. apply Hcs. by right. }
      { rewrite with_sections_sections. by etrans. }
      rewrite with_sections_sections in *.
      exists rows2. cbn [for_each].
      erewrite req_bind_return by exact Hrun1.
      rewrite Hrun2, with_sections_twice.
      split; [done|]. split; [by etrans|]. split; [|split].
      + intros r c' Hr Hc'. apply elem_of_cons in Hc' as [->|Hc'].
        * apply Hid1. by eapply elem_of_sublist.
        * by apply Hid2.
      + intros r Hr Hout. apply Hkeep2; [|done]. apply Hkeep1; [done|].
        intros Hin. apply Hout. by eapply subtree_of_child.
      + intros r p Hr Hp Hpar. apply (Horph2 r p Hr); [|done].
        apply (Horph1 r p); [by eapply elem_of_sublist | done | done]. }
  destruct (Hloop (subsections_of node rows) db) as (rows2 & Hrun & Hs2 & Hid2 & Hkeep2 & Horph2).
  { intros c [Hc Hpar]%subsections_of_elem. split; [|done]. by eapply elem_of_sublist. }
  { done. }
  exists (filter (λ r, sec_id r ≠ sec_id node) rows2).
  split.
  { erewrite req_bind_return by exact Hrun. reflexivity. }
  split; [|split; [|split]].
  - etrans; [apply sublist_filter | done].
  - by intros r [Hr _]%list_elem_of_filter.
  - intros r Hr Hout. apply list_elem_of_filter. split; [|by apply Hkeep2].
    intros Hid. apply Hout. apply subtree_root; [|done]. by eapply elem_of_sublist.
  - intros r p [Hrid Hr]%list_elem_of_filter Hp Hpar.
    apply list_elem_of_filter. split; [|by eapply Horph2].
    intros Hpid. apply (Hid2 r r Hr); [|done].
    apply subsections_of_elem. split; [by eapply elem_of_sublist|].
    by rewrite Hpar, Hpid.
Qed.

(** Deleting from the whole table removes the subtree and nothing else. *)
Lemma subtree_removed_exact node rows' :
  subtree_removed all all node rows' →
  ∀ r, r ∈ rows' ↔ r ∈ all ∧ ¬ in_subtree all (sec_id node) r.
Proof.
  intros (Hs & Hid & Hkeep & Horph) r. split.
  - intros Hr. split; [by eapply elem_of_sublist|].
    intros Hin. induction Hin as [r Hrall Hrid | r p Hrall Hpar Hp IH].
    + by apply (Hid r).
    + apply IH. apply (Horph r p); [done | by eapply in_subtree_elem | done].
  - intros [Hr Hout]. by apply Hkeep.
Qed.

End DeleteSubtree.

Lemma fresh_id_gt (ids : list nat) (n : nat) : n ∈ ids → n < fresh_id ids.
Proof.
  unfold fresh_id. induction ids as [|i ids IH]; intros Hn; [by apply elem_of_nil in Hn|].
  apply elem_of_cons in Hn as [->|Hn]; simpl; [lia|]. specialize (IH Hn). lia.
Qed.

(** Under [same_owner] a subtree stays within one owner. *)
Lemma subtree_same_owner rows node r :
  keys_unique rows → same_owner rows →
  node ∈ rows →
  in_subtree rows (sec_id node) r →
  sec_user_id r = sec_user_id node.
Proof.
  intros Hkeys Howner Hnode. induction 1 as [r Hr Hid | r p Hr Hpar Hp IH].
  - by rewrite (key_determines_row rows Hkeys r node Hr Hnode Hid).
  - rewrite <- IH. apply Howner; [done | by eapply in_subtree_elem | done].
Qed.

(** The lookup of [delete_outline], [get_outline] and [update_outline]
    answers only with a row of the caller that carries the key asked for. *)
Lemma sections_by_id_and_user_first sec_id0 uid st node :
  first_row (sections_by_id_and_user sec_id0 uid st) = Some node →
  node ∈ sections st ∧ sec_id node = sec_id0 ∧ sec_user_id node = uid.
Proof.
  intros H. apply head_Some_elem_of in H.
  apply list_elem_of_filter in H as [[H1 H2] H3]. done.
Qed.

Lemma sections_by_id_and_user_none sec_id0 uid st :
  (∀ r, r ∈ sections st → sec_id r = sec_id0 → sec_user_id r ≠ uid) →
  first_row (sections_by_id_and_user sec_id0 uid st) = None.
Proof.
  intros H. destruct (first_row _) as [node|] eqn:Hn; [|done].
  apply sections_by_id_and_user_first in Hn as (H1 & H2 & H3).
  by destruct (H node H1 H2).
Qed.

(** C7.  On a well-formed section table and with enough recursion depth:
    the delete answers not-found and changes nothing when no row of the
    caller carries the key; otherwise it removes the rows of the subtree
    below that key, exactly those, keeps all others as they are and in
    their order, and in particular keeps every row of every other owner. *)
Theorem delete_outline_removes_exactly_the_subtree :
  ∀ (fuel uid sid : nat) (st : Store),
    keys_unique (sections st) →
    parents_first (sections st) →
    same_owner (sections st) →
    fresh_id (sec_id <$> sections st) ≤ fuel →
    ((∀ r, r ∈ sections st → sec_id r = sid → sec_user_id r ≠ uid) →
       handle (delete_outline fuel uid sid) st = ((ErrorPage, 404), st))
    ∧ (∀ node, node ∈ sections st → sec_id node = sid → sec_user_id node = uid →
         ∃ rows',
           handle (delete_outline fuel uid sid) st
             = ((Empty, 204), set_sections (λ _, rows') st)
           ∧ rows' `sublist_of` sections st
           ∧ (∀ r, r ∈ rows' ↔ r ∈ sections st ∧ ¬ in_subtree (sections st) sid r)
           ∧ (∀ r, r ∈ sections st → sec_user_id r ≠ uid → r ∈ rows')).
Proof.
  intros fuel uid sid st Hkeys Hparents Howner Hfuel. split.
  - intros Hnone. unfold handle, delete_outline.
    rewrite (req_bind_raise _ _ _ (mkDb st st 0) NotFound); [reflexivity|].
    unfold first_or_404. cbn [session].
    by rewrite sections_by_id_and_user_none.
  - intros node0 Hnode0 Hid0 Hu0.
    destruct (first_row (sections_by_id_and_user sid uid st)) as [node|] eqn:Hfirst.
    2: { apply head_None in Hfirst. unfold sections_by_id_and_user in Hfirst.
         exfalso. by refine (filter_nil_not_elem_of _ _ node0 Hfirst _ Hnode0). }
    destruct (sections_by_id_and_user_first _ _ _ _ Hfirst) as (Hnode & Hid & Hu).
    destruct (_delete_subtree_spec (sections st) (fresh_id (sec_id <$> sections st))
                Hkeys Hparents
                (λ r Hr, fresh_id_gt _ _ (list_elem_of_fmap_2 sec_id _ r Hr))
                fuel node (mkDb st st 0))
      as (rows' & Hrun & Hremoved); [done | done | lia |].
    cbn [session] in Hremoved.
    pose proof (subtree_removed_exact (sections st) node rows' Hremoved) as Hexact.
    rewrite Hid in Hexact.
    exists rows'. split; [|split; [by destruct Hremoved | split; [exact Hexact|]]].
    + unfold handle, delete_outline.
      erewrite req_bind_return; [|unfold first_or_404; cbn [session]; by rewrite Hfirst].
      erewrite req_bind_return by exact Hrun.
      reflexivity.
    + intros r Hr Hother. apply Hexact. split; [done|].
      intros Hin. apply Hother. rewrite <- Hu. rewrite <- Hid in Hin.
      by eapply subtree_same_owner.
Qed.

Lemma example_sections_keys_unique : keys_unique example_sections.
Proof. unfold keys_unique. apply (bool_decide_unpack _). by vm_compute. Qed.

Lemma example_sections_parents_first : parents_first example_sections.
Proof.
  intros r p Hr Hp. unfold example_sections in Hr.
  repeat (apply elem_of_cons in Hr as [->|Hr]); simpl in Hp;
    try discriminate Hp; try (injection Hp as <-; simpl; lia).
  by apply elem_of_nil in Hr.
Qed.

Lemma example_sections_same_owner : same_owner example_sections.
Proof.
  intros r p Hr Hp Hpar. unfold example_sections in Hr, Hp.
  repeat (apply elem_of_cons in Hr as [->|Hr]); simpl in Hpar;
    try discriminate Hpar; try (by apply elem_of_nil in Hr);
    repeat (apply elem_of_cons in Hp as [->|Hp]); simpl in Hpar;
    try discriminate Hpar; try done; by apply elem_of_nil in Hp.
Qed.

Lemma delete_outline_removes_exactly_the_subtree_witness :
  ∃ rows',
    handle (delete_outline 6 7 1) example_store
      = ((Empty, 204), set_sections (λ _, rows') example_store)
    ∧ rows' `sublist_of` sections example_store
    ∧ (∀ r, r ∈ rows' ↔ r ∈ sections example_store
                         ∧ ¬ in_subtree (sections example_store) 1 r)
    ∧ (∀ r, r ∈ sections example_store → sec_user_id r ≠ 7 → r ∈ rows').
Proof.
  refine (proj2 (delete_outline_removes_exactly_the_subtree 6 7 1 example_store
                   example_sections_keys_unique
                   example_sections_parents_first
                   example_sections_same_owner _)
                (mkSection 1 "A" None None 0 0 7) _ eq_refl eq_refl).
  - vm_compute. lia.
  - by left.
Defined.

(** The same request, run: B and C go with A, D and E stay. *)
Lemma delete_outline_example :
  handle (delete_outline 6 7 1) example_store
  = ((Empty, 204),
     mkStore [mkSection 4 "D" None None 1 0 7; mkSection 5 "E" None None 0 0 8]
             [] [] [])
  ∧ handle (delete_outline 6 8 1) example_store = ((ErrorPage, 404), example_store)
  ∧ handle (delete_outline 6 7 9) example_store = ((ErrorPage, 404), example_store).
Proof. repeat split; by vm_compute. Qed.

(** ** The invariants of the section table are kept *)

Lemma well_formed_nil : well_formed [].
Proof.
  split; [constructor|]. split; [intros r p Hr | intros r p Hr]; by apply elem_of_nil in Hr.
Qed.

Lemma well_formed_sublist rows rows' :
  rows' `sublist_of` rows → well_formed rows → well_formed rows'.
Proof.
  intros Hs (Hk & Hp & Ho). split; [|split].
  - unfold keys_unique in *. eapply sublist_NoDup; [exact Hk|]. by apply fmap_sublist.
  - intros r p Hr. apply Hp. by eapply elem_of_sublist.
  - intros r p Hr Hpe. apply Ho; by eapply elem_of_sublist.
Qed.

Lemma well_formed_add rows row :
  well_formed rows →
  sec_id row = fresh_id (sec_id <$> rows) →
  parent_ok (sec_user_id row) (sec_parent_id row) rows →
  well_formed (rows ++ [row]).
Proof.
  intros (Hk & Hp & Ho) Hid Hpar.
  assert (∀ r, r ∈ rows → sec_id r < sec_id row) as Hlt.
  { intros r Hr. rewrite Hid. by apply fresh_id_gt, list_elem_of_fmap_2. }
  split; [|split].
  - unfold keys_unique in *. rewrite fmap_app. apply NoDup_app. split; [done|].
    split; [|apply NoDup_singleton].
    intros i Hi Hi'. apply list_elem_of_singleton in Hi' as ->.
    apply list_elem_of_fmap in Hi as (r & Hr1 & Hr2). specialize (Hlt r Hr2). lia.
  - intros r p Hr Hrp. apply elem_of_app in Hr as [Hr|Hr]; [by apply Hp|].
    apply list_elem_of_singleton in Hr as ->.
    unfold parent_ok in Hpar. rewrite Hrp in Hpar.
    destruct Hpar as (q & Hq & <- & _). by apply Hlt.
  - intros r p Hr Hpe Hrp.
    apply elem_of_app in Hr as [Hr|Hr].
    + apply elem_of_app in Hpe as [Hpe|Hpe]; [by apply Ho|].
      apply list_elem_of_singleton in Hpe as ->.
      pose proof (Hp r _ Hr Hrp). specialize (Hlt r Hr). lia.
    + apply list_elem_of_singleton in Hr as ->.
      unfold parent_ok in Hpar. rewrite Hrp in Hpar.
      destruct Hpar as (q & Hq & Hqid & Hqu).
      apply elem_of_app in Hpe as [Hpe|Hpe].
      * by rewrite (key_determines_row rows Hk p q Hpe Hq (eq_sym Hqid)).
      * apply list_elem_of_singleton in Hpe as ->. specialize (Hlt q Hq). lia.
Qed.

Lemma parent_ok_app uid parent_id rows new :
  parent_ok uid parent_id rows → parent_ok uid parent_id (rows ++ new).
Proof.
  destruct parent_id as [pid|]; [|done].
  intros (p & Hp & H). exists p. split; [|done]. apply elem_of_app. by left.
Qed.

Lemma appends_sections db db' new :
  appends db db' new → sections (session db') = sections (session db) ++ new.
Proof. intros [_ ->]. done. Qed.

Section RecreateInvariant.

Variables (clock : nat → Z) (user_id : nat).

Lemma recreate_turn_well_formed item :
  ∀ parent_id idx db db' out,
    recreate_turn clock user_id parent_id idx item db = (db', out) →
    well_formed (sections (session db)) →
    parent_ok user_id parent_id (sections (session db)) →
    well_formed (sections (session db')).
Proof.
  induction item as [t s subs IH] using Item_nested_ind.
  intros parent_id idx db db' out Hrun Hwf Hpar.
  rewrite _recreate_sections_body in Hrun.
  destruct t as [t|]; [|by injection Hrun as <- _].
  unfold getitem_title in Hrun. cbn [item_title] in Hrun.
  erewrite req_bind_return in Hrun by reflexivity.
  erewrite req_bind_return in Hrun by reflexivity.
  erewrite req_bind_return in Hrun by reflexivity.
  cbn [session committed ticks] in Hrun.
  set (sid := fresh_id (sec_id <$> sections (session db))) in *.
  set (row := mkSection sid t s parent_id idx (clock (ticks db)) user_id) in *.
  set (db1 := mkDb (committed db) (set_sections (λ l, l ++ [row]) (session db))
                   (S (ticks db))) in *.
  assert (well_formed (sections (session db1))) as Hwf1.
  { by apply well_formed_add. }
  assert (parent_ok user_id (Some sid) (sections (session db1))) as Hpar1.
  { exists row. split; [|done]. apply elem_of_app. right. by left. }
  clearbody db1. clear Hwf Hpar. revert db1 Hrun Hwf1 Hpar1.
  induction IH as [|c cs Hc _ IHcs]; intros dbc Hrun Hwfc Hparc.
  - by injection Hrun as <- _.
  - cbn [for_each] in Hrun.
    destruct (recreate_turn_spec clock user_id c (Some sid) 0 dbc)
      as (db2 & n1 & Hrun1 & Happ1 & _).
    pose proof (Hc _ _ _ _ _ Hrun1 Hwfc Hparc) as Hwf2.
    rewrite (appends_sections _ _ _ Happ1) in Hwf2.
    destruct (titled c).
    + erewrite req_bind_return in Hrun;
        [|rewrite recreate_singleton; by erewrite req_bind_return by exact Hrun1].
      apply (IHcs db2 Hrun).
      * by rewrite (appends_sections _ _ _ Happ1).
      * rewrite (appends_sections _ _ _ Happ1). by apply parent_ok_app.
    + erewrite req_bind_raise in Hrun;
        [|rewrite recreate_singleton; by erewrite req_bind_raise by exact Hrun1].
      injection Hrun as <- _. by rewrite (appends_sections _ _ _ Happ1).
Qed.

Lemma recreate_roots_well_formed items :
  ∀ start db db' out,
    for_enumerate start items (recreate_turn clock user_id None) db = (db', out) →
    well_formed (sections (session db)) →
    well_formed (sections (session db')).
Proof.
  induction items as [|it items IH]; intros start db db' out Hrun Hwf.
  - by injection Hrun as <- _.
  - cbn [for_enumerate] in Hrun.
    destruct (recreate_turn clock user_id None start it db) as [db1 [[]|e]] eqn:Hrun1.
    + erewrite req_bind_return in Hrun by exact Hrun1.
      apply (IH _ _ _ _ Hrun). by eapply recreate_turn_well_formed.
    + erewrite req_bind_raise in Hrun by exact Hrun1.
      injection Hrun as <- _. by eapply recreate_turn_well_formed.
Qed.

End RecreateInvariant.

(** Whatever a save of an outline does to the committed section table, the
    table stays well formed. *)
Lemma save_outline_well_formed clock uid payload st :
  well_formed (sections st) →
  well_formed (sections (handle (save_outline clock uid payload) st).2).
Proof.
  intros Hwf. unfold handle, save_outline.
  case_bool_decide; [done|].
  erewrite req_bind_return by reflexivity.
  erewrite req_bind_return by reflexivity.
  cbn [session committed].
  set (st1 := set_sections (filter (λ r, sec_user_id r ≠ uid)) st).
  assert (well_formed (sections st1)) as Hwf1.
  { eapply well_formed_sublist; [|exact Hwf]. apply sublist_filter. }
  unfold _recreate_sections.
  destruct (for_enumerate 0 (default [] payload) (recreate_turn clock uid None) (mkDb st1 st1 0))
    as [db2 [[]|e]] eqn:Hrun.
  - erewrite req_bind_return by exact Hrun.
    erewrite req_bind_return by reflexivity.
    unfold req_ret. cbn [snd committed session].
    by apply (recreate_roots_well_formed _ _ _ _ _ _ _ Hrun).
  - erewrite req_bind_raise by exact Hrun.
    destruct (recreate_roots_spec clock uid (default [] payload) 0 (mkDb st1 st1 0))
      as (db2' & new & Hrun' & [Hc _] & _).
    rewrite Hrun in Hrun'. injection Hrun' as <- _.
    destruct e; cbn [snd]; by rewrite Hc.
Qed.

(** Whether it returns or runs out of depth, [_delete_subtree] only drops
    section rows of the session. *)
Lemma _delete_subtree_sublist fuel :
  ∀ node db db' out,
    _delete_subtree fuel node db = (db', out) →
    ∃ rows', db' = with_sections db rows'
             ∧ rows' `sublist_of` sections (session db).
Proof.
  induction fuel as [|fuel IH]; intros node db db' out Hrun.
  { injection Hrun as <- _. exists (sections (session db)).
    by rewrite with_sections_self. }
  cbn [_delete_subtree] in Hrun. erewrite req_bind_return in Hrun by reflexivity.
  assert (∀ cs dbi dbo o,
            for_each cs (_delete_subtree fuel) dbi = (dbo, o) →
            ∃ rows', dbo = with_sections dbi rows'
                     ∧ rows' `sublist_of` sections (session dbi)) as Hloop.
  { induction cs as [|c cs IHcs]; intros dbi dbo o Hr.
    - injection Hr as <- _. exists (sections (session dbi)).
      by rewrite with_sections_self.
    - cbn [for_each] in Hr.
      destruct (_delete_subtree fuel c dbi) as [db1 [[]|e]] eqn:Hc;
        destruct (IH _ _ _ _ Hc) as (rows1 & -> & Hs1).
      + erewrite req_bind_return in Hr by exact Hc.
        destruct (IHcs _ _ _ Hr) as (rows2 & -> & Hs2).
        exists rows2. split; [done|]. rewrite with_sections_sections in Hs2. by etrans.
      + erewrite req_bind_raise in Hr by exact Hc. injection Hr as <- _.
        by exists rows1. }
  destruct (for_each (subsections_of node (sections (session db)))
              (_delete_subtree fuel) db) as [db1 [[]|e]] eqn:Hcs;
    destruct (Hloop _ _ _ _ Hcs) as (rows1 & -> & Hs1).
  - erewrite req_bind_return in Hrun by exact Hcs.
    injection Hrun as <- _.
    exists (filter (λ r, sec_id r ≠ sec_id node) rows1). split; [done|].
    etrans; [apply sublist_filter | done].
  - erewrite req_bind_raise in Hrun by exact Hcs. injection Hrun as <- _.
    by exists rows1.
Qed.

Lemma delete_outline_well_formed fuel uid sid st :
  well_formed (sections st) →
  well_formed (sections (handle (delete_outline fuel uid sid) st).2).
Proof.
  intros Hwf. unfold handle, delete_outline.
  destruct (first_or_404 (sections_by_id_and_user sid uid) (mkDb st st 0))
    as [db0 [node|e]] eqn:Hfirst.
  2: { erewrite req_bind_raise by exact Hfirst.
       unfold first_or_404 in Hfirst. destruct (first_row _); [done|].
       injection Hfirst as <- <-. done. }
  erewrite req_bind_return by exact Hfirst.
  assert (db0 = mkDb st st 0) as ->.
  { unfold first_or_404 in Hfirst. destruct (first_row _); by injection Hfirst as <-. }
  destruct (_delete_subtree fuel node (mkDb st st 0)) as [db1 [[]|e]] eqn:Hdel;
    destruct (_delete_subtree_sublist _ _ _ _ _ Hdel) as (rows' & -> & Hs).
  - erewrite req_bind_return by exact Hdel.
    erewrite req_bind_return by reflexivity.
    unfold req_ret. cbn. by eapply well_formed_sublist.
  - erewrite req_bind_raise by exact Hdel. by destruct e.
Qed.

Lemma after_save_well_formed st r :
  well_formed (sections st) → well_formed (sections (after_save st r)).
Proof. by rewrite after_save_sections. Qed.

(** ** What a successful save writes *)

Lemma foldr_max_app (l1 l2 : list nat) :
  foldr Nat.max 0 (l1 ++ l2) = Nat.max (foldr Nat.max 0 l1) (foldr Nat.max 0 l2).
Proof. induction l1 as [|x l1 IH]; simpl; [done|]. rewrite IH. lia. Qed.

Lemma foldr_max_seq (a n : nat) : foldr Nat.max 0 (seq a (S n)) = a + n.
Proof.
  revert a. induction n as [|n IH]; intros a; [simpl; lia|].
  change (seq a (S (S n))) with (a :: seq (S a) (S n)).
  cbn [foldr]. rewrite IH. lia.
Qed.

(** Keys handed out in a row are consecutive. *)
Lemma fresh_id_app_seq (ids : list nat) (n : nat) :
  fresh_id (ids ++ seq (fresh_id ids) n) = fresh_id ids + n.
Proof.
  destruct n as [|n]; [rewrite app_nil_r; lia|].
  unfold fresh_id. rewrite foldr_max_app, foldr_max_seq. lia.
Qed.

Lemma appended_nil db : appended db [] = db.
Proof.
  destruct db as [c [s p t b] k]. unfold appended, set_sections. simpl.
  by rewrite app_nil_r.
Qed.

Lemma appended_appended db n1 n2 :
  appended (appended db n1) n2 = appended db (n1 ++ n2).
Proof.
  unfold appended, set_sections. simpl. rewrite app_assoc, length_app. f_equal. lia.
Qed.

Section RecreateRows.

Variables (clock : nat → Z) (user_id : nat).

(** One turn over a descriptor with all titles present: the rows it
    appends, their keys, and the reading of the clock each one carries. *)
Lemma recreate_turn_rows item :
  titled item = true →
  ∀ parent_id idx db, ∃ new,
    recreate_turn clock user_id parent_id idx item db = (appended db new, Return tt)
    ∧ rows_of_item user_id parent_id idx item new
    ∧ sec_id <$> new
      = seq (fresh_id (sec_id <$> sections (session db))) (length new)
    ∧ sec_created_at <$> new = clock <$> seq (ticks db) (length new).
Proof.
  induction item as [t s subs IH] using Item_nested_ind.
  intros Ht parent_id idx db. rewrite _recreate_sections_body.
  cbn [titled] in Ht. apply andb_true_iff in Ht as [Ht Hsubs].
  destruct t as [t|]; [|done]. clear Ht.
  unfold getitem_title. cbn [item_title].
  erewrite req_bind_return by reflexivity.
  erewrite req_bind_return by reflexivity.
  erewrite req_bind_return by reflexivity.
  cbn [session committed ticks].
  set (sid := fresh_id (sec_id <$> sections (session db))).
  set (row := mkSection sid t s parent_id idx (clock (ticks db)) user_id).
  change (mkDb (committed db) (set_sections (λ l, l ++ [row]) (session db)) (S (ticks db)))
    with (appended db [row]).
  assert (∀ dbc, ∃ new,
            for_each subs (λ child, _recreate_sections clock [child] user_id (Some sid)) dbc
              = (appended dbc new, Return tt)
            ∧ rows_of_children user_id sid subs new
            ∧ sec_id <$> new
              = seq (fresh_id (sec_id <$> sections (session dbc))) (length new)
            ∧ sec_created_at <$> new = clock <$> seq (ticks dbc) (length new)) as Hloop.
  { clear row. induction IH as [|c cs Hc _ IHcs]; intros dbc.
    - exists []. rewrite appended_nil. repeat split. constructor.
    - cbn [forallb] in Hsubs. apply andb_true_iff in Hsubs as [Htc Htcs].
      destruct (Hc Htc (Some sid) 0 dbc) as (n1 & Hrun1 & Hrows1 & Hids1 & Hts1).
      destruct (IHcs Htcs (appended dbc n1)) as (n2 & Hrun2 & Hrows2 & Hids2 & Hts2).
      exists (n1 ++ n2). cbn [for_each].
      split; [|split; [|split]].
      + erewrite req_bind_return;
          [|rewrite recreate_singleton; by erewrite req_bind_return by exact Hrun1].
        by rewrite Hrun2, appended_appended.
      + by constructor.
      + rewrite fmap_app, length_app, seq_app, Hids1, Hids2. f_equal.
        cbn [appended session set_sections sections].
        rewrite fmap_app, Hids1, fresh_id_app_seq. done.
      + rewrite fmap_app, length_app, seq_app, fmap_app, Hts1, Hts2.
        cbn [appended ticks]. by rewrite (Nat.add_comm (length n1)). }
  destruct (Hloop (appended db [row])) as (below & Hrun & Hrows & Hids & Hts).
  exists (row :: below). split; [|split; [|split]].
  - rewrite Hrun, appended_appended. done.
  - by constructor.
  - cbn [fmap list_fmap length seq]. fold sid. f_equal.
    rewrite Hids. cbn [appended session set_sections sections].
    rewrite fmap_app. cbn [fmap list_fmap]. fold sid.
    change [sec_id row] with (seq sid 1). unfold sid.
    rewrite fresh_id_app_seq. f_equal. lia.
  - cbn [fmap list_fmap length seq]. f_equal. by rewrite Hts.
Qed.

Lemma recreate_roots_rows items :
  forallb titled items = true →
  ∀ start db, ∃ new,
    for_enumerate start items (recreate_turn clock user_id None) db
      = (appended db new, Return tt)
    ∧ rows_of_roots user_id start items new
    ∧ sec_id <$> new
      = seq (fresh_id (sec_id <$> sections (session db))) (length new)
    ∧ sec_created_at <$> new = clock <$> seq (ticks db) (length new).
Proof.
  induction items as [|it items IH]; intros Ht start db.
  - exists []. rewrite appended_nil. repeat split. constructor.
  - cbn [forallb] in Ht. apply andb_true_iff in Ht as [Hti Htis].
    destruct (recreate_turn_rows it Hti None start db)
      as (n1 & Hrun1 & Hrows1 & Hids1 & Hts1).
    destruct (IH Htis (S start) (appended db n1))
      as (n2 & Hrun2 & Hrows2 & Hids2 & Hts2).
    exists (n1 ++ n2). cbn [for_enumerate]. split; [|split; [|split]].
    + erewrite req_bind_return by exact Hrun1. by rewrite Hrun2, appended_appended.
    + by constructor.
    + rewrite fmap_app, length_app, seq_app, Hids1, Hids2. f_equal.
      cbn [appended session set_sections sections].
      rewrite fmap_app, Hids1, fresh_id_app_seq. done.
    + rewrite fmap_app, length_app, seq_app, fmap_app, Hts1, Hts2.
      cbn [appended ticks]. by rewrite (Nat.add_comm (length n1)).
Qed.

End RecreateRows.

(** A successful save, start to end: the answer, the store it leaves, and
    the rows it wrote. *)
Lemma save_outline_rows clock uid st outline :
  outline ≠ [] →
  forallb titled outline = true →
  let others := filter (λ r, sec_user_id r ≠ uid) (sections st) in
  ∃ new,
    handle (save_outline clock uid (Some outline)) st
      = ((SuccessMessage true "Outline saved", 201),
         set_sections (λ _, others ++ new) st)
    ∧ rows_of_roots uid 0 outline new
    ∧ sec_id <$> new = seq (fresh_id (sec_id <$> others)) (length new)
    ∧ sec_created_at <$> new = clock <$> seq 0 (length new).
Proof.
  intros Hne Ht others.
  set (st1 := set_sections (filter (λ r, sec_user_id r ≠ uid)) st).
  destruct (recreate_roots_rows clock uid outline Ht 0 (mkDb st1 st1 0))
    as (new & Hrun & Hrows & Hids & Hts).
  exists new. split; [|done].
  unfold handle, save_outline. cbn [default].
  rewrite bool_decide_eq_false_2 by done.
  erewrite req_bind_return by reflexivity.
  erewrite req_bind_return by reflexivity.
  cbn [session committed ticks]. fold st1. unfold _recreate_sections.
  erewrite req_bind_return by exact Hrun.
  erewrite req_bind_return by reflexivity.
  reflexivity.
Qed.

(** C1, as the code has it.  The save is two transactions.  The deletion of
    the caller's rows is committed before the tree is recreated, so when a
    node lacks its title the request fails with no row of a partial tree
    committed and with everything that is not a section of the caller
    untouched, and the caller is left without sections; when every node has
    a title, the caller's rows are replaced by the rows of the new tree: one
    row per node of the payload in depth-first order, with the node's title
    and summary, the key of its parent's row as parent link and the caller
    as owner, under consecutive fresh keys. *)
Theorem save_outline_commits_delete_then_tree :
  ∀ (clock : nat → Z) (uid : nat) (st : Store) (outline : list Item),
    outline ≠ [] →
    let others := filter (λ r, sec_user_id r ≠ uid) (sections st) in
    (forallb titled outline = false →
       handle (save_outline clock uid (Some outline)) st
       = ((ErrorPage, 500), set_sections (λ _, others) st))
    ∧ (forallb titled outline = true →
       ∃ new,
         Forall (λ r, sec_user_id r = uid) new
         ∧ handle (save_outline clock uid (Some outline)) st
           = ((SuccessMessage true "Outline saved", 201),
              set_sections (λ _, others ++ new) st)
         ∧ rows_of_roots uid 0 outline new
         ∧ sec_id <$> new = seq (fresh_id (sec_id <$> others)) (length new)).
Proof.
  intros clock uid st outline Hne others. split; intros Ht.
  - destruct (save_outline_run clock uid st outline Hne) as (new & _ & Hrun & _).
    by rewrite Ht in Hrun.
  - destruct (save_outline_rows clock uid st outline Hne Ht)
      as (new & Hrun & Hrows & Hids & _).
    exists new. split; [|done].
    destruct (save_outline_run clock uid st outline Hne) as (new' & Hu & Hrun' & _).
    rewrite Ht, Hrun in Hrun'. injection Hrun' as Heq.
    apply app_inv_head in Heq. by subst new'.
Qed.

Lemma save_outline_commits_delete_then_tree_witness :
  handle (save_outline (λ _, 0%Z) 7 (Some [mkItem None None []]))
         (mkStore [mkSection 1 "Kept?" None None 0 0 7;
                   mkSection 2 "Other" None None 0 0 8] [] [] [])
  = ((ErrorPage, 500),
     mkStore [mkSection 2 "Other" None None 0 0 8] [] [] []).
Proof.
  refine (proj1 (save_outline_commits_delete_then_tree (λ _, 0%Z) 7
            (mkStore [mkSection 1 "Kept?" None None 0 0 7;
                      mkSection 2 "Other" None None 0 0 8] [] [] [])
            [mkItem None None []] _) _).
  - discriminate.
  - reflexivity.
Defined.

(** C1 as stated fails: user 7 has a saved section and sends an outline
    whose only node has no title; the request fails and the saved section
    is gone. *)
Lemma save_outline_failure_loses_saved_sections :
  ¬ save_outline_atomic_at (λ _, 0%Z) 7 [mkItem None None []]
      (mkStore [mkSection 1 "Saved" None None 0 0 7] [] [] []).
Proof.
  intros H.
  specialize (H (ErrorPage, 500) (mkStore [] [] [] []) eq_refl).
  by specialize (H ltac:(done)).
Qed.

(** X1.  A save of a non-empty outline in which every node has a title
    answers 201 and replaces the caller's rows by the rows of the payload's
    forest: one row per node in depth-first order, with the node's title and
    summary, the key of its parent's row as parent link, the caller as
    owner, and consecutive fresh keys.  The clock is read once for every
    row, in that order: the row at place [k] carries reading number [k] of
    the request as its creation time, so the rows of one save need not
    share a creation time.  All other rows and tables stay. *)
Theorem save_outline_writes_the_forest :
  ∀ (clock : nat → Z) (uid : nat) (st : Store) (outline : list Item),
    outline ≠ [] →
    forallb titled outline = true →
    let others := filter (λ r, sec_user_id r ≠ uid) (sections st) in
    ∃ new,
      handle (save_outline clock uid (Some outline)) st
        = ((SuccessMessage true "Outline saved", 201),
           set_sections (λ _, others ++ new) st)
      ∧ rows_of_roots uid 0 outline new
      ∧ sec_id <$> new = seq (fresh_id (sec_id <$> others)) (length new)
      ∧ sec_created_at <$> new = clock <$> seq 0 (length new).
Proof. intros clock uid st outline. apply save_outline_rows. Qed.

Lemma save_outline_writes_the_forest_witness :
  let clock := λ k, (1000 + Z.of_nat k)%Z in
  ∃ new,
    handle (save_outline clock 7
              (Some [mkItem (Some "A") None [mkItem (Some "B") (Some "b") []]]))
           example_store
      = ((SuccessMessage true "Outline saved", 201),
         set_sections (λ _, [mkSection 5 "E" None None 0 0 8] ++ new) example_store)
    ∧ rows_of_roots 7 0 [mkItem (Some "A") None [mkItem (Some "B") (Some "b") []]] new
    ∧ sec_id <$> new = seq 6 (length new)
    ∧ sec_created_at <$> new = clock <$> seq 0 (length new).
Proof.
  intros clock.
  refine (save_outline_writes_the_forest clock 7 example_store
            [mkItem (Some "A") None [mkItem (Some "B") (Some "b") []]] _ _).
  - discriminate.
  - reflexivity.
Defined.

(** Below the first row of a node every row has a parent. *)
Lemma rows_of_item_tail uid parent_id idx it rows :
  rows_of_item uid parent_id idx it rows →
  Forall (λ r, sec_parent_id r ≠ None ∧ sec_user_id r = uid) (tail rows).
Proof.
  revert parent_id idx it rows.
  apply (rows_of_item_mut uid
           (λ _ _ _ rows,
              Forall (λ r, sec_parent_id r ≠ None ∧ sec_user_id r = uid) (tail rows))
           (λ _ _ rows,
              Forall (λ r, sec_parent_id r ≠ None ∧ sec_user_id r = uid) rows)).
  - intros parent_id idx t s subs i created_at below _ Hbelow. exact Hbelow.
  - constructor.
  - intros pid c cs rows1 rows2 Hitem Htail _ Hrows2.
    apply Forall_app. split; [|done].
    inversion Hitem; subst. constructor; [done|]. exact Htail.
Qed.

(** The parentless rows among those written are the rows of the top-level
    descriptors, in their order and numbered from [idx]. *)
Lemma rows_of_roots_roots uid idx items new :
  rows_of_roots uid idx items new →
  Forall (λ r, sec_user_id r = uid) new
  ∧ Forall2 (λ it r, item_title it = Some (sec_title r)
                     ∧ item_summary it = sec_summary r)
            items (filter (λ r, sec_parent_id r = None) new)
  ∧ sec_order <$> filter (λ r, sec_parent_id r = None) new = seq idx (length items).
Proof.
  induction 1 as [idx | idx it items rows1 rows2 Hitem _ (IHu & IHf & IHo)].
  - repeat split; constructor.
  - pose proof (rows_of_item_tail _ _ _ _ _ Hitem) as Htail.
    inversion Hitem as [? ? t s subs i created_at below Hbelow]; subst.
    cbn [tail] in Htail.
    assert (filter (λ r, sec_parent_id r = None) below = []) as Hnone.
    { clear -Htail. induction Htail as [|r l [Hr _] _ IH]; [done|].
      by rewrite filter_cons_False. }
    rewrite filter_app, filter_cons_True, Hnone by done.
    split; [|split].
    + apply Forall_app. split; [|done]. constructor; [done|].
      eapply Forall_impl; [exact Htail|]. by intros r [_ ?].
    + constructor; [done | exact IHf].
    + cbn [app fmap list_fmap length seq sec_order]. by rewrite IHo.
Qed.

(** ** Reading the outline *)

Lemma fmap_NoDup_eq {A B} (f : A → B) (l : list A) (x y : A) :
  NoDup (f <$> l) → x ∈ l → y ∈ l → f x = f y → x = y.
Proof.
  induction l as [|z l IH]; intros Hnd Hx Hy Heq; [by apply elem_of_nil in Hx|].
  apply NoDup_cons in Hnd as [Hz Hl].
  apply elem_of_cons in Hx as [->|Hx]; apply elem_of_cons in Hy as [->|Hy].
  - done.
  - exfalso. apply Hz. rewrite Heq. by apply list_elem_of_fmap_2.
  - exfalso. apply Hz. rewrite <- Heq. by apply list_elem_of_fmap_2.
  - by apply IH.
Qed.

Lemma filter_filter_nil {A} (P Q : A → Prop)
    `{!∀ x, Decision (P x)} `{!∀ x, Decision (Q x)} (l : list A) :
  (∀ x, P x → Q x → False) → filter P (filter Q l) = [].
Proof.
  intros Hdis. induction l as [|x l IH]; [done|].
  rewrite (filter_cons Q). destruct (decide (Q x)); [|done].
  rewrite filter_cons_False; [done|]. naive_solver.
Qed.

Lemma increasing_orders_sorted (l : list SectionRow) (a : nat) :
  sec_order <$> l = seq a (length l) → Sorted order_le l.
Proof.
  revert a. induction l as [|x l IH]; intros a Hl; [constructor|].
  cbn in Hl. injection Hl as Hx Hl. constructor; [by eapply IH|].
  destruct l as [|y l]; constructor.
  cbn in Hl. injection Hl as Hy _. unfold order_le. lia.
Qed.

(** Rows whose positions count up are returned by the ordered query as
    they stand. *)
Lemma order_by_order_increasing (l : list SectionRow) (a : nat) :
  sec_order <$> l = seq a (length l) → order_by_order l = l.
Proof. intros Hl. by eapply order_by_order_of_sorted, increasing_orders_sorted. Qed.

(** X2.  Reading never writes, and it reads the caller's rows only.  Without
    a key the answer lists the caller's parentless rows, ascending by
    position; with a key it is not-found unless a row of the caller carries
    the key, and then it is that row. *)
Theorem get_outline_reads_own_rows :
  ∀ (D : Type) (to_dict : Store → SectionRow → D) (uid : nat) (st : Store),
    (∃ roots,
       respond (get_outline D to_dict uid None) st
         = ((Some (true, AllSections (to_dict st <$> roots)), 200), st)
       ∧ Sorted order_le roots
       ∧ ∀ r, r ∈ roots ↔ r ∈ sections st ∧ sec_parent_id r = None ∧ sec_user_id r = uid)
    ∧ ∀ i,
        (respond (get_outline D to_dict uid (Some i)) st = ((None, 404), st)
         ∧ ∀ r, r ∈ sections st → sec_id r = i → sec_user_id r ≠ uid)
        ∨ (∃ sec,
             sec ∈ sections st ∧ sec_id sec = i ∧ sec_user_id sec = uid
             ∧ respond (get_outline D to_dict uid (Some i)) st
               = ((Some (true, OneSection (to_dict st sec)), 200), st)).
Proof.
  intros D to_dict uid st. split.
  - exists (root_sections uid st). split; [reflexivity|]. split.
    + apply order_by_order_sorted.
    + intros r. unfold root_sections.
      rewrite order_by_order_Permutation, list_elem_of_filter. tauto.
  - intros i. unfold respond, get_outline, first_or_404, req_bind. cbn [session].
    destruct (first_row (sections_by_id_and_user i uid st)) as [sec|] eqn:Hfirst.
    + right. exists sec.
      destruct (sections_by_id_and_user_first _ _ _ _ Hfirst) as (H1 & H2 & H3).
      done.
    + left. split; [done|]. intros r Hr Hid Hu.
      apply head_None in Hfirst.
      by refine (filter_nil_not_elem_of _ _ r Hfirst _ Hr).
Qed.

(** X3.  Save, then read: after a successful save the read without key
    returns one entry per top-level descriptor of the payload, in payload
    order, each for a row with the descriptor's title and summary and its
    position in the payload as [order]. *)
Theorem save_then_get_outline :
  ∀ (D : Type) (to_dict : Store → SectionRow → D) (clock : nat → Z) (uid : nat)
    (st : Store) (outline : list Item),
    outline ≠ [] →
    forallb titled outline = true →
    let st' := (handle (save_outline clock uid (Some outline)) st).2 in
    ∃ roots,
      respond (get_outline D to_dict uid None) st'
        = ((Some (true, AllSections (to_dict st' <$> roots)), 200), st')
      ∧ Forall2 (λ it r, item_title it = Some (sec_title r)
                         ∧ item_summary it = sec_summary r)
                outline roots
      ∧ sec_order <$> roots = seq 0 (length outline).
Proof.
  intros D to_dict clock uid st outline Hne Ht st'.
  destruct (save_outline_rows clock uid st outline Hne Ht) as (new & Hrun & Hrows & _).
  assert (sections st' = filter (λ r, sec_user_id r ≠ uid) (sections st) ++ new) as Hst'.
  { unfold st'. by rewrite Hrun. }
  destruct (rows_of_roots_roots _ _ _ _ Hrows) as (Hu & Hf & Ho).
  exists (filter (λ r, sec_parent_id r = None) new).
  split; [|done].
  assert (root_sections uid st' = filter (λ r, sec_parent_id r = None) new) as Hroots.
  { unfold root_sections. rewrite Hst', filter_app.
    assert (filter (λ r, sec_parent_id r = None ∧ sec_user_id r = uid)
              (filter (λ r, sec_user_id r ≠ uid) (sections st)) = []) as ->.
    { apply filter_filter_nil. by intros x [_ Hx] Hx'. }
    cbn [app].
    assert (filter (λ r, sec_parent_id r = None ∧ sec_user_id r = uid) new
            = filter (λ r, sec_parent_id r = None) new) as ->.
    { clear -Hu. induction Hu as [|x l Hx _ IH]; [done|].
      rewrite !filter_cons, IH.
      destruct (decide (sec_parent_id x = None));
        destruct (decide (sec_parent_id x = None ∧ sec_user_id x = uid));
        tauto. }
    apply (order_by_order_increasing _ 0).
    rewrite Ho. f_equal. apply Forall2_length in Hf. by rewrite <- Hf. }
  unfold respond, get_outline, query, req_bind, req_ret. cbn [session committed].
  by rewrite Hroots.
Qed.

Lemma save_then_get_outline_witness :
  let outline := [mkItem (Some "A") (Some "a") [mkItem (Some "B") None []];
                  mkItem (Some "C") None []] in
  let st' := (handle (save_outline (λ _, 0%Z) 7 (Some outline)) example_store).2 in
  ∃ roots,
    respond (get_outline SectionRow (λ _ r, r) 7 None) st'
      = ((Some (true, AllSections ((λ r, r) <$> roots)), 200), st')
    ∧ Forall2 (λ it r, item_title it = Some (sec_title r)
                       ∧ item_summary it = sec_summary r)
              outline roots
    ∧ sec_order <$> roots = seq 0 (length outline).
Proof.
  intros outline.
  refine (save_then_get_outline SectionRow (λ _ r, r) (λ _, 0%Z) 7 example_store outline _ _).
  - discriminate.
  - reflexivity.
Defined.

(** ** Editing a section *)

Section UpdateOutline.

Variable D : Type.
Variable to_dict : Store → SectionRow → D.

(** The two ways an update ends. *)
Lemma update_outline_run uid sid payload st :
  let data := default empty_patch payload in
  match first_row (sections_by_id_and_user sid uid st) with
  | Some sec =>
      let st' := set_sections (patched data sid) st in
      respond (update_outline D to_dict uid sid payload) st
      = ((Some (true, "Updated", to_dict st' (apply_patch data sec)), 200), st')
  | None =>
      respond (update_outline D to_dict uid sid payload) st = ((None, 404), st)
  end.
Proof.
  intros data. unfold respond, update_outline, first_or_404, req_bind. cbn [session].
  destruct (first_row (sections_by_id_and_user sid uid st)) as [sec|] eqn:Hfirst; [|done].
  destruct (sections_by_id_and_user_first _ _ _ _ Hfirst) as (_ & <- & _).
  reflexivity.
Qed.

Lemma patched_ids data sid rows : sec_id <$> patched data sid rows = sec_id <$> rows.
Proof.
  unfold patched. rewrite <- list_fmap_compose. apply list_fmap_ext.
  intros k r _. simpl. by case_decide.
Qed.

Lemma patched_parents data sid rows :
  sec_parent_id <$> patched data sid rows = sec_parent_id <$> rows.
Proof.
  unfold patched. rewrite <- list_fmap_compose. apply list_fmap_ext.
  intros k r _. simpl. by case_decide.
Qed.

Lemma patched_users data sid rows :
  sec_user_id <$> patched data sid rows = sec_user_id <$> rows.
Proof.
  unfold patched. rewrite <- list_fmap_compose. apply list_fmap_ext.
  intros k r _. simpl. by case_decide.
Qed.

Lemma patched_created data sid rows :
  sec_created_at <$> patched data sid rows = sec_created_at <$> rows.
Proof.
  unfold patched. rewrite <- list_fmap_compose. apply list_fmap_ext.
  intros k r _. simpl. by case_decide.
Qed.

Lemma patched_lookup data sid rows k :
  patched data sid rows !! k
  = (λ r, if decide (sec_id r = sid) then apply_patch data r else r) <$> rows !! k.
Proof. unfold patched. apply list_lookup_fmap. Qed.

Lemma apply_patch_twice data r : apply_patch data (apply_patch data r) = apply_patch data r.
Proof.
  unfold apply_patch. simpl.
  destruct (patch_title data), (patch_summary data), (patch_order data); done.
Qed.

Lemma patched_twice data sid rows :
  patched data sid (patched data sid rows) = patched data sid rows.
Proof.
  unfold patched. rewrite <- list_fmap_compose. apply list_fmap_ext.
  intros k r _. unfold compose.
  destruct (decide (sec_id r = sid)) as [Hid|Hid].
  - cbn [apply_patch sec_id]. rewrite decide_True by done. apply apply_patch_twice.
  - by rewrite decide_False.
Qed.

End UpdateOutline.

Lemma filter_fmap_commute {A} (P : A → Prop) `{!∀ x, Decision (P x)}
    (f : A → A) (l : list A) :
  (∀ x, P (f x) ↔ P x) → filter P (f <$> l) = f <$> filter P l.
Proof.
  intros Hf. induction l as [|x l IH]; [done|].
  cbn [fmap list_fmap]. rewrite !filter_cons.
  destruct (decide (P x)) as [Hx|Hx].
  - rewrite decide_True by by apply Hf. cbn [fmap list_fmap]. by rewrite IH.
  - rewrite decide_False by by rewrite Hf. done.
Qed.

Lemma head_fmap_list {A B} (f : A → B) (l : list A) : head (f <$> l) = f <$> head l.
Proof. by destruct l. Qed.

(** The lookup by key and owner after an update finds the updated row. *)
Lemma first_row_patched data sid uid st :
  first_row (sections_by_id_and_user sid uid (set_sections (patched data sid) st))
  = apply_patch data <$> first_row (sections_by_id_and_user sid uid st).
Proof.
  unfold first_row, sections_by_id_and_user, patched. cbn [set_sections sections].
  rewrite filter_fmap_commute.
  2: { intros r. by case_decide. }
  rewrite head_fmap_list.
  destruct (head (filter _ (sections st))) as [r|] eqn:Hr; [|done].
  apply head_Some_elem_of, list_elem_of_filter in Hr as [[Hid _] _].
  cbn [fmap option_fmap option_map]. by rewrite decide_True.
Qed.

Lemma well_formed_patched data sid rows :
  well_formed rows → well_formed (patched data sid rows).
Proof.
  intros (Hk & Hp & Ho).
  assert (∀ r', r' ∈ patched data sid rows →
            ∃ r, r ∈ rows ∧ sec_id r' = sec_id r
                 ∧ sec_parent_id r' = sec_parent_id r
                 ∧ sec_user_id r' = sec_user_id r) as Hback.
  { intros r' Hr'. apply list_elem_of_fmap in Hr' as (r & -> & Hr).
    exists r. split; [done|]. by case_decide. }
  split; [|split].
  - unfold keys_unique. by rewrite patched_ids.
  - intros r' p Hr' Hpar. destruct (Hback r' Hr') as (r & Hr & -> & Hpr & _).
    apply (Hp r p Hr). by rewrite <- Hpr.
  - intros r' p' Hr' Hp' Hpar.
    destruct (Hback r' Hr') as (r & Hr & _ & Hpr & ->).
    destruct (Hback p' Hp') as (p & Hpe & Hpid & _ & ->).
    apply Ho; [done | done |]. by rewrite <- Hpr, <- Hpid.
Qed.

(** X4.  An update never moves, adds or removes a node: keys, parent
    links, owners and creation times of the section table stay as they are,
    position by position, every row with another key is untouched, and so
    are the other tables. *)
Theorem update_outline_keeps_the_tree :
  ∀ (D : Type) (to_dict : Store → SectionRow → D) (uid sid : nat)
    (payload : option OutlinePatch) (st : Store),
    let st' := (respond (update_outline D to_dict uid sid payload) st).2 in
    sec_id <$> sections st' = sec_id <$> sections st
    ∧ sec_parent_id <$> sections st' = sec_parent_id <$> sections st
    ∧ sec_user_id <$> sections st' = sec_user_id <$> sections st
    ∧ sec_created_at <$> sections st' = sec_created_at <$> sections st
    ∧ (∀ k r, sections st !! k = Some r → sec_id r ≠ sid → sections st' !! k = Some r)
    ∧ phases st' = phases st
    ∧ tasks st' = tasks st
    ∧ brain_entries st' = brain_entries st.
Proof.
  intros D to_dict uid sid payload st st'.
  pose proof (update_outline_run D to_dict uid sid payload st) as Hrun.
  cbn zeta in Hrun. unfold st'.
  destruct (first_row (sections_by_id_and_user sid uid st)) as [sec|];
    rewrite Hrun; cbn [snd]; [|done].
  cbn [set_sections sections phases tasks brain_entries].
  rewrite patched_ids, patched_parents, patched_users, patched_created.
  repeat split. intros k r Hk Hid.
  rewrite patched_lookup, Hk. cbn. by rewrite decide_False.
Qed.

(** X5.  An update addressed to a key that no row of the caller carries is
    answered not-found and changes nothing; and with unique keys no update
    changes a row of another owner. *)
Theorem update_outline_leaves_other_owners :
  ∀ (D : Type) (to_dict : Store → SectionRow → D) (uid sid : nat)
    (payload : option OutlinePatch) (st : Store),
    keys_unique (sections st) →
    let st' := (respond (update_outline D to_dict uid sid payload) st).2 in
    ((∀ r, r ∈ sections st → sec_id r = sid → sec_user_id r ≠ uid) →
       respond (update_outline D to_dict uid sid payload) st = ((None, 404), st))
    ∧ (∀ k r, sections st !! k = Some r → sec_user_id r ≠ uid →
              sections st' !! k = Some r).
Proof.
  intros D to_dict uid sid payload st Hkeys st'.
  pose proof (update_outline_run D to_dict uid sid payload st) as Hrun.
  cbn zeta in Hrun. unfold st'. split.
  - intros Hnone. by rewrite (sections_by_id_and_user_none _ _ _ Hnone) in Hrun.
  - intros k r Hk Hu.
    destruct (first_row (sections_by_id_and_user sid uid st)) as [sec|] eqn:Hfirst;
      rewrite Hrun; cbn [snd]; [|done].
    destruct (sections_by_id_and_user_first _ _ _ _ Hfirst) as (Hsec & Hid & Hsu).
    cbn [set_sections sections]. rewrite patched_lookup, Hk. cbn.
    rewrite decide_False; [done|]. intros Hrid. apply Hu. rewrite <- Hsu.
    f_equal. apply (key_determines_row (sections st) Hkeys); [|done|congruence].
    by eapply list_elem_of_lookup_2.
Qed.

Lemma update_outline_leaves_other_owners_witness :
  let st' := (respond (update_outline unit (λ _ _, tt) 7 5
                         (Some (mkPatch (Some "Mine now") None None)))
                      example_store).2 in
  (respond (update_outline unit (λ _ _, tt) 7 5
              (Some (mkPatch (Some "Mine now") None None))) example_store
   = ((None, 404), example_store))
  ∧ sections st' !! 4 = Some (mkSection 5 "E" None None 0 0 8).
Proof.
  intros st'.
  pose proof (update_outline_leaves_other_owners unit (λ _ _, tt) 7 5
                (Some (mkPatch (Some "Mine now") None None)) example_store
                example_sections_keys_unique) as [H404 Hother].
  split.
  - apply H404. intros r Hr Hid. unfold example_store, example_sections in Hr.
    cbn [sections] in Hr.
    repeat (apply elem_of_cons in Hr as [->|Hr]); try discriminate Hid;
      [simpl; lia | by apply elem_of_nil in Hr].
  - apply Hother; [reflexivity | simpl; lia].
Defined.

(** X6.  Read your own write: with unique keys, an update of a row of the
    caller answers with the updated row, stores it, and a read of the same
    key right after returns the same row. *)
Theorem update_then_get_outline :
  ∀ (D : Type) (to_dict : Store → SectionRow → D) (uid sid : nat)
    (payload : option OutlinePatch) (st : Store) (sec : SectionRow),
    keys_unique (sections st) →
    sec ∈ sections st → sec_id sec = sid → sec_user_id sec = uid →
    let row := apply_patch (default empty_patch payload) sec in
    let st' := (respond (update_outline D to_dict uid sid payload) st).2 in
    respond (update_outline D to_dict uid sid payload) st
      = ((Some (true, "Updated", to_dict st' row), 200), st')
    ∧ row ∈ sections st'
    ∧ respond (get_outline D to_dict uid (Some sid)) st'
      = ((Some (true, OneSection (to_dict st' row)), 200), st').
Proof.
  intros D to_dict uid sid payload st sec Hkeys Hsec Hid Hu row st'.
  pose proof (update_outline_run D to_dict uid sid payload st) as Hrun.
  cbn zeta in Hrun.
  assert (first_row (sections_by_id_and_user sid uid st) = Some sec) as Hfirst.
  { destruct (first_row (sections_by_id_and_user sid uid st)) as [sec0|] eqn:Hf.
    - destruct (sections_by_id_and_user_first _ _ _ _ Hf) as (H0 & Hid0 & _).
      f_equal. apply (key_determines_row (sections st) Hkeys); [done|done|congruence].
    - apply head_None in Hf.
      by destruct (filter_nil_not_elem_of _ _ sec Hf). }
  rewrite Hfirst in Hrun.
  assert (st' = set_sections (patched (default empty_patch payload) sid) st) as Hst'.
  { unfold st'. by rewrite Hrun. }
  split; [by rewrite Hst'|]. split.
  - rewrite Hst'. cbn [set_sections sections]. unfold patched.
    apply list_elem_of_fmap. exists sec. split; [|done]. by rewrite decide_True.
  - unfold respond, get_outline, first_or_404, req_bind. cbn [session].
    rewrite Hst' at 1. rewrite first_row_patched, Hfirst. done.
Qed.

Lemma update_then_get_outline_witness :
  let payload := Some (mkPatch (Some "A, renamed") None (Some 3)) in
  let row := mkSection 1 "A, renamed" None None 3 0 7 in
  let st' := (respond (update_outline SectionRow (λ _ r, r) 7 1 payload) example_store).2 in
  respond (update_outline SectionRow (λ _ r, r) 7 1 payload) example_store
    = ((Some (true, "Updated", row), 200), st')
  ∧ row ∈ sections st'
  ∧ respond (get_outline SectionRow (λ _ r, r) 7 (Some 1)) st'
    = ((Some (true, OneSection row), 200), st').
Proof.
  intros payload row.
  refine (update_then_get_outline SectionRow (λ _ r, r) 7 1 payload example_store
            (mkSection 1 "A" None None 0 0 7)
            example_sections_keys_unique _ eq_refl eq_refl).
  by left.
Defined.

(** X7.  Sending the same update twice leaves the store as sending it
    once does. *)
Theorem update_outline_idempotent :
  ∀ (D : Type) (to_dict : Store → SectionRow → D) (uid sid : nat)
    (payload : option OutlinePatch) (st : Store),
    let st' := (respond (update_outline D to_dict uid sid payload) st).2 in
    (respond (update_outline D to_dict uid sid payload) st').2 = st'.
Proof.
  intros D to_dict uid sid payload st st'.
  pose proof (update_outline_run D to_dict uid sid payload st) as Hrun.
  pose proof (update_outline_run D to_dict uid sid payload st') as Hrun'.
  cbn zeta in Hrun, Hrun'.
  destruct (first_row (sections_by_id_and_user sid uid st)) as [sec|] eqn:Hfirst.
  - assert (st' = set_sections (patched (default empty_patch payload) sid) st) as Hst'.
    { unfold st'. by rewrite Hrun. }
    clearbody st'. subst st'.
    rewrite first_row_patched, Hfirst in Hrun'.
    cbn [fmap option_fmap option_map] in Hrun'. rewrite Hrun'. cbn [snd].
    unfold set_sections. cbn [sections phases tasks brain_entries].
    by rewrite patched_twice.
  - assert (st' = st) as Hst' by (unfold st'; by rewrite Hrun).
    clearbody st'. subst st'. rewrite Hfirst in Hrun'. by rewrite Hrun'.
Qed.

(** ** Deleting only removes *)

(** X8.  Whatever the key, the caller and the recursion depth, a delete
    leaves a part of the section table in its order, never adds or alters a
    row, never touches another table, and changes nothing at all unless it
    answers 204. *)
Theorem delete_outline_only_removes :
  ∀ (fuel uid sid : nat) (st : Store),
    let resp := (handle (delete_outline fuel uid sid) st).1 in
    let st' := (handle (delete_outline fuel uid sid) st).2 in
    sections st' `sublist_of` sections st
    ∧ phases st' = phases st
    ∧ tasks st' = tasks st
    ∧ brain_entries st' = brain_entries st
    ∧ (resp.2 ≠ 204 → st' = st).
Proof.
  intros fuel uid sid st. cbn zeta. unfold handle, delete_outline.
  destruct (first_or_404 (sections_by_id_and_user sid uid) (mkDb st st 0))
    as [db0 [node|e]] eqn:Hfirst.
  2: { erewrite req_bind_raise by exact Hfirst.
       unfold first_or_404 in Hfirst. destruct (first_row _); [done|].
       injection Hfirst as <- <-. done. }
  erewrite req_bind_return by exact Hfirst.
  assert (db0 = mkDb st st 0) as ->.
  { unfold first_or_404 in Hfirst. destruct (first_row _); by injection Hfirst as <-. }
  destruct (_delete_subtree fuel node (mkDb st st 0)) as [db1 [[]|e]] eqn:Hdel;
    destruct (_delete_subtree_sublist _ _ _ _ _ Hdel) as (rows' & -> & Hs).
  - erewrite req_bind_return by exact Hdel.
    erewrite req_bind_return by reflexivity.
    unfold req_ret. cbn. done.
  - erewrite req_bind_raise by exact Hdel. by destruct e.
Qed.

(** ** The invariants hold in every reachable store *)

Lemma outline_step_well_formed st req :
  well_formed (sections st) → well_formed (sections (outline_step st req)).
Proof.
  intros Hwf. destruct req as [clock uid payload | uid i payload | fuel uid i];
    cbn [outline_step].
  - by apply save_outline_well_formed.
  - pose proof (update_outline_run unit (λ _ _, tt) uid i payload st) as Hrun.
    cbn zeta in Hrun.
    destruct (first_row (sections_by_id_and_user i uid st)); rewrite Hrun; [|done].
    by apply well_formed_patched.
  - by apply delete_outline_well_formed.
Qed.

(** X9.  Starting without sections, no series of saves, updates and
    deletes, by whichever users and with whatever payloads, breaks the
    invariants of the section table: keys stay unique, a parent's key stays
    below the keys of its children, and a child stays with the owner of its
    parent. *)
Theorem outline_requests_keep_well_formed :
  ∀ (reqs : list OutlineRequest) (ps : list Phase) (ts : list Task)
    (es : list BrainEntry),
    well_formed (sections (foldl outline_step (mkStore [] ps ts es) reqs)).
Proof.
  intros reqs ps ts es.
  assert (∀ st, well_formed (sections st) →
                well_formed (sections (foldl outline_step st reqs))) as Hall.
  { induction reqs as [|req reqs IH]; intros st Hwf; [done|].
    cbn [foldl]. by apply IH, outline_step_well_formed. }
  apply Hall, well_formed_nil.
Qed.

(** ** More on the dashboard *)

Lemma user_phase_map_snoc (l : list Phase) (p : Phase) :
  user_phase_map (l ++ [p]) = <[phase_title p := p]> (user_phase_map l).
Proof. unfold user_phase_map. by rewrite foldl_app. Qed.

(** The map holds, under each title, the last phase of the list that
    carries it. *)
Lemma user_phase_map_last (l : list Phase) (t : string) :
  user_phase_map l !! t = last (filter (λ p, phase_title p = t) l).
Proof.
  induction l as [|p l IH] using rev_ind; [done|].
  rewrite user_phase_map_snoc, filter_app, lookup_insert.
  destruct (decide (phase_title p = t)) as [Ht|Ht].
  - rewrite filter_cons_True by done. cbn [filter list_filter].
    by rewrite last_snoc.
  - rewrite filter_cons_False by done. cbn [filter list_filter].
    by rewrite app_nil_r.
Qed.

Lemma filter_filter_and {A} (P Q : A → Prop)
    `{!∀ x, Decision (P x)} `{!∀ x, Decision (Q x)} (l : list A) :
  filter P (filter Q l) = filter (λ x, Q x ∧ P x) l.
Proof.
  induction l as [|x l IH]; [done|].
  rewrite (filter_cons Q), (filter_cons (λ x, Q x ∧ P x)).
  destruct (decide (Q x)) as [HQ|HQ].
  - rewrite filter_cons, IH. destruct (decide (P x)) as [HP|HP].
    + by rewrite decide_True.
    + rewrite decide_False; [done|]. tauto.
  - rewrite decide_False; [done|]. tauto.
Qed.

Lemma dashboard_record_at (uid : nat) (now : Z) (st : Store) (k : nat) (title : string) :
  desired_order !! k = Some title →
  dashboard_data uid now st !! k
  = Some
      match last (filter (λ p, phase_user_id p = uid ∧ phase_title p = title)
                         (phases st)) with
      | Some p =>
          mkStatus (k + 1) title
                   (phase_status (phase_tasks p st) (phase_deadline p) now)
      | None => mkStatus (k + 1) title "NotCompleted"
      end.
Proof.
  intros Hk. unfold dashboard_data.
  rewrite list_lookup_imap, Hk. cbn [fmap option_fmap option_map]. f_equal.
  unfold status_record.
  rewrite user_phase_map_last, filter_filter_and.
  destruct (last _) as [p|] eqn:Hlast; [|done].
  f_equal. apply last_Some_elem_of, list_elem_of_filter in Hlast. tauto.
Qed.

(** X10.  The record the dashboard gives for a canonical title is decided
    by the last phase, in table order, that the caller owns under that
    title: its tasks and deadline give the status; without such a phase the
    status is "NotCompleted".  Phases of other users play no part. *)
Theorem dashboard_uses_last_phase_of_title :
  ∀ (uid : nat) (now : Z) (st : Store) (k : nat) (title : string),
    desired_order !! k = Some title →
    dashboard_data uid now st !! k
    = Some
        match last (filter (λ p, phase_user_id p = uid ∧ phase_title p = title)
                           (phases st)) with
        | Some p =>
            mkStatus (k + 1) title
                     (phase_status (phase_tasks p st) (phase_deadline p) now)
        | None => mkStatus (k + 1) title "NotCompleted"
        end.
Proof. intros uid now st k title. apply dashboard_record_at. Qed.

Lemma dashboard_uses_last_phase_of_title_witness :
  dashboard_data 1 0
    (mkStore []
       [mkPhase 1 "Identify Gaps" None None None 1;
        mkPhase 2 "Identify Gaps" None None None 2;
        mkPhase 3 "Identify Gaps" None None None 1]
       [mkTask 1 "done" true (Some 3) 1; mkTask 2 "open" false (Some 1) 1] [])
    !! 2
  = Some (mkStatus 3 "Identify Gaps" "Completed").
Proof.
  refine (dashboard_uses_last_phase_of_title 1 0
            (mkStore []
               [mkPhase 1 "Identify Gaps" None None None 1;
                mkPhase 2 "Identify Gaps" None None None 2;
                mkPhase 3 "Identify Gaps" None None None 1]
               [mkTask 1 "done" true (Some 3) 1; mkTask 2 "open" false (Some 1) 1] [])
            2 "Identify Gaps" _).
  reflexivity.
Defined.

(** X11.  The status of a phase that is not fully completed, by calendar
    day.  At any moment of day [today]: a deadline before today is overdue;
    a deadline from today up to six days ahead is approaching; a deadline
    seven days ahead is approaching only in the last microsecond of today
    and "NotCompleted" before it; any later deadline is "NotCompleted". *)
Theorem phase_status_by_calendar_day :
  ∀ (ts : list Task) (d today tod : Z),
    ¬ (ts ≠ [] ∧ all_completed ts) →
    (0 ≤ tod < microseconds_per_day)%Z →
    let now := (today * microseconds_per_day + tod)%Z in
    ((d < today)%Z → phase_status ts (Some d) now = "Not Completed (Overdue)")
    ∧ ((today ≤ d ≤ today + 6)%Z →
         phase_status ts (Some d) now = "Not Completed (Deadline Approaching)")
    ∧ ((d = today + 7)%Z →
         phase_status ts (Some d) now
         = if decide (tod = microseconds_per_day - 1)%Z
           then "Not Completed (Deadline Approaching)" else "NotCompleted")
    ∧ ((today + 8 ≤ d)%Z → phase_status ts (Some d) now = "NotCompleted").
Proof.
  intros ts d today tod Hnot Htod now.
  rewrite (phase_status_not_completed _ _ _ Hnot).
  unfold end_of_day, warning_threshold, microseconds_per_day in *. subst now.
  repeat split.
  - intros Hd. by replace (_ <? _)%Z with true by (symmetry; apply Z.ltb_lt; lia).
  - intros Hd. replace (_ <? _)%Z with false by (symmetry; apply Z.ltb_ge; lia).
    by replace (_ <=? _)%Z with true by (symmetry; apply Z.leb_le; lia).
  - intros ->. replace (_ <? _)%Z with false by (symmetry; apply Z.ltb_ge; lia).
    case_decide as Hlast.
    + by replace (_ <=? _)%Z with true by (symmetry; apply Z.leb_le; lia).
    + by replace (_ <=? _)%Z with false by (symmetry; apply Z.leb_gt; lia).
  - intros Hd. replace (_ <? _)%Z with false by (symmetry; apply Z.ltb_ge; lia).
    by replace (_ <=? _)%Z with false by (symmetry; apply Z.leb_gt; lia).
Qed.

Lemma phase_status_by_calendar_day_witness :
  phase_status [mkTask 1 "open" false (Some 1) 1] (Some 107%Z)
               (100 * microseconds_per_day + 5)%Z
  = "NotCompleted".
Proof.
  refine (proj1 (proj2 (proj2 (phase_status_by_calendar_day
            [mkTask 1 "open" false (Some 1) 1] 107 100 5 _ _))) eq_refl).
  - intros [_ H]. inversion H as [|? ? Hc _]. discriminate Hc.
  - by vm_compute.
Defined.

(** ** More on brainstorm saves *)

Lemma fresh_id_not_elem (ids : list nat) : fresh_id ids ∉ ids.
Proof. intros H. apply fresh_id_gt in H. lia. Qed.

(** X12.  Every brainstorm save is stored: the answer is 201 with the key
    of a new entry, which is appended to the entry table with the five
    fields, the chat, the feedback and the flag as sent, owned by the
    caller, under a key no earlier entry has.  Sections and phases are never
    changed, and the task table is not changed either when one of the five
    fields is missing or empty. *)
Theorem save_brainstorm_session_stores_entry :
  ∀ (uid : nat) (data : BrainPayload) (st : Store),
    ∃ e st',
      handle (save_brainstorm_session uid data) st = ((EntryId (entry_id e), 201), st')
      ∧ brain_entries st' = brain_entries st ++ [e]
      ∧ ¬ (entry_id e ∈ (entry_id <$> brain_entries st))
      ∧ e = mkBrainEntry (entry_id e) (fiveW_why data) (fiveW_what data)
                         (fiveW_where data) (fiveW_when data) (fiveW_who data)
                         (bp_messages data) (bp_overall data) (bp_completed data) uid
      ∧ sections st' = sections st
      ∧ phases st' = phases st
      ∧ (all_five data = false → tasks st' = tasks st).
Proof.
  intros uid data st.
  set (e := mkBrainEntry (fresh_id (entry_id <$> brain_entries st))
              (fiveW_why data) (fiveW_what data) (fiveW_where data)
              (fiveW_when data) (fiveW_who data) (bp_messages data)
              (bp_overall data) (bp_completed data) uid).
  exists e, (mkStore (sections st) (phases st)
                     (if all_five data then hook_tasks uid st else tasks st)
                     (brain_entries st ++ [e])).
  split.
  - unfold handle, save_brainstorm_session.
    erewrite req_bind_return by reflexivity.
    destruct (all_five data); [|reflexivity].
    erewrite req_bind_return by apply brainstorm_hook_run.
    reflexivity.
  - cbn [brain_entries sections phases tasks]. repeat split.
    + apply fresh_id_not_elem.
    + by intros ->.
Qed.

(** A save only ever appends under the first "Define Topic & Question"
    phase of the table. *)
Lemma after_save_other_phase st r q :
  (∀ p, first_row (phases_by_title "Define Topic & Question" st) = Some p →
        phase_id p ≠ phase_id q) →
  phase_tasks q (after_save st r) = phase_tasks q st.
Proof.
  intros Hq. destruct r as [uid data]. unfold phase_tasks.
  rewrite after_save_tasks. destruct (all_five data); [|done].
  unfold hook_tasks.
  destruct (first_row (phases_by_title "Define Topic & Question" st)) as [p|]; [|done].
  destruct (brainstorm_tasks p st); [|done].
  rewrite filter_app, filter_cons_False, filter_nil, app_nil_r; [done|].
  cbn. intros [= Heq]. by apply (Hq p).
Qed.

(** X13.  However many brainstorm saves run, by whichever users, the tasks
    of every phase other than the first "Define Topic & Question" phase of
    the table stay as they are; in particular a later phase of that title,
    the caller's own included, never receives the completion task. *)
Theorem brainstorm_saves_touch_first_phase_only :
  ∀ (reqs : list (nat * BrainPayload)) (st : Store) (q : Phase),
    (∀ p, first_row (phases_by_title "Define Topic & Question" st) = Some p →
          phase_id p ≠ phase_id q) →
    phase_tasks q (after_saves reqs st) = phase_tasks q st.
Proof.
  induction reqs as [|r reqs IH]; intros st q Hq; [done|].
  cbn [after_saves foldl]. fold (after_saves reqs (after_save st r)).
  rewrite IH; [by apply after_save_other_phase|].
  intros p. rewrite after_save_target. apply Hq.
Qed.

Lemma brainstorm_saves_touch_first_phase_only_witness :
  let data := mkBrainPayload (Some "why") (Some "what") (Some "where")
                             (Some "when") (Some "who") "[]" "" false in
  let mine := mkPhase 2 "Define Topic & Question" None None None 2 in
  let st := mkStore [] [mkPhase 1 "Define Topic & Question" None None None 1; mine] [] [] in
  phase_tasks mine (after_saves [(2, data); (2, data)] st) = phase_tasks mine st.
Proof.
  intros data mine st.
  refine (brainstorm_saves_touch_first_phase_only [(2, data); (2, data)] st mine _).
  intros p [= <-]. discriminate.
Defined.

(** X14.  A brainstorm save with all five fields, by any user, turns the
    first dashboard stage of the owner of the first "Define Topic &
    Question" phase to "Completed" when that phase had no tasks: the
    completion task it appends is the phase's only task. *)
Theorem brainstorm_save_completes_first_stage :
  ∀ (st : Store) (owner caller : nat) (data : BrainPayload) (now : Z) (p : Phase),
    all_five data = true →
    first_row (phases_by_title "Define Topic & Question" st) = Some p →
    last (filter (λ q, phase_user_id q = owner
                       ∧ phase_title q = "Define Topic & Question") (phases st))
      = Some p →
    phase_tasks p st = [] →
    dashboard_data owner now st !! 0
      ≠ Some (mkStatus 1 "Define Topic & Question" "Completed")
    ∧ dashboard_data owner now (after_save st (caller, data)) !! 0
      = Some (mkStatus 1 "Define Topic & Question" "Completed").
Proof.
  intros st owner caller data now p Hall Hfirst Hlast Hnone.
  rewrite !(dashboard_record_at _ _ _ 0 "Define Topic & Question") by done.
  rewrite after_save_phases, Hlast. split.
  - rewrite Hnone. intros [= H].
    apply phase_status_completed in H as [H _]. done.
  - f_equal. f_equal.
    destruct (hook_step st (after_save st (caller, data)) caller p Hfirst)
      as [(_ & t & Htasks & _ & _ & Hc & Hph & _) | [Hne _]].
    + by rewrite after_save_tasks, Hall.
    + assert (phase_tasks p (after_save st (caller, data)) = [t]) as ->.
      { unfold phase_tasks in *. rewrite Htasks, filter_app, Hnone.
        by rewrite filter_cons_True. }
      unfold phase_status. cbn. by rewrite Hc.
    + exfalso. apply Hne. unfold brainstorm_tasks. by rewrite Hnone.
Qed.

Lemma brainstorm_save_completes_first_stage_witness :
  let data := mkBrainPayload (Some "why") (Some "what") (Some "where")
                             (Some "when") (Some "who") "[]" "" false in
  let p := mkPhase 1 "Define Topic & Question" None None None 1 in
  let st := mkStore [] [p] [] [] in
  dashboard_data 1 0 st !! 0
    ≠ Some (mkStatus 1 "Define Topic & Question" "Completed")
  ∧ dashboard_data 1 0 (after_save st (2, data)) !! 0
    = Some (mkStatus 1 "Define Topic & Question" "Completed").
Proof.
  intros data p st.
  refine (brainstorm_save_completes_first_stage st 1 2 data 0 p _ _ _ _);
    reflexivity.
Defined.

(** ** Loading an entry and setting the progress flag *)

Section BrainProgress.

Variable latest : list BrainEntry → option BrainEntry.
Hypothesis latest_elem : ∀ l e, latest l = Some e → e ∈ l.
Hypothesis latest_none : ∀ l, latest l = None → l = [].

Lemma latest_entry_own uid st e :
  latest_entry latest uid st = Some e →
  e ∈ brain_entries st ∧ entry_user_id e = uid.
Proof.
  intros H. apply latest_elem, list_elem_of_filter in H. tauto.
Qed.

Lemma latest_entry_none uid st :
  latest_entry latest uid st = None →
  ∀ e, e ∈ brain_entries st → entry_user_id e ≠ uid.
Proof.
  intros H e He Hu. apply latest_none in H.
  by refine (filter_nil_not_elem_of _ _ e H _ He).
Qed.

End BrainProgress.

(** X15.  Loading returns an entry of the caller, or nothing exactly when
    the caller has none, and never writes.  Setting the progress flag
    answers 404 and changes nothing when the caller has no entry; otherwise
    it answers with the flag, which becomes the [completed] value of the
    chosen entry of the caller; every entry keeps its place, key, owner and
    contents, entries with another key are untouched, and so are the other
    tables. *)
Theorem brainstorm_progress_sets_one_flag :
  ∀ (latest : list BrainEntry → option BrainEntry),
    (∀ l e, latest l = Some e → e ∈ l) →
    (∀ l, latest l = None → l = []) →
    ∀ (uid : nat) (flag : bool) (st : Store),
      (∃ entry,
         respond (load_brainstorm_session latest uid) st = ((Some entry, 200), st)
         ∧ match entry with
           | Some e => e ∈ brain_entries st ∧ entry_user_id e = uid
           | None => ∀ e, e ∈ brain_entries st → entry_user_id e ≠ uid
           end)
      ∧ ((∀ e, e ∈ brain_entries st → entry_user_id e ≠ uid) →
           respond (complete_brainstorm_step latest uid flag) st = ((Some None, 404), st))
      ∧ (∀ e0, e0 ∈ brain_entries st → entry_user_id e0 = uid →
           ∃ e st',
             respond (complete_brainstorm_step latest uid flag) st
               = ((Some (Some flag), 200), st')
             ∧ e ∈ brain_entries st ∧ entry_user_id e = uid
             ∧ set_entry_completed flag e ∈ brain_entries st'
             ∧ (∀ k x, brain_entries st !! k = Some x →
                  brain_entries st' !! k
                  = Some (if decide (entry_id x = entry_id e)
                          then set_entry_completed flag x else x))
             ∧ sections st' = sections st
             ∧ phases st' = phases st
             ∧ tasks st' = tasks st).
Proof.
  intros latest Helem Hnone uid flag st. split; [|split].
  - exists (latest_entry latest uid st). split; [reflexivity|].
    destruct (latest_entry latest uid st) as [e|] eqn:He.
    + by eapply latest_entry_own.
    + by eapply latest_entry_none.
  - intros Hno. unfold respond, complete_brainstorm_step, query, req_bind.
    cbn [session].
    destruct (latest_entry latest uid st) as [e|] eqn:He; [|done].
    destruct (latest_entry_own latest Helem _ _ _ He) as [Hin Hu].
    by destruct (Hno e Hin).
  - intros e0 He0 Hu0.
    destruct (latest_entry latest uid st) as [e|] eqn:He.
    2: { by destruct (latest_entry_none latest Hnone _ _ He e0 He0). }
    destruct (latest_entry_own latest Helem _ _ _ He) as [Hin Hu].
    exists e. eexists. split.
    { unfold respond, complete_brainstorm_step, query, req_bind.
      cbn [session]. rewrite He. reflexivity. }
    cbn [committed session set_brain_entries brain_entries sections phases tasks].
    split; [done|]. split; [done|]. split.
    { apply list_elem_of_fmap. exists e. split; [|done]. by rewrite decide_True. }
    split; [|done].
    intros k x Hk. by rewrite list_lookup_fmap, Hk.
Qed.

Lemma brainstorm_progress_sets_one_flag_witness :
  let e1 := mkBrainEntry 1 (Some "w") None None None None "[]" "" false 4 in
  let e2 := mkBrainEntry 2 None None None None None "[]" "" false 5 in
  respond (complete_brainstorm_step last 6 true) (mkStore [] [] [] [e1; e2])
  = ((Some None, 404), mkStore [] [] [] [e1; e2]).
Proof.
  intros e1 e2.
  refine (proj1 (proj2 (brainstorm_progress_sets_one_flag last _ _ 6 true
                          (mkStore [] [] [] [e1; e2]))) _).
  - intros l e. apply last_Some_elem_of.
  - intros l. apply last_None.
  - intros e He. cbn [brain_entries] in He.
    repeat (apply elem_of_cons in He as [->|He]); [simpl; lia | simpl; lia |].
    by apply elem_of_nil in He.
Defined.

(** ** Tags *)

Section TagProperties.

Variable strip : string → string.

Implicit Types (st : TagStore) (t : Tag) (d : Document).

Lemma first_row_filter_elem {A} (P : A → Prop) `{!∀ x, Decision (P x)} (l : list A) x :
  first_row (filter P l) = Some x → x ∈ l ∧ P x.
Proof.
  intros Hx. apply head_Some_elem_of, list_elem_of_filter in Hx. tauto.
Qed.

Lemma first_row_filter_none {A} (P : A → Prop) `{!∀ x, Decision (P x)} (l : list A) :
  first_row (filter P l) = None ↔ ∀ x, x ∈ l → ¬ P x.
Proof.
  unfold first_row. rewrite head_None. split.
  - intros Hnil x Hx HP. by refine (filter_nil_not_elem_of _ _ x Hnil HP Hx).
  - intros Hall. induction l as [|y l IH]; [done|].
    rewrite filter_cons_False by (apply Hall; by left).
    apply IH. intros x Hx. apply Hall. by right.
Qed.

Lemma first_row_filter_snoc {A} (P : A → Prop) `{!∀ x, Decision (P x)} (l : list A) x :
  first_row (filter P l) = None → P x → first_row (filter P (l ++ [x])) = Some x.
Proof.
  intros Hn HP. unfold first_row in *. apply head_None in Hn.
  by rewrite filter_app, Hn, filter_cons_True.
Qed.

Lemma insert_tag_some name uid st t st' :
  insert_tag name uid st = Some (t, st') →
  ¬ (name ∈ (tag_name <$> tags st))
  ∧ t = mkTag (fresh_id (tag_id <$> tags st)) name uid
  ∧ st' = mkTagStore (tags st ++ [t]) (document_tags st) (documents st).
Proof.
  unfold insert_tag. case_bool_decide; [done|]. by intros [= <- <-].
Qed.

Lemma insert_tag_none name uid st :
  insert_tag name uid st = None ↔ name ∈ (tag_name <$> tags st).
Proof. unfold insert_tag. case_bool_decide; naive_solver. Qed.

(** X16.  Adding a tag is idempotent: the same request sent again gets the
    same answer, with the same tag key when there is one, and changes
    nothing further. *)
Theorem add_tag_idempotent :
  ∀ (uid : nat) (name : option string) (st : TagStore),
    add_tag strip uid name (add_tag strip uid name st).2
    = ((add_tag strip uid name st).1, (add_tag strip uid name st).2).
Proof.
  intros uid name st. unfold add_tag.
  destruct (bool_decide (strip (default "" name) = "")) eqn:Hname; [done|].
  destruct (first_row (tags_by_name_and_user _ uid st)) as [t|] eqn:Hfirst.
  { cbn [fst snd]. by rewrite Hfirst. }
  destruct (insert_tag _ uid st) as [[t st']|] eqn:Hins.
  - cbn [fst snd].
    apply insert_tag_some in Hins as (_ & Ht & ->).
    unfold tags_by_name_and_user in *. cbn [tags].
    rewrite (first_row_filter_snoc _ _ t Hfirst); [done|]. by rewrite Ht.
  - cbn [fst snd]. by rewrite Hfirst, Hins.
Qed.

(** X17.  Tag names are unique over all users: adding a name that a tag of
    another user holds, while the caller has no tag of that name, fails
    with a server error and stores nothing. *)
Theorem add_tag_name_taken_by_other_user :
  ∀ (uid : nat) (name : option string) (st : TagStore) (other : Tag),
    strip (default "" name) ≠ "" →
    other ∈ tags st →
    tag_name other = strip (default "" name) →
    (∀ t, t ∈ tags st → tag_name t = strip (default "" name) → tag_user_id t ≠ uid) →
    add_tag strip uid name st = ((TagServerError, 500), st).
Proof.
  intros uid name st other Hname Hother Hon Hmine. unfold add_tag.
  rewrite bool_decide_eq_false_2 by done.
  assert (first_row (tags_by_name_and_user (strip (default "" name)) uid st) = None) as ->.
  { apply first_row_filter_none. intros t Ht [Hn Hu]. by apply (Hmine t). }
  assert (insert_tag (strip (default "" name)) uid st = None) as ->; [|done].
  apply insert_tag_none, list_elem_of_fmap. by exists other.
Qed.

End TagProperties.

Lemma add_tag_name_taken_by_other_user_witness :
  add_tag (λ s, s) 2 (Some "reading")
          (mkTagStore [mkTag 1 "reading" 1] [] [])
  = ((TagServerError, 500), mkTagStore [mkTag 1 "reading" 1] [] []).
Proof.
  refine (add_tag_name_taken_by_other_user (λ s, s) 2 (Some "reading")
            (mkTagStore [mkTag 1 "reading" 1] [] []) (mkTag 1 "reading" 1) _ _ _ _).
  - discriminate.
  - by left.
  - reflexivity.
  - intros t Ht _. apply list_elem_of_singleton in Ht as ->. simpl. lia.
Defined.

Section TagAssign.

Variable strip : string → string.

Implicit Types (st : TagStore) (t : Tag) (d : Document).

Lemma assigned_true d t st :
  assigned d t st = true
  ↔ ∃ dt, dt ∈ document_tags st ∧ dt_document_id dt = doc_id d ∧ dt_tag_id dt = tag_id t.
Proof.
  unfold assigned. rewrite bool_decide_eq_true, Exists_exists. done.
Qed.

Lemma assigned_link d t st : assigned d t (link d t st) = true.
Proof.
  apply assigned_true.
  exists (mkDocumentTag (fresh_id (dt_id <$> document_tags st)) (doc_id d) (tag_id t)).
  split; [|done].
  cbn [link document_tags]. apply elem_of_app. right. by left.
Qed.

Lemma assigned_after d t st :
  assigned d t (if assigned d t st then st else link d t st) = true.
Proof. destruct (assigned d t st) eqn:Ha; [done | apply assigned_link]. Qed.

Lemma filter_all {A} (P : A → Prop) `{!∀ x, Decision (P x)} (l : list A) :
  (∀ x, x ∈ l → P x) → filter P l = l.
Proof.
  intros Hall. induction l as [|x l IH]; [done|].
  rewrite filter_cons_True by (apply Hall; by left).
  f_equal. apply IH. intros y Hy. apply Hall. by right.
Qed.

Lemma unlink_link d t st :
  assigned d t st = false → unlink d t (link d t st) = st.
Proof.
  intros Hno. destruct st as [ts dts ds]. unfold unlink, link. cbn. f_equal.
  rewrite filter_app, filter_cons_False, filter_nil, app_nil_r by (cbn; tauto).
  apply filter_all. intros dt Hdt Hpair.
  assert (assigned d t (mkTagStore ts dts ds) = true) as Hyes; [|congruence].
  apply assigned_true. by exists dt.
Qed.

(** X18.  Assigning a tag is idempotent: the same request sent again gets
    the same answer and changes nothing further; a document never carries
    the tag twice through it. *)
Theorem assign_tag_idempotent :
  ∀ (uid : nat) (document_id : option nat) (tag : option string) (st : TagStore),
    assign_tag strip uid document_id tag (assign_tag strip uid document_id tag st).2
    = ((assign_tag strip uid document_id tag st).1,
       (assign_tag strip uid document_id tag st).2).
Proof.
  intros uid document_id tag st. unfold assign_tag.
  destruct (negb (present document_id) || bool_decide (strip (default "" tag) = ""));
    [done|].
  destruct (first_row (documents_by_id_and_user document_id uid st)) as [d|] eqn:Hdoc;
    [|cbn [fst snd]; by rewrite Hdoc].
  destruct (first_row (tags_by_name_and_user (strip (default "" tag)) uid st))
    as [t|] eqn:Htag.
  - cbn [fst snd].
    assert (∀ st2, documents st2 = documents st → tags st2 = tags st →
              first_row (documents_by_id_and_user document_id uid st2) = Some d
              ∧ first_row (tags_by_name_and_user (strip (default "" tag)) uid st2) = Some t)
      as Hsame.
    { intros st2 Hd Ht. unfold documents_by_id_and_user, tags_by_name_and_user in *.
      by rewrite Hd, Ht. }
    destruct (Hsame (if assigned d t st then st else link d t st)) as [-> ->];
      [by destruct (assigned d t st).. |].
    by rewrite assigned_after.
  - destruct (insert_tag (strip (default "" tag)) uid st) as [[t st1]|] eqn:Hins.
    + cbn [fst snd].
      apply insert_tag_some in Hins as (_ & Ht & ->).
      set (st1 := mkTagStore (tags st ++ [t]) (document_tags st) (documents st)).
      assert (first_row (documents_by_id_and_user document_id uid
                           (if assigned d t st1 then st1 else link d t st1)) = Some d) as ->.
      { unfold documents_by_id_and_user in *. by destruct (assigned d t st1). }
      assert (first_row (tags_by_name_and_user (strip (default "" tag)) uid
                           (if assigned d t st1 then st1 else link d t st1)) = Some t) as ->.
      { unfold tags_by_name_and_user in *.
        assert (tags (if assigned d t st1 then st1 else link d t st1) = tags st ++ [t])
          as -> by by destruct (assigned d t st1).
        apply first_row_filter_snoc; [done|]. by rewrite Ht. }
      by rewrite assigned_after.
    + cbn [fst snd]. by rewrite Hdoc, Htag, Hins.
Qed.

(** X19.  After an assignment that answers 200 the caller owns a tag of the
    stripped name, the addressed document is the caller's, and that tag is
    among the tags the document lists. *)
Theorem assign_tag_shows_in_document :
  ∀ (uid : nat) (document_id : option nat) (tag : option string) (st : TagStore),
    (assign_tag strip uid document_id tag st).1.2 = 200 →
    let st' := (assign_tag strip uid document_id tag st).2 in
    ∃ d t,
      d ∈ documents st' ∧ Some (doc_id d) = document_id ∧ doc_user_id d = uid
      ∧ t ∈ tags st' ∧ tag_name t = strip (default "" tag) ∧ tag_user_id t = uid
      ∧ t ∈ document_tags_of d st'.
Proof.
  intros uid document_id tag st. unfold assign_tag.
  destruct (negb (present document_id) || bool_decide (strip (default "" tag) = ""));
    [discriminate|].
  destruct (first_row (documents_by_id_and_user document_id uid st)) as [d|] eqn:Hdoc;
    [|discriminate].
  apply first_row_filter_elem in Hdoc as (Hd & Hdid & Hdu).
  assert (∀ t st1,
            t ∈ tags st1 → documents st1 = documents st →
            tag_name t = strip (default "" tag) → tag_user_id t = uid →
            let st' := if assigned d t st1 then st1 else link d t st1 in
            ∃ d0 t0,
              d0 ∈ documents st' ∧ Some (doc_id d0) = document_id ∧ doc_user_id d0 = uid
              ∧ t0 ∈ tags st' ∧ tag_name t0 = strip (default "" tag) ∧ tag_user_id t0 = uid
              ∧ t0 ∈ document_tags_of d0 st') as Hfin.
  { intros t st1 Ht Hdocs Hn Hu st'. exists d, t.
    assert (tags st' = tags st1) as Htags by (unfold st'; by destruct (assigned d t st1)).
    assert (documents st' = documents st) as Hdocs'
      by (unfold st'; by destruct (assigned d t st1)).
    rewrite Htags, Hdocs'. repeat split; try done.
    pose proof (assigned_after d t st1) as Ha. fold st' in Ha.
    apply assigned_true in Ha as (dt & Hdt & Hdd & Hdtt).
    unfold document_tags_of. apply list_elem_of_bind. exists dt. split.
    - apply list_elem_of_filter. rewrite Htags. by split.
    - by apply list_elem_of_filter. }
  destruct (first_row (tags_by_name_and_user (strip (default "" tag)) uid st))
    as [t|] eqn:Htag.
  - intros _. apply first_row_filter_elem in Htag as (Ht & Hn & Hu).
    cbn [snd]. by apply Hfin.
  - destruct (insert_tag (strip (default "" tag)) uid st) as [[t st1]|] eqn:Hins;
      [|discriminate].
    intros _. apply insert_tag_some in Hins as (_ & -> & ->).
    cbn [snd]. apply Hfin; [|done..]. cbn [tags]. apply elem_of_app. right. by left.
Qed.

End TagAssign.

Lemma assign_tag_shows_in_document_witness :
  let st := mkTagStore [] [] [mkDocument 3 1 "Alpha" false] in
  let st' := (assign_tag (λ s, s) 1 (Some 3) (Some "todo") st).2 in
  ∃ d t,
    d ∈ documents st' ∧ Some (doc_id d) = Some 3 ∧ doc_user_id d = 1
    ∧ t ∈ tags st' ∧ tag_name t = "todo" ∧ tag_user_id t = 1
    ∧ t ∈ document_tags_of d st'.
Proof.
  intros st.
  refine (assign_tag_shows_in_document (λ s, s) 1 (Some 3) (Some "todo") st _).
  reflexivity.
Defined.

Section TagRemove.

Variable strip : string → string.

Implicit Types (st : TagStore) (t : Tag) (d : Document).

Lemma tag_by_id_unique st t uid :
  NoDup (tag_id <$> tags st) → t ∈ tags st → tag_user_id t = uid →
  first_row (tags_by_id_and_user (Some (tag_id t)) uid st) = Some t.
Proof.
  intros Hnd Ht Hu.
  destruct (first_row (tags_by_id_and_user (Some (tag_id t)) uid st)) as [t'|] eqn:Hf.
  - apply first_row_filter_elem in Hf as (Ht' & [= Hid] & _).
    f_equal. by apply (fmap_NoDup_eq tag_id (tags st)).
  - exfalso. unfold tags_by_id_and_user in Hf.
    rewrite first_row_filter_none in Hf. by apply (Hf t).
Qed.

(** X20.  Assign, then remove: when the caller's document did not carry
    the caller's tag before, assigning the tag by name and then removing it
    by key answers 200 both times and restores the store. *)
Theorem assign_then_remove_restores :
  ∀ (uid : nat) (document_id : option nat) (tag : option string) (st : TagStore)
    (d : Document) (t : Tag),
    NoDup (tag_id <$> tags st) →
    present document_id = true →
    strip (default "" tag) ≠ "" →
    first_row (documents_by_id_and_user document_id uid st) = Some d →
    first_row (tags_by_name_and_user (strip (default "" tag)) uid st) = Some t →
    assigned d t st = false →
    let st1 := (assign_tag strip uid document_id tag st).2 in
    (assign_tag strip uid document_id tag st).1.2 = 200
    ∧ assigned d t st1 = true
    ∧ remove_tag_from_document uid document_id (Some (tag_id t)) st1
      = ((TagMsg ("Tag '" +:+ tag_name t +:+ "' removed from document '"
                    +:+ doc_title d +:+ "'"), 200), st).
Proof.
  intros uid document_id tag st d t Hnd Hdoc Hname Hd Ht Hno.
  assert ((assign_tag strip uid document_id tag st)
          = ((TagMsg ("Tag '" +:+ tag_name t +:+ "' assigned to Document '"
                        +:+ doc_title d +:+ "'"), 200), link d t st)) as Hrun.
  { unfold assign_tag. rewrite Hdoc, bool_decide_eq_false_2 by done.
    cbn [negb orb]. by rewrite Hd, Ht, Hno. }
  rewrite Hrun. cbn [fst snd]. split; [done|]. split; [apply assigned_link|].
  unfold remove_tag_from_document.
  assert (first_row (documents_by_id_and_user document_id uid (link d t st)) = Some d)
    as -> by done.
  apply first_row_filter_elem in Ht as (Htin & _ & Htu).
  assert (first_row (tags_by_id_and_user (Some (tag_id t)) uid (link d t st)) = Some t)
    as ->.
  { change (tags_by_id_and_user (Some (tag_id t)) uid (link d t st))
      with (tags_by_id_and_user (Some (tag_id t)) uid st).
    by apply tag_by_id_unique. }
  by rewrite assigned_link, unlink_link.
Qed.

(** X21.  Deleting a tag.  Unless the caller owns a tag with the key the
    answer is 404 and nothing changes.  Otherwise the tag row is gone, no
    association carries its key any more, every other tag and association
    and all documents are as before, and the same request sent again is
    answered 404. *)
Theorem delete_tag_removes_tag_and_links :
  ∀ (uid : nat) (tag_id0 : option nat) (st : TagStore),
    let st' := (delete_tag uid tag_id0 st).2 in
    ((∀ t, t ∈ tags st → Some (tag_id t) = tag_id0 → tag_user_id t ≠ uid) →
       delete_tag uid tag_id0 st
       = ((TagError "Tag not found or no permission", 404), st))
    ∧ (∀ t0, t0 ∈ tags st → Some (tag_id t0) = tag_id0 → tag_user_id t0 = uid →
         (delete_tag uid tag_id0 st).1.2 = 200
         ∧ (∀ t, t ∈ tags st' ↔ t ∈ tags st ∧ Some (tag_id t) ≠ tag_id0)
         ∧ (∀ dt, dt ∈ document_tags st'
                  ↔ dt ∈ document_tags st ∧ Some (dt_tag_id dt) ≠ tag_id0)
         ∧ documents st' = documents st
         ∧ delete_tag uid tag_id0 st'
           = ((TagError "Tag not found or no permission", 404), st')).
Proof.
  intros uid tag_id0 st st'. split.
  - intros Hnone. unfold delete_tag.
    assert (first_row (tags_by_id_and_user tag_id0 uid st) = None) as ->; [|done].
    apply first_row_filter_none. intros t Ht [Hid Hu]. by apply (Hnone t).
  - intros t0 Ht0 Hid0 Hu0. unfold st', delete_tag.
    destruct (first_row (tags_by_id_and_user tag_id0 uid st)) as [t|] eqn:Hfirst.
    2: { exfalso. unfold tags_by_id_and_user in Hfirst.
         rewrite first_row_filter_none in Hfirst. by apply (Hfirst t0). }
    apply first_row_filter_elem in Hfirst as (Ht & Hid & Hu).
    cbn [fst snd tags document_tags documents].
    split; [done|]. split; [|split; [|split; [done|]]].
    + intros t'. rewrite list_elem_of_filter, <- Hid. split.
      * intros [Hne Hin]. split; [done|]. by intros [= ?].
      * intros [Hin Hne]. split; [|done]. intros Heq. apply Hne. by rewrite Heq.
    + intros dt. rewrite list_elem_of_filter, <- Hid. split.
      * intros [Hne Hin]. split; [done|]. by intros [= ?].
      * intros [Hin Hne]. split; [|done]. intros Heq. apply Hne. by rewrite Heq.
    + assert (first_row (tags_by_id_and_user tag_id0 uid
                (mkTagStore (filter (λ t', tag_id t' ≠ tag_id t) (tags st))
                            (filter (λ dt, dt_tag_id dt ≠ tag_id t) (document_tags st))
                            (documents st))) = None) as ->; [|done].
      apply first_row_filter_none. intros t' Ht' [Hid' _].
      cbn [tags] in Ht'. apply list_elem_of_filter in Ht' as [Hne _].
      apply Hne. rewrite <- Hid in Hid'. by injection Hid'.
Qed.

(** X22.  Renaming a tag.  A new name that another tag holds, of whichever
    user, is refused with a server error and nothing changes.  A rename that
    answers 200 changes names only: keys and owners of the tags stay,
    position by position, and associations and documents are untouched. *)
Theorem update_tag_name_keeps_names_unique :
  ∀ (uid : nat) (tag_id0 : option nat) (new_name : option string) (st : TagStore),
    let st' := (update_tag_name strip uid tag_id0 new_name st).2 in
    (∀ t other,
       first_row (tags_by_id_and_user tag_id0 uid st) = Some t →
       present tag_id0 = true →
       other ∈ tags st → tag_id other ≠ tag_id t →
       tag_name other = strip (default "" new_name) →
       strip (default "" new_name) ≠ "" →
       update_tag_name strip uid tag_id0 new_name st = ((TagServerError, 500), st))
    ∧ tag_id <$> tags st' = tag_id <$> tags st
    ∧ tag_user_id <$> tags st' = tag_user_id <$> tags st
    ∧ document_tags st' = document_tags st
    ∧ documents st' = documents st
    ∧ ((update_tag_name strip uid tag_id0 new_name st).1.2 ≠ 200 → st' = st).
Proof.
  intros uid tag_id0 new_name st st'. split.
  - intros t other Ht Hp Hother Hne Hn Hnonempty. unfold update_tag_name.
    rewrite Hp, bool_decide_eq_false_2, Ht by done. cbn [negb orb].
    rewrite bool_decide_eq_true_2; [done|].
    apply Exists_exists. by exists other.
  - unfold st', update_tag_name.
    destruct (negb (present tag_id0) || bool_decide (strip (default "" new_name) = ""));
      [done|].
    destruct (first_row (tags_by_id_and_user tag_id0 uid st)) as [t|]; [|done].
    case_bool_decide; [done|].
    cbn [fst snd tags document_tags documents].
    rewrite <- !list_fmap_compose.
    split; [|split; [|done]]; apply list_fmap_ext; intros k x _; cbn; by case_decide.
Qed.

End TagRemove.

Lemma assign_then_remove_restores_witness :
  let d := mkDocument 3 1 "Alpha" false in
  let t := mkTag 1 "todo" 1 in
  let st := mkTagStore [t] [] [d] in
  let st1 := (assign_tag (λ s, s) 1 (Some 3) (Some "todo") st).2 in
  (assign_tag (λ s, s) 1 (Some 3) (Some "todo") st).1.2 = 200
  ∧ assigned d t st1 = true
  ∧ remove_tag_from_document 1 (Some 3) (Some 1) st1
    = ((TagMsg "Tag 'todo' removed from document 'Alpha'", 200), st).
Proof.
  intros d t st.
  refine (assign_then_remove_restores (λ s, s) 1 (Some 3) (Some "todo") st d t
            _ _ _ _ _ _).
  - apply (bool_decide_unpack _). by vm_compute.
  - reflexivity.
  - discriminate.
  - reflexivity.
  - reflexivity.
  - reflexivity.
Defined.

(** ** The tag tables stay well formed *)

Section TagInvariant.

Variable strip : string → string.

Implicit Types (st : TagStore) (t : Tag) (d : Document).

Lemma tag_wf_insert name uid st t st' :
  tag_wf st → insert_tag name uid st = Some (t, st') → tag_wf st'.
Proof.
  intros (Hid & Hname & Hpair & Hlink) Hins.
  apply insert_tag_some in Hins as (Hfree & -> & ->).
  split; [|split; [|split]]; cbn [tags document_tags documents].
  - rewrite fmap_app. apply NoDup_app. split; [done|]. split; [|apply NoDup_singleton].
    intros i Hi Hi'. apply list_elem_of_singleton in Hi'. cbn in Hi'. subst i.
    by apply fresh_id_not_elem in Hi.
  - rewrite fmap_app. apply NoDup_app. split; [done|]. split; [|apply NoDup_singleton].
    intros n Hn Hn'. apply list_elem_of_singleton in Hn'. cbn in Hn'. by subst n.
  - done.
  - intros dt Hdt. destruct (Hlink dt Hdt) as (t & d & Ht & Hrest).
    exists t, d. split; [|done]. apply elem_of_app. by left.
Qed.

Lemma tag_wf_link st t d :
  tag_wf st → t ∈ tags st → d ∈ documents st → tag_user_id t = doc_user_id d →
  assigned d t st = false → tag_wf (link d t st).
Proof.
  intros (Hid & Hname & Hpair & Hlink) Ht Hd Hu Hno.
  split; [done|]. split; [done|]. split; cbn [link tags document_tags documents].
  - rewrite fmap_app. apply NoDup_app. split; [done|]. split; [|apply NoDup_singleton].
    intros pr Hpr Hpr'. apply list_elem_of_singleton in Hpr'. cbn in Hpr'. subst pr.
    apply list_elem_of_fmap in Hpr as (dt & [= Hd1 Hd2] & Hdt).
    assert (assigned d t st = true) as Hyes; [|congruence].
    apply assigned_true. by exists dt.
  - intros dt Hdt. apply elem_of_app in Hdt as [Hdt|Hdt]; [by apply Hlink|].
    apply list_elem_of_singleton in Hdt as ->. by exists t, d.
Qed.

Lemma tag_wf_unlink st t d : tag_wf st → tag_wf (unlink d t st).
Proof.
  intros (Hid & Hname & Hpair & Hlink).
  split; [done|]. split; [done|]. split; cbn [unlink tags document_tags documents].
  - eapply sublist_NoDup; [exact Hpair|]. apply fmap_sublist, sublist_filter.
  - intros dt [_ Hdt]%list_elem_of_filter. by apply Hlink.
Qed.

Lemma tag_view_wf req st : tag_wf st → tag_wf (tag_step strip st req).
Proof.
  intros Hwf. unfold tag_step.
  destruct req as [uid name | uid di tg | uid di ti | uid di c | uid ti nn | uid ti];
    cbn [tag_view].
  - unfold add_tag. case_bool_decide; [done|].
    destruct (first_row _); [done|].
    destruct (insert_tag _ uid st) as [[t st']|] eqn:Hins; [|done].
    by eapply tag_wf_insert.
  - unfold assign_tag.
    destruct (negb (present di) || bool_decide (strip (default "" tg) = "")); [done|].
    destruct (first_row (documents_by_id_and_user di uid st)) as [d|] eqn:Hd; [|done].
    apply first_row_filter_elem in Hd as (Hd & _ & Hdu).
    assert (∀ t st1, tag_wf st1 → t ∈ tags st1 → documents st1 = documents st →
              tag_user_id t = uid →
              tag_wf (if assigned d t st1 then st1 else link d t st1)) as Hfin.
    { intros t st1 Hwf1 Ht Hdocs Hu. destruct (assigned d t st1) eqn:Ha; [done|].
      apply tag_wf_link; [done | done | by rewrite Hdocs | congruence | done]. }
    destruct (first_row (tags_by_name_and_user _ uid st)) as [t|] eqn:Ht.
    + apply first_row_filter_elem in Ht as (Ht & _ & Hu). cbn [snd]. by apply Hfin.
    + destruct (insert_tag _ uid st) as [[t st1]|] eqn:Hins; [|done].
      cbn [snd]. pose proof (tag_wf_insert _ _ _ _ _ Hwf Hins) as Hwf1.
      apply insert_tag_some in Hins as (_ & -> & ->).
      apply Hfin; [done | | done | done]. cbn [tags]. apply elem_of_app. right. by left.
  - unfold remove_tag_from_document.
    destruct (first_row (documents_by_id_and_user di uid st)) as [d|]; [|done].
    destruct (first_row (tags_by_id_and_user ti uid st)) as [t|]; [|done].
    destruct (assigned d t st); [|done]. by apply tag_wf_unlink.
  - unfold mark_document_complete.
    destruct (first_row (documents_by_id_and_user di uid st)) as [d|]; [|done].
    destruct Hwf as (Hid & Hname & Hpair & Hlink).
    split; [done|]. split; [done|]. split; [done|].
    cbn [snd tags document_tags documents]. intros dt Hdt.
    destruct (Hlink dt Hdt) as (t & d0 & Ht & Hd0 & H1 & H2 & H3).
    exists t.
    exists (if decide (doc_id d0 = doc_id d)
            then mkDocument (doc_id d0) (doc_user_id d0) (doc_title d0) c else d0).
    split; [done|]. split.
    { apply list_elem_of_fmap. by exists d0. }
    by case_decide.
  - unfold update_tag_name.
    destruct (negb (present ti) || bool_decide (strip (default "" nn) = "")); [done|].
    destruct (first_row (tags_by_id_and_user ti uid st)) as [t|] eqn:Ht; [|done].
    case_bool_decide as Hclash; [done|].
    apply first_row_filter_elem in Ht as (Ht & _ & _).
    destruct Hwf as (Hid & Hname & Hpair & Hlink).
    cbn [snd].
    set (f := λ x : Tag, if decide (tag_id x = tag_id t)
                         then mkTag (tag_id x) (strip (default "" nn)) (tag_user_id x)
                         else x).
    assert (∀ x, tag_id (f x) = tag_id x ∧ tag_user_id (f x) = tag_user_id x) as Hf.
    { intros x. unfold f. by case_decide. }
    split; [|split; [|split]]; cbn [tags document_tags documents].
    + rewrite <- list_fmap_compose.
      erewrite list_fmap_ext; [exact Hid|]. intros k x _. apply Hf.
    + apply NoDup_fmap_2_strong.
      * intros x y Hx Hy Hxy.
        apply list_elem_of_fmap in Hx as (x0 & -> & Hx0).
        apply list_elem_of_fmap in Hy as (y0 & -> & Hy0).
        assert (x0 = y0) as ->; [|done].
        unfold f in Hxy.
        destruct (decide (tag_id x0 = tag_id t)) as [Hx0t|Hx0t];
          destruct (decide (tag_id y0 = tag_id t)) as [Hy0t|Hy0t]; cbn in Hxy.
        -- apply (fmap_NoDup_eq tag_id (tags st)); [done..|congruence].
        -- exfalso. apply Hclash, Exists_exists. by exists y0.
        -- exfalso. apply Hclash, Exists_exists. by exists x0.
        -- by apply (fmap_NoDup_eq tag_name (tags st)).
      * apply (NoDup_fmap_1 tag_id). rewrite <- list_fmap_compose.
        erewrite list_fmap_ext; [exact Hid|]. intros k x _. apply Hf.
    + done.
    + intros dt Hdt. destruct (Hlink dt Hdt) as (t0 & d0 & Ht0 & Hd0 & H1 & H2 & H3).
      exists (f t0), d0. destruct (Hf t0) as [-> ->].
      split; [|done]. apply list_elem_of_fmap. by exists t0.
  - unfold delete_tag.
    destruct (first_row (tags_by_id_and_user ti uid st)) as [t|]; [|done].
    destruct Hwf as (Hid & Hname & Hpair & Hlink).
    cbn [snd]. split; [|split; [|split]]; cbn [tags document_tags documents].
    + eapply sublist_NoDup; [exact Hid|]. apply fmap_sublist, sublist_filter.
    + eapply sublist_NoDup; [exact Hname|]. apply fmap_sublist, sublist_filter.
    + eapply sublist_NoDup; [exact Hpair|]. apply fmap_sublist, sublist_filter.
    + intros dt [Hne Hdt]%list_elem_of_filter.
      destruct (Hlink dt Hdt) as (t0 & d0 & Ht0 & Hd0 & H1 & H2 & H3).
      exists t0, d0. split; [|done]. apply list_elem_of_filter. split; [|done].
      by rewrite H1.
Qed.

End TagInvariant.

(** X23.  Starting without tags, no series of tag requests (add, assign,
    remove, mark complete, rename, delete), by whichever users and with
    whatever payloads, breaks the invariants of the tag tables: tag keys and
    tag names stay unique, no document carries a tag twice, and every
    association links an existing tag to an existing document of the same
    owner. *)
Theorem tag_requests_keep_well_formed :
  ∀ (strip : string → string) (reqs : list TagRequest) (docs : list Document),
    tag_wf (foldl (tag_step strip) (mkTagStore [] [] docs) reqs).
Proof.
  intros strip reqs docs.
  assert (∀ st, tag_wf st → tag_wf (foldl (tag_step strip) st reqs)) as Hall.
  { induction reqs as [|req reqs IH]; intros st Hwf; [done|].
    cbn [foldl]. by apply IH, tag_view_wf. }
  apply Hall. split; [constructor|]. split; [constructor|]. split; [constructor|].
  intros dt Hdt. by apply elem_of_nil in Hdt.
Qed.

(** ** Tag requests do not reach other users *)

Lemma filter_fmap_fixed {A} (P : A → Prop) `{!∀ x, Decision (P x)}
    (f : A → A) (l : list A) :
  (∀ x, x ∈ l → P x → f x = x) →
  (∀ x, x ∈ l → ¬ P x → ¬ P (f x)) →
  filter P (f <$> l) = filter P l.
Proof.
  intros Hfix Hout. induction l as [|x l IH]; [done|].
  cbn [fmap list_fmap]. rewrite !filter_cons.
  rewrite IH.
  2: { intros y Hy. apply Hfix. by right. }
  2: { intros y Hy. apply Hout. by right. }
  destruct (decide (P x)) as [Hx|Hx].
  - rewrite (Hfix x) by (done || by left). by rewrite decide_True.
  - rewrite decide_False; [done|]. apply Hout; [by left | done].
Qed.

Lemma filter_filter_implied {A} (P Q : A → Prop)
    `{!∀ x, Decision (P x)} `{!∀ x, Decision (Q x)} (l : list A) :
  (∀ x, x ∈ l → P x → Q x) → filter P (filter Q l) = filter P l.
Proof.
  intros Himp. induction l as [|x l IH]; [done|].
  rewrite (filter_cons Q), (filter_cons P).
  rewrite <- IH by (intros y Hy; apply Himp; by right).
  destruct (decide (Q x)) as [HQ|HQ].
  - by rewrite filter_cons.
  - rewrite decide_False; [done|]. intros HP. apply HQ, Himp; [by left | done].
Qed.

Section TagIsolation.

Variable strip : string → string.

Implicit Types (st : TagStore) (t : Tag) (d : Document).

Lemma insert_tag_others name uid st t st' :
  insert_tag name uid st = Some (t, st') →
  filter (λ x, tag_user_id x ≠ uid) (tags st') = filter (λ x, tag_user_id x ≠ uid) (tags st)
  ∧ document_tags st' = document_tags st
  ∧ documents st' = documents st.
Proof.
  intros Hins. apply insert_tag_some in Hins as (_ & -> & ->).
  cbn [tags document_tags documents]. split; [|done].
  rewrite filter_app, filter_cons_False, filter_nil, app_nil_r; [done|].
  cbn. tauto.
Qed.

Lemma link_others d t st uid dt d' :
  NoDup (doc_id <$> documents st) →
  d ∈ documents st → doc_user_id d = uid →
  d' ∈ documents st → doc_id d' = dt_document_id dt → doc_user_id d' ≠ uid →
  dt ∈ document_tags (link d t st) ↔ dt ∈ document_tags st.
Proof.
  intros Hnd Hd Hu Hd' Hid' Hu'. cbn [link document_tags].
  rewrite elem_of_app, list_elem_of_singleton. split; [|tauto].
  intros [Hin | ->]; [done|]. exfalso. apply Hu'. rewrite <- Hu. f_equal.
  by apply (fmap_NoDup_eq doc_id (documents st)).
Qed.

(** X24.  Isolation of the tag requests.  With well-formed tables and
    unique document keys, whatever a user requests, the tags of every other
    user, the documents of every other user and the associations on the
    documents of every other user are after the request what they were
    before it. *)
Theorem tag_requests_leave_other_users :
  ∀ (req : TagRequest) (st : TagStore),
    tag_wf st →
    NoDup (doc_id <$> documents st) →
    let uid := request_user req in
    let st' := tag_step strip st req in
    filter (λ t, tag_user_id t ≠ uid) (tags st')
      = filter (λ t, tag_user_id t ≠ uid) (tags st)
    ∧ filter (λ d, doc_user_id d ≠ uid) (documents st')
      = filter (λ d, doc_user_id d ≠ uid) (documents st)
    ∧ (∀ dt d, d ∈ documents st → doc_id d = dt_document_id dt →
               doc_user_id d ≠ uid →
               (dt ∈ document_tags st' ↔ dt ∈ document_tags st)).
Proof.
  intros req st Hwf Hdocs. pose proof Hwf as (Hid & Hname & Hpair & Hlink).
  unfold tag_step.
  destruct req as [uid name | uid di tg | uid di ti | uid di c | uid ti nn | uid ti];
    cbn [tag_view request_user].
  - unfold add_tag. case_bool_decide; [done|].
    destruct (first_row _); [done|].
    destruct (insert_tag _ uid st) as [[t st']|] eqn:Hins; [|done].
    destruct (insert_tag_others _ _ _ _ _ Hins) as (Ht & Hdt & Hd).
    cbn [snd]. by rewrite Ht, Hdt, Hd.
  - unfold assign_tag.
    destruct (negb (present di) || bool_decide (strip (default "" tg) = "")); [done|].
    destruct (first_row (documents_by_id_and_user di uid st)) as [d|] eqn:Hd; [|done].
    apply first_row_filter_elem in Hd as (Hd & _ & Hdu).
    assert (∀ t st1,
              filter (λ x, tag_user_id x ≠ uid) (tags st1)
                = filter (λ x, tag_user_id x ≠ uid) (tags st) →
              document_tags st1 = document_tags st →
              documents st1 = documents st →
              let st' := if assigned d t st1 then st1 else link d t st1 in
              filter (λ x, tag_user_id x ≠ uid) (tags st')
                = filter (λ x, tag_user_id x ≠ uid) (tags st)
              ∧ filter (λ x, doc_user_id x ≠ uid) (documents st')
                = filter (λ x, doc_user_id x ≠ uid) (documents st)
              ∧ (∀ dt d', d' ∈ documents st → doc_id d' = dt_document_id dt →
                          doc_user_id d' ≠ uid →
                          (dt ∈ document_tags st' ↔ dt ∈ document_tags st))) as Hfin.
    { intros t st1 Ht Hdt Hds st'. unfold st'.
      destruct (assigned d t st1); [by rewrite Ht, Hdt, Hds|].
      cbn [link tags documents]. rewrite Ht, Hds. split; [done|]. split; [done|].
      intros dt d' Hd' Hid' Hu'. rewrite <- Hdt.
      apply (link_others d t st1 uid dt d'); by rewrite ?Hds. }
    destruct (first_row (tags_by_name_and_user _ uid st)) as [t|].
    + cbn [snd]. by apply Hfin.
    + destruct (insert_tag _ uid st) as [[t st1]|] eqn:Hins; [|done].
      destruct (insert_tag_others _ _ _ _ _ Hins) as (Ht & Hdt & Hds).
      cbn [snd]. by apply Hfin.
  - unfold remove_tag_from_document.
    destruct (first_row (documents_by_id_and_user di uid st)) as [d|] eqn:Hd; [|done].
    destruct (first_row (tags_by_id_and_user ti uid st)) as [t|]; [|done].
    destruct (assigned d t st); [|done].
    apply first_row_filter_elem in Hd as (Hd & _ & Hdu).
    cbn [snd unlink tags documents document_tags]. split; [done|]. split; [done|].
    intros dt d' Hd' Hid' Hu'. rewrite list_elem_of_filter. split; [tauto|].
    intros Hdt. split; [|done]. intros [Hdd _]. apply Hu'. rewrite <- Hdu. f_equal.
    apply (fmap_NoDup_eq doc_id (documents st)); [done..|congruence].
  - unfold mark_document_complete.
    destruct (first_row (documents_by_id_and_user di uid st)) as [d|] eqn:Hd; [|done].
    apply first_row_filter_elem in Hd as (Hd & _ & Hdu).
    cbn [snd tags documents document_tags]. split; [done|]. split; [|done].
    apply filter_fmap_fixed.
    + intros x Hx Hxu. rewrite decide_False; [done|]. intros Hxd. apply Hxu.
      rewrite <- Hdu. f_equal. by apply (fmap_NoDup_eq doc_id (documents st)).
    + intros x _ Hxu. by case_decide.
  - unfold update_tag_name.
    destruct (negb (present ti) || bool_decide (strip (default "" nn) = "")); [done|].
    destruct (first_row (tags_by_id_and_user ti uid st)) as [t|] eqn:Ht; [|done].
    case_bool_decide; [done|].
    apply first_row_filter_elem in Ht as (Ht & _ & Htu).
    cbn [snd tags documents document_tags]. split; [|done].
    apply filter_fmap_fixed.
    + intros x Hx Hxu. rewrite decide_False; [done|]. intros Hxt. apply Hxu.
      rewrite <- Htu. f_equal. by apply (fmap_NoDup_eq tag_id (tags st)).
    + intros x _ Hxu. by case_decide.
  - unfold delete_tag.
    destruct (first_row (tags_by_id_and_user ti uid st)) as [t|] eqn:Ht; [|done].
    apply first_row_filter_elem in Ht as (Ht & _ & Htu).
    cbn [snd tags documents document_tags]. split; [|split; [done|]].
    + apply filter_filter_implied. intros x Hx Hxu Hxt. apply Hxu.
      rewrite <- Htu. f_equal. by apply (fmap_NoDup_eq tag_id (tags st)).
    + intros dt d' Hd' Hid' Hu'. rewrite list_elem_of_filter. split; [tauto|].
      intros Hdt. split; [|done]. intros Hdtt.
      destruct (Hlink dt Hdt) as (t0 & d0 & Ht0 & Hd0 & H1 & H2 & H3).
      apply Hu'.
      assert (t0 = t) as -> by (apply (fmap_NoDup_eq tag_id (tags st)); congruence).
      assert (d' = d0) as -> by (apply (fmap_NoDup_eq doc_id (documents st)); congruence).
      congruence.
Qed.

End TagIsolation.

Lemma tag_isolation_example_wf :
  tag_wf (mkTagStore [mkTag 1 "a" 1; mkTag 2 "b" 2]
                     [mkDocumentTag 1 10 1; mkDocumentTag 2 20 2]
                     [mkDocument 10 1 "Mine" false; mkDocument 20 2 "Theirs" false]).
Proof.
  split; [|split; [|split]]; cbn [tags document_tags documents].
  - apply (bool_decide_unpack _). by vm_compute.
  - apply (bool_decide_unpack _). by vm_compute.
  - apply (bool_decide_unpack _). by vm_compute.
  - intros dt Hdt. repeat (apply elem_of_cons in Hdt as [->|Hdt]).
    + exists (mkTag 1 "a" 1), (mkDocument 10 1 "Mine" false).
      repeat split; [by left | by left].
    + exists (mkTag 2 "b" 2), (mkDocument 20 2 "Theirs" false).
      repeat split; [right; by left | right; by left].
    + by apply elem_of_nil in Hdt.
Qed.

Lemma tag_requests_leave_other_users_witness :
  let st := mkTagStore [mkTag 1 "a" 1; mkTag 2 "b" 2]
                       [mkDocumentTag 1 10 1; mkDocumentTag 2 20 2]
                       [mkDocument 10 1 "Mine" false; mkDocument 20 2 "Theirs" false] in
  let st' := tag_step (λ s, s) st (DeleteTag 1 (Some 1)) in
  filter (λ t, tag_user_id t ≠ 1) (tags st') = filter (λ t, tag_user_id t ≠ 1) (tags st)
  ∧ filter (λ d, doc_user_id d ≠ 1) (documents st')
    = filter (λ d, doc_user_id d ≠ 1) (documents st)
  ∧ (∀ dt d, d ∈ documents st → doc_id d = dt_document_id dt → doc_user_id d ≠ 1 →
             (dt ∈ document_tags st' ↔ dt ∈ document_tags st)).
Proof.
  intros st.
  refine (tag_requests_leave_other_users (λ s, s) (DeleteTag 1 (Some 1)) st _ _).
  - exact tag_isolation_example_wf.
  - apply (bool_decide_unpack _). by vm_compute.
Defined.

(** ** Tag statistics *)

Section TagStats.

Implicit Types (st : TagStore) (t : Tag).

Lemma filter_none {A} (P : A → Prop) `{!∀ x, Decision (P x)} (l : list A) :
  (∀ x, x ∈ l → ¬ P x) → filter P l = [].
Proof.
  intros Hall. induction l as [|y l IH]; [done|].
  rewrite filter_cons_False by (apply Hall; by left).
  apply IH. intros x Hx. apply Hall. by right.
Qed.

Lemma tag_rows_length dts t :
  length (tag_rows dts t) = length (filter (λ dt, tag_id t = dt_tag_id dt) dts).
Proof.
  unfold tag_rows. induction (filter _ dts) as [|dt l IH]; [done|].
  cbn. by rewrite IH.
Qed.

Lemma tag_rows_fst dts t r : r ∈ tag_rows dts t → r.1 = t.
Proof.
  unfold tag_rows. intros (dt & Hr & _)%list_elem_of_bind.
  by apply list_elem_of_singleton in Hr as ->.
Qed.

Lemma rows_of_name_none dts (l : list Tag) (n : string) :
  ¬ (n ∈ (tag_name <$> l)) →
  filter (λ r, tag_name r.1 = n) (l ≫= tag_rows dts) = [].
Proof.
  intros Hn. induction l as [|x l IH]; [done|].
  cbn [mbind list_bind]. rewrite filter_app, IH.
  2: { intros Hin. apply Hn. by right. }
  rewrite app_nil_r. apply filter_none.
  intros r Hr Hname. apply tag_rows_fst in Hr. apply Hn.
  rewrite <- Hname, Hr. by left.
Qed.

Lemma rows_of_name_count dts (l : list Tag) t :
  NoDup (tag_name <$> l) → t ∈ l →
  length (filter (λ r, tag_name r.1 = tag_name t) (l ≫= tag_rows dts))
  = length (filter (λ dt, tag_id t = dt_tag_id dt) dts).
Proof.
  induction l as [|x l IH]; intros Hnd Ht; [by apply elem_of_nil in Ht|].
  cbn [fmap list_fmap] in Hnd. apply NoDup_cons in Hnd as [Hx Hl].
  cbn [mbind list_bind]. rewrite filter_app, length_app.
  apply elem_of_cons in Ht as [->|Ht].
  - rewrite (rows_of_name_none dts l) by done.
    rewrite filter_all, tag_rows_length; [cbn; lia|].
    intros r Hr. by rewrite (tag_rows_fst _ _ _ Hr).
  - rewrite IH by done.
    assert (filter (λ r, tag_name r.1 = tag_name t) (tag_rows dts x) = []) as ->; [|done].
    apply filter_none.
    intros r Hr Hname. apply tag_rows_fst in Hr. apply Hx.
    rewrite <- Hr, Hname. by apply list_elem_of_fmap_2.
Qed.

End TagStats.

Lemma joined_tags_elem uid st r :
  r ∈ joined_tags uid st
  ↔ r.1 ∈ tags st ∧ tag_user_id r.1 = uid
    ∧ r.2 ∈ document_tags st ∧ tag_id r.1 = dt_tag_id r.2.
Proof.
  unfold joined_tags. rewrite list_elem_of_bind. split.
  - intros (t & Hr & Ht). apply list_elem_of_filter in Ht as [Hu Ht].
    apply list_elem_of_bind in Hr as (dt & Hr & Hdt).
    apply list_elem_of_filter in Hdt as [Hid Hdt].
    apply list_elem_of_singleton in Hr as ->. done.
  - intros (Ht & Hu & Hdt & Hid). destruct r as [t dt]. cbn in *.
    exists t. split; [|by apply list_elem_of_filter].
    apply list_elem_of_bind. exists dt. split; [by left|].
    by apply list_elem_of_filter.
Qed.

Lemma stats_item_elem uid st (n : string) (k : nat) :
  (n, k) ∈ (λ n, (n, length (filter (λ r : Tag * DocumentTag, tag_name r.1 = n)
                               (joined_tags uid st))))
             <$> remove_dups ((λ r, tag_name r.1) <$> joined_tags uid st)
  ↔ (∃ r, r ∈ joined_tags uid st ∧ tag_name r.1 = n)
    ∧ k = length (filter (λ r, tag_name r.1 = n) (joined_tags uid st)).
Proof.
  rewrite list_elem_of_fmap. split.
  - intros (n' & [= <- ->] & Hn). apply elem_of_remove_dups, list_elem_of_fmap in Hn.
    destruct Hn as (r & -> & Hr). split; [by exists r | done].
  - intros [(r & Hr & <-) ->]. exists (tag_name r.1). split; [done|].
    apply elem_of_remove_dups, list_elem_of_fmap. by exists r.
Qed.

Lemma joined_count uid st t :
  NoDup (tag_name <$> tags st) → t ∈ tags st → tag_user_id t = uid →
  length (filter (λ r, tag_name r.1 = tag_name t) (joined_tags uid st))
  = length (filter (λ dt, tag_id t = dt_tag_id dt) (document_tags st)).
Proof.
  intros Hnd Ht Hu.
  change (joined_tags uid st)
    with (filter (λ t, tag_user_id t = uid) (tags st) ≫= tag_rows (document_tags st)).
  apply rows_of_name_count.
  - eapply sublist_NoDup; [exact Hnd|]. apply fmap_sublist, sublist_filter.
  - by apply list_elem_of_filter.
Qed.

(** X25.  Tag statistics.  With unique tag names the answer holds, for
    every tag of the caller that some document carries, one item with the
    tag's name and the number of its associations; a tag that no document
    carries is not listed; and nothing else is listed.  The store is not
    changed. *)
Theorem tag_stats_counts_associations :
  ∀ (uid : nat) (st : TagStore),
    NoDup (tag_name <$> tags st) →
    ∃ items,
      tag_stats uid st = ((TagStats items, 200), st)
      ∧ (∀ t, t ∈ tags st → tag_user_id t = uid →
           let c := length (filter (λ dt, tag_id t = dt_tag_id dt) (document_tags st)) in
           (0 < c → (tag_name t, c) ∈ items)
           ∧ (c = 0 → ∀ k, ¬ ((tag_name t, k) ∈ items)))
      ∧ (∀ n k, (n, k) ∈ items →
           ∃ t, t ∈ tags st ∧ tag_user_id t = uid ∧ tag_name t = n ∧ 0 < k
                ∧ k = length (filter (λ dt, tag_id t = dt_tag_id dt) (document_tags st))).
Proof.
  intros uid st Hnd. eexists. split; [reflexivity|].
  assert (∀ n k,
            (n, k) ∈ (λ n, (n, length (filter (λ r : Tag * DocumentTag, tag_name r.1 = n)
                                         (joined_tags uid st))))
                       <$> remove_dups ((λ r, tag_name r.1) <$> joined_tags uid st) →
            ∃ t, t ∈ tags st ∧ tag_user_id t = uid ∧ tag_name t = n ∧ 0 < k
                 ∧ k = length (filter (λ dt, tag_id t = dt_tag_id dt) (document_tags st)))
    as Hitems.
  { intros n k [(r & Hr & Hn) ->]%stats_item_elem.
    apply joined_tags_elem in Hr as (Ht & Hu & Hdt & Hid).
    exists r.1. split; [done|]. split; [done|]. split; [done|].
    rewrite <- Hn, joined_count by done. split; [|done].
    assert (r.2 ∈ filter (λ dt, tag_id r.1 = dt_tag_id dt) (document_tags st)) as Hin
      by by apply list_elem_of_filter.
    destruct (filter _ (document_tags st)); [by apply elem_of_nil in Hin | cbn; lia]. }
  split; [|exact Hitems].
  intros t Ht Hu c. split.
  - intros Hc. apply stats_item_elem. split.
    + unfold c in Hc.
      destruct (filter (λ dt, tag_id t = dt_tag_id dt) (document_tags st))
        as [|dt l] eqn:Hf; [cbn in Hc; lia|].
      assert (dt ∈ filter (λ dt, tag_id t = dt_tag_id dt) (document_tags st)) as Hdt
        by (rewrite Hf; by left).
      apply list_elem_of_filter in Hdt as [Hid Hdt].
      exists (t, dt). split; [|done]. by apply joined_tags_elem.
    + unfold c. by rewrite joined_count.
  - intros Hc k Hk. destruct (Hitems _ _ Hk) as (t' & Ht' & Hu' & Hn' & Hpos & Hk').
    assert (t' = t) as -> by by apply (fmap_NoDup_eq tag_name (tags st)).
    unfold c in Hc. lia.
Qed.

Lemma tag_stats_counts_associations_witness :
  let st := mkTagStore [mkTag 1 "a" 1; mkTag 2 "b" 1; mkTag 3 "c" 2]
                       [mkDocumentTag 1 10 1; mkDocumentTag 2 11 1;
                        mkDocumentTag 3 20 3] [] in
  ∃ items,
    tag_stats 1 st = ((TagStats items, 200), st)
    ∧ (∀ t, t ∈ tags st → tag_user_id t = 1 →
         let c := length (filter (λ dt, tag_id t = dt_tag_id dt) (document_tags st)) in
         (0 < c → (tag_name t, c) ∈ items)
         ∧ (c = 0 → ∀ k, ¬ ((tag_name t, k) ∈ items)))
    ∧ (∀ n k, (n, k) ∈ items →
         ∃ t, t ∈ tags st ∧ tag_user_id t = 1 ∧ tag_name t = n ∧ 0 < k
              ∧ k = length (filter (λ dt, tag_id t = dt_tag_id dt) (document_tags st))).
Proof.
  intros st. refine (tag_stats_counts_associations 1 st _).
  apply (bool_decide_unpack _). by vm_compute.
Defined.

(** ** Removing, marking and listing *)

Lemma assigned_unlink (d : Document) (t : Tag) (st : TagStore) :
  assigned d t (unlink d t st) = false.
Proof.
  destruct (assigned d t (unlink d t st)) eqn:Ha; [|done].
  apply assigned_true in Ha as (dt & Hdt & Hd & Ht).
  cbn [unlink document_tags] in Hdt. apply list_elem_of_filter in Hdt as [Hno _].
  by destruct Hno.
Qed.

(** X26.  Removing a tag from a document only ever drops associations:
    tags and documents stay, the associations left are a part of the old
    ones, nothing changes unless the answer is 200, and after a 200 the same
    request is answered 400, the tag being no longer assigned. *)
Theorem remove_tag_from_document_once :
  ∀ (uid : nat) (document_id tag_id0 : option nat) (st : TagStore),
    let r := remove_tag_from_document uid document_id tag_id0 st in
    tags r.2 = tags st
    ∧ documents r.2 = documents st
    ∧ document_tags r.2 `sublist_of` document_tags st
    ∧ (r.1.2 ≠ 200 → r.2 = st)
    ∧ (r.1.2 = 200 →
         remove_tag_from_document uid document_id tag_id0 r.2
         = ((TagError "Tag was not assigned to the document", 400), r.2)).
Proof.
  intros uid document_id tag_id0 st. cbn zeta. unfold remove_tag_from_document.
  destruct (first_row (documents_by_id_and_user document_id uid st)) as [d|] eqn:Hd;
    [|by repeat split].
  destruct (first_row (tags_by_id_and_user tag_id0 uid st)) as [t|] eqn:Ht;
    [|by repeat split].
  destruct (assigned d t st) eqn:Ha; [|by repeat split].
  cbn [fst snd]. split; [done|]. split; [done|].
  split; [apply sublist_filter|]. split; [done|]. intros _.
  change (documents_by_id_and_user document_id uid (unlink d t st))
    with (documents_by_id_and_user document_id uid st).
  change (tags_by_id_and_user tag_id0 uid (unlink d t st))
    with (tags_by_id_and_user tag_id0 uid st).
  by rewrite Hd, Ht, assigned_unlink.
Qed.

(** X27.  Marking a document.  With unique document keys, marking a
    document of the caller answers 200, stores the flag that was sent on that
    document and leaves its key, owner and title; every other document, the
    tags and the associations are untouched; and marking again with the same
    flag changes nothing further. *)
Theorem mark_document_complete_sets_flag :
  ∀ (uid : nat) (document_id : option nat) (completed : bool) (st : TagStore)
    (d : Document),
    NoDup (doc_id <$> documents st) →
    d ∈ documents st → Some (doc_id d) = document_id → doc_user_id d = uid →
    let r := mark_document_complete uid document_id completed st in
    r.1.2 = 200
    ∧ mkDocument (doc_id d) uid (doc_title d) completed ∈ documents r.2
    ∧ (∀ k x, documents st !! k = Some x → doc_id x ≠ doc_id d →
              documents r.2 !! k = Some x)
    ∧ tags r.2 = tags st
    ∧ document_tags r.2 = document_tags st
    ∧ (mark_document_complete uid document_id completed r.2).2 = r.2.
Proof.
  intros uid document_id completed st d Hnd Hd Hid Hu. cbn zeta.
  assert (first_row (documents_by_id_and_user document_id uid st) = Some d) as Hfirst.
  { destruct (first_row (documents_by_id_and_user document_id uid st)) as [d'|] eqn:Hf.
    - apply first_row_filter_elem in Hf as (Hd' & Hid' & _).
      f_equal. apply (fmap_NoDup_eq doc_id (documents st)); [done..|congruence].
    - exfalso. unfold documents_by_id_and_user in Hf.
      rewrite first_row_filter_none in Hf. by apply (Hf d). }
  set (f := λ x : Document, if decide (doc_id x = doc_id d)
                            then mkDocument (doc_id x) (doc_user_id x) (doc_title x) completed
                            else x).
  assert (mark_document_complete uid document_id completed st
          = ((TagMsg ("Document marked as "
                        +:+ (if completed then "completed" else "incomplete")), 200),
             mkTagStore (tags st) (document_tags st) (f <$> documents st))) as Hrun.
  { unfold mark_document_complete. by rewrite Hfirst. }
  rewrite Hrun. cbn [fst snd tags document_tags documents].
  split; [done|]. split; [|split; [|split; [done|split; [done|]]]].
  - apply list_elem_of_fmap. exists d. split; [|done].
    unfold f. rewrite decide_True by done. by rewrite Hu.
  - intros k x Hk Hne. rewrite list_lookup_fmap, Hk. cbn. unfold f.
    by rewrite decide_False.
  - unfold mark_document_complete.
    assert (first_row (documents_by_id_and_user document_id uid
              (mkTagStore (tags st) (document_tags st) (f <$> documents st)))
            = Some (f d)) as ->.
    { unfold documents_by_id_and_user, first_row in *. cbn [documents].
      rewrite filter_fmap_commute, head_fmap_list, Hfirst; [done|].
      intros x. unfold f. by case_decide. }
    cbn [snd documents tags document_tags]. f_equal.
    rewrite <- list_fmap_compose. apply list_fmap_ext. intros k x _.
    unfold compose, f. cbn.
    assert (doc_id (if decide (doc_id d = doc_id d)
                    then mkDocument (doc_id d) (doc_user_id d) (doc_title d) completed
                    else d) = doc_id d) as Hfd by by case_decide.
    destruct (decide (doc_id x = doc_id d)) as [Hx|Hx]; cbn; rewrite Hfd.
    + by rewrite decide_True.
    + by rewrite decide_False.
Qed.

Lemma mark_document_complete_sets_flag_witness :
  let st := mkTagStore [] [] [mkDocument 10 1 "Mine" false; mkDocument 20 2 "Theirs" false] in
  let r := mark_document_complete 1 (Some 10) true st in
  r.1.2 = 200
  ∧ mkDocument 10 1 "Mine" true ∈ documents r.2
  ∧ (∀ k x, documents st !! k = Some x → doc_id x ≠ 10 → documents r.2 !! k = Some x)
  ∧ tags r.2 = tags st
  ∧ document_tags r.2 = document_tags st
  ∧ (mark_document_complete 1 (Some 10) true r.2).2 = r.2.
Proof.
  intros st.
  refine (mark_document_complete_sets_flag 1 (Some 10) true st
            (mkDocument 10 1 "Mine" false) _ _ eq_refl eq_refl).
  - apply (bool_decide_unpack _). by vm_compute.
  - by left.
Defined.

(** X28.  Add, then list: when adding a tag is answered with a key and a
    name, the name is the stripped name that was sent, the caller's list of
    tags holds that key with that name, and every item of the list is a tag
    of the caller. *)
Theorem add_tag_then_list_tags :
  ∀ (strip : string → string) (uid : nat) (name : option string) (st : TagStore)
    (i : nat) (n : string),
    (add_tag strip uid name st).1 = (TagInfo i n, 200) →
    let st' := (add_tag strip uid name st).2 in
    n = strip (default "" name)
    ∧ ∃ items,
        list_tags uid st' = ((TagList items, 200), st')
        ∧ (i, n) ∈ items
        ∧ ∀ i' n', (i', n') ∈ items →
            ∃ t, t ∈ tags st' ∧ tag_id t = i' ∧ tag_name t = n' ∧ tag_user_id t = uid.
Proof.
  intros strip uid name st i n Hrun st'.
  assert (∃ t, t ∈ tags st' ∧ tag_user_id t = uid ∧ tag_id t = i ∧ tag_name t = n
               ∧ n = strip (default "" name)) as (t & Ht & Hu & Hi & Hn & Hname).
  { unfold st'. unfold add_tag in *. case_bool_decide; [done|].
    destruct (first_row (tags_by_name_and_user _ uid st)) as [t|] eqn:Hf.
    - apply first_row_filter_elem in Hf as (Ht & Hn & Hu).
      injection Hrun as <- <-. by exists t.
    - destruct (insert_tag _ uid st) as [[t st1]|] eqn:Hins; [|done].
      apply insert_tag_some in Hins as (_ & -> & ->).
      injection Hrun as <- <-.
      exists (mkTag (fresh_id (tag_id <$> tags st)) (strip (default "" name)) uid).
      split; [|done].
      cbn [snd tags]. apply elem_of_app. right. by left. }
  split; [done|]. eexists. split; [reflexivity|]. split.
  - apply list_elem_of_fmap. exists t. split; [by rewrite Hi, Hn|].
    by apply list_elem_of_filter.
  - intros i' n' Hin. apply list_elem_of_fmap in Hin as (t' & [= -> ->] & Ht').
    apply list_elem_of_filter in Ht' as [Hu' Ht']. by exists t'.
Qed.

Lemma add_tag_then_list_tags_witness :
  let st := mkTagStore [mkTag 1 "a" 1; mkTag 2 "b" 2] [] [] in
  let st' := (add_tag (λ s, s) 1 (Some "ml") st).2 in
  "ml" = "ml"
  ∧ ∃ items,
      list_tags 1 st' = ((TagList items, 200), st')
      ∧ (3, "ml") ∈ items
      ∧ ∀ i' n', (i', n') ∈ items →
          ∃ t, t ∈ tags st' ∧ tag_id t = i' ∧ tag_name t = n' ∧ tag_user_id t = 1.
Proof.
  intros st.
  refine (add_tag_then_list_tags (λ s, s) 1 (Some "ml") st 3 "ml" _).
  reflexivity.
Defined.
